(** * sreq: the HTTP client of mxget (vendor/github.com/winterssy/sreq)

    A shallow embedding of [client.go] and [response.go]: the send pipeline
    ([Send], [Do], the hook chains, [doWithRetry], [do]), the proxy setters and
    the accessors of the response wrapper.

    Go pointers to a [Response] are locations of a store kept in the [World];
    the [*Client] and [*Request] receivers are threaded by value, every function
    returning the state of its receiver after the call.  What the program does
    to the outside (exchanges, body reads and closes, files, writers, hook
    calls) is appended to the [trace] of the [World].  A nil dereference is a
    panic, the [None] of the monad [M]. *)

From Stdlib Require Import ZArith Lia DecimalString.
From stdpp Require Import base option list strings.

Open Scope Z_scope.

(** ** Values of the Go runtime and of the standard packages *)

(** The error interface.  A nil error is the [None] of [option error]. *)
Inductive error :=
| errorString (msg : string)          (* errors.New, fmt.Errorf, errors of other packages *)
| Error (Op : string) (Err : error).  (* &Error{Op: .., Err: ..} of package sreq *)

(** io.ReadCloser by dynamic type: [do] asks whether a body is a *gzip.Reader. *)
Inductive ReadCloser :=
| stream (id : nat)                    (* any reader that is not a *gzip.Reader *)
| gzipReader (under : ReadCloser)      (* a *gzip.Reader decompressing another reader *)
| nilGzipReader.                       (* the nil *gzip.Reader, as an interface value *)

(** The type assertion of a body to the gzip reader type. *)
Definition isGzipReader (b : ReadCloser) : bool :=
  match b with
  | stream _ => false
  | gzipReader _ | nilGzipReader => true
  end.

(** context.Context on a logical clock: [cancelAt] is the instant at which the
    context is canceled or its deadline passes, with the error [Err] reports
    from then on. *)
Record Context := { cancelAt : option (Z * error) }.

Definition Background : Context := {| cancelAt := None |}.

Definition ctx_Err (ctx : Context) (t : Z) : option error :=
  match cancelAt ctx with
  | Some (tc, e) => if tc <=? t then Some e else None
  | None => None
  end.

Record URL := { Scheme : string; Host : string; Path : string; RawQuery : string }.

Record Cookie := { Name : string; Value : string }.

(** http.Header; ranging over the map visits the keys in the order of the list. *)
Definition Header := list (string * list string).

(** Where formatted text and copied bytes go. *)
Inductive Sink :=
| toWriter (w : nat)
| toFile (name : string).

Module http.

Definition StatusOK : Z := 200.

Module Request.
Record t := mk {
  Method : string;
  URL : URL;
  Proto : string;
  Header : Header;
  Body : option ReadCloser;
  GetBody : option (unit -> option ReadCloser * option error);
  ContentLength : Z;
  ctx : Context
}.

Definition set_Body (b : option ReadCloser) (r : t) : t :=
  mk (Method r) (URL r) (Proto r) (Header r) b (GetBody r) (ContentLength r) (ctx r).

(** WithContext: a shallow copy of the request with its context changed. *)
Definition WithContext (c : Context) (r : t) : t :=
  mk (Method r) (URL r) (Proto r) (Header r) (Body r) (GetBody r) (ContentLength r) c.
End Request.

Module Response.
Record t := mk {
  Status : string;
  StatusCode : Z;
  Proto : string;
  Header : Header;
  Body : ReadCloser;
  ContentLength : Z;
  Request : option Request.t
}.

Definition set_Body (b : ReadCloser) (r : t) : t :=
  mk (Status r) (StatusCode r) (Proto r) (Header r) b (ContentLength r) (Request r).
End Response.

Module Transport.
Record t := mk {
  Proxy : option (Request.t -> option URL * option error);
  TLSClientConfig : option (list nat * bool)   (* certificates, InsecureSkipVerify *)
}.

Definition set_Proxy (p : option (Request.t -> option URL * option error)) (tr : t) : t :=
  mk p (TLSClientConfig tr).
End Transport.

(** http.RoundTripper by dynamic type. *)
Inductive RoundTripper :=
| transportPtr (tr : Transport.t)       (* a *http.Transport *)
| otherRoundTripper (id : nat).

Module Client.
Record t := mk {
  Transport : RoundTripper;
  CheckRedirect : option (Request.t -> list Request.t -> option error);
  Jar : option nat;
  Timeout : Z
}.

Definition set_Transport (tr : RoundTripper) (c : t) : t :=
  mk tr (CheckRedirect c) (Jar c) (Timeout c).
End Client.

(** ProxyURL: a proxy function that always returns the same URL. *)
Definition ProxyURL (fixedURL : URL) : Request.t -> option URL * option error :=
  fun _ => (Some fixedURL, None).

End http.

(** ** The types of package sreq *)

(** response.go: [Response]. *)
Record Response := {
  RawResponse : option http.Response.t;
  Err : option error
}.

Definition set_Err (e : option error) (r : Response) : Response :=
  {| RawResponse := RawResponse r; Err := e |}.

(** The retry policy: its fields as [doWithRetry] uses them. *)
Record Retry := {
  MaxAttempts : Z;
  WaitTime : Z;
  MaxWaitTime : Z;
  Trigger : Response -> bool;
  Backoff : Z -> Z -> Z -> Response -> Z
}.

(** The request wrapper: its fields as [client.go] uses them.  [err] is the
    channel of deferred errors, as the queue of the values waiting in it. *)
Record Request := {
  RawRequest : http.Request.t;
  Retry_ : option Retry;
  ctx : option Context;
  err : list (option error)
}.

Definition set_RawRequest (raw : http.Request.t) (req : Request) : Request :=
  {| RawRequest := raw; Retry_ := Retry_ req; ctx := ctx req; err := err req |}.

Definition set_err (q : list (option error)) (req : Request) : Request :=
  {| RawRequest := RawRequest req; Retry_ := Retry_ req; ctx := ctx req; err := q |}.

(** A hook works on the object it is handed and on nothing else. *)
Definition BeforeRequestHook := Request -> Request * option error.
Definition AfterResponseHook := Response -> Response.
Definition RequestOption := Request -> Request * option error.

(** client.go: [Client]. *)
Record Client := {
  RawClient : http.Client.t;
  beforeRequestHooks : list BeforeRequestHook;
  afterResponseHooks : list AfterResponseHook
}.

Definition set_RawClient (rc : http.Client.t) (c : Client) : Client :=
  {| RawClient := rc;
     beforeRequestHooks := beforeRequestHooks c;
     afterResponseHooks := afterResponseHooks c |}.

(** ** The world *)

(** The case taken by the select of the retry loop. *)
Inductive selected := timerFired | ctxDone.

Inductive Event :=
| EvRoundTrip (r : http.Request.t)        (* RawClient.Do: one physical exchange *)
| EvRead (b : ReadCloser)                 (* bytes are read from b *)
| EvClose (b : ReadCloser)
| EvGzipNew (b : ReadCloser)              (* gzip.NewReader reads the header of b *)
| EvWrite (dst : Sink) (s : string)
| EvOpenFile (name : string) (perm : Z)
| EvCloseFile (name : string)
| EvBeforeHook (k : nat)                  (* the k-th before-request hook is called *)
| EvAfterHook (k : nat)
| EvTrigger (i : Z)
| EvGetBody
| EvCtxErr (e : option error)             (* what ctx.Err() returned after an exchange *)
| EvWait (d : Z) (sel : selected).        (* the select on a timer of d and ctx.Done() *)

Definition loc := nat.

Record World := {
  heap : list Response;
  trace : list Event;
  now : Z
}.

Definition set_heap (h : list Response) (w : World) : World :=
  {| heap := h; trace := trace w; now := now w |}.

Definition log (e : Event) (w : World) : World :=
  {| heap := heap w; trace := trace w ++ [e]; now := now w |}.

Definition set_now (t : Z) (w : World) : World :=
  {| heap := heap w; trace := trace w; now := t |}.

(** What lies outside the two files: the standard packages, the runtime, and
    the declarations of package sreq that the two files use. *)
Record Env := {
  (* net/http: the result of an exchange and the time it takes *)
  http_Client_Do : http.Client.t -> World -> http.Request.t ->
                   (option http.Response.t * option error) * Z;
  http_Response_Cookies : http.Response.t -> list Cookie;
  CanonicalHeaderKey : string -> string;
  (* io, compress/gzip, encoding/json, os, net/url *)
  io_ReadAll : World -> ReadCloser -> list Byte.byte * option error;
  io_Close : World -> ReadCloser -> option error;
  io_Copy : World -> Sink -> ReadCloser -> list Byte.byte * option error;
  gzip_NewReader : World -> ReadCloser -> option error;
  os_OpenFile : World -> string -> Z -> option error;
  url_Parse : string -> URL + error;
  URL_RequestURI : URL -> string;
  (* the runtime: the case select takes when both are ready *)
  select_both_ready : World -> bool;
  (* package sreq *)
  ErrUnexpectedTransport : error;
  defaultRetry : Retry;
  Merge : option Retry -> Retry -> Retry;
  Sync : Request -> Request;
  SetBody : option (list Byte.byte) -> Request -> Request;
  NewRequest : string -> string -> list RequestOption -> Request * option error
}.

(** ** The monad of the embedding: state, and [None] for a panic *)

Definition M (A : Type) : Type := World -> option (A * World).

Definition ret {A} (a : A) : M A := fun w => Some (a, w).

Definition bind {A B} (m : M A) (k : A -> M B) : M B :=
  fun w => match m w with
           | Some (a, w') => k a w'
           | None => None
           end.

Definition panic {A} : M A := fun _ => None.

Notation "'let*' x ':=' c1 'in' c2" := (bind c1 (fun x => c2))
  (at level 10, x pattern, c1 at level 100, c2 at level 200).

Definition emit (e : Event) : M unit := fun w => Some (tt, log e w).

Definition ask : M World := fun w => Some (w, w).

(** The dereference of a pointer that may be nil. *)
Definition deref {A} (p : option A) : M A :=
  match p with Some a => ret a | None => panic end.

(** [new(Response)] and [&Response{..}]. *)
Definition alloc (v : Response) : M loc :=
  fun w => Some (length (heap w), set_heap (heap w ++ [v]) w).

Definition load (r : loc) : M Response :=
  fun w => match heap w !! r with Some v => Some (v, w) | None => None end.

Definition store (r : loc) (v : Response) : M unit :=
  fun w => match heap w !! r with
           | Some _ => Some (tt, set_heap (<[r := v]> (heap w)) w)
           | None => None
           end.

(** ** Text *)

Definition crlf : string :=
  String (Ascii.ascii_of_nat 13) (String (Ascii.ascii_of_nat 10) EmptyString).

(** The verb %d of package fmt. *)
Definition itoa (n : Z) : string := NilZero.string_of_int (Z.to_int n).

Definition toLowerASCII (c : Ascii.ascii) : Ascii.ascii :=
  let n := Ascii.nat_of_ascii c in
  if ((65 <=? n) && (n <=? 90))%nat then Ascii.ascii_of_nat (n + 32) else c.

Fixpoint toLower (s : string) : string :=
  match s with
  | EmptyString => EmptyString
  | String c s' => String (toLowerASCII c) (toLower s')
  end.

(** strings.EqualFold, on the letters of ASCII.  In [do] one side is the
    constant gzip, and no rune outside ASCII folds to one of its letters. *)
Definition EqualFold (s t : string) : bool := String.eqb (toLower s) (toLower t).

Section Program.

Variable E : Env.

(** Header.Get: the first value stored under the canonical form of the key. *)
Fixpoint Header_lookup (h : Header) (key : string) : string :=
  match h with
  | [] => ""
  | (k, vs) :: h' =>
      if String.eqb k key then match vs with v :: _ => v | [] => "" end
      else Header_lookup h' key
  end.

Definition Header_Get (h : Header) (key : string) : string :=
  Header_lookup h (CanonicalHeaderKey E key).

(** ** Reading, closing, copying and printing *)

Definition Read (b : ReadCloser) : M (list Byte.byte * option error) :=
  match b with
  | nilGzipReader => panic
  | _ => let* w := ask in
         let* _ := emit (EvRead b) in
         ret (io_ReadAll E w b)
  end.

Definition Close (b : ReadCloser) : M (option error) :=
  match b with
  | nilGzipReader => panic
  | _ => let* w := ask in
         let* _ := emit (EvClose b) in
         ret (io_Close E w b)
  end.

Definition Copy (dst : Sink) (src : ReadCloser) : M (list Byte.byte * option error) :=
  match src with
  | nilGzipReader => panic
  | _ => let* w := ask in
         let* _ := emit (EvRead src) in
         let* _ := emit (EvWrite dst (String.string_of_list_byte (fst (io_Copy E w dst src)))) in
         ret (io_Copy E w dst src)
  end.

Definition Fprint (w : nat) (s : string) : M unit := emit (EvWrite (toWriter w) s).

Definition OpenFile (name : string) (perm : Z) : M (option error) :=
  let* w := ask in
  let* _ := emit (EvOpenFile name perm) in
  ret (os_OpenFile E w name perm).

(** ** response.go *)

Definition Resolve (r : loc) : M (option http.Response.t * option error) :=
  let* resp := load r in
  ret (RawResponse resp, Err resp).

Definition Raw (r : loc) : M (list Byte.byte * option error) :=
  let* resp := load r in
  match Err resp with
  | Some e => ret ([], Some e)
  | None =>
      let* raw := deref (RawResponse resp) in
      let* res := Read (http.Response.Body raw) in
      let* _ := Close (http.Response.Body raw) in
      ret res
  end.

Definition Text (r : loc) : M (string * option error) :=
  let* (b, e) := Raw r in
  ret (String.string_of_list_byte b, e).

(** [Decode] is what the decoder of encoding/json does with a destination
    of type [V]. *)
Definition JSON {V} (Decode : World -> ReadCloser -> V -> V * option error)
    (v : V) (r : loc) : M (V * option error) :=
  let* resp := load r in
  match Err resp with
  | Some e => ret (v, Some e)
  | None =>
      let* raw := deref (RawResponse resp) in
      let* w := ask in
      let* _ := emit (EvRead (http.Response.Body raw)) in
      let* _ := Close (http.Response.Body raw) in
      ret (Decode w (http.Response.Body raw) v)
  end.

Definition Cookies (r : loc) : M (list Cookie * option error) :=
  let* resp := load r in
  match Err resp with
  | Some e => ret ([], Some e)
  | None =>
      let* raw := deref (RawResponse resp) in
      match http_Response_Cookies E raw with
      | [] => ret ([], Some (errorString "sreq: cookies not present"))
      | cookies => ret (cookies, None)
      end
  end.

Definition Cookie_ (name : string) (r : loc) : M (option Cookie * option error) :=
  let* (cookies, e) := Cookies r in
  match e with
  | Some e => ret (None, Some e)
  | None =>
      match List.find (fun c => String.eqb (Name c) name) cookies with
      | Some c => ret (Some c, None)
      | None => ret (None, Some (errorString "sreq: named cookie not present"))
      end
  end.

Definition badStatus (code : Z) : error :=
  errorString ("sreq: bad status: " +:+ itoa code).

Definition EnsureStatus (code : Z) (r : loc) : M loc :=
  let* resp := load r in
  match Err resp with
  | Some _ => ret r
  | None =>
      let* raw := deref (RawResponse resp) in
      if negb (http.Response.StatusCode raw =? code) then
        let* _ := store r (set_Err (Some (badStatus (http.Response.StatusCode raw))) resp) in
        ret r
      else ret r
  end.

Definition EnsureStatusOk (r : loc) : M loc := EnsureStatus http.StatusOK r.

Definition EnsureStatus2xx (r : loc) : M loc :=
  let* resp := load r in
  match Err resp with
  | Some _ => ret r
  | None =>
      let* raw := deref (RawResponse resp) in
      if negb (Z.quot (http.Response.StatusCode raw) 100 =? 2) then
        let* _ := store r (set_Err (Some (badStatus (http.Response.StatusCode raw))) resp) in
        ret r
      else ret r
  end.

Definition Save (filename : string) (perm : Z) (r : loc) : M (option error) :=
  let* resp := load r in
  match Err resp with
  | Some e => ret (Some e)
  | None =>
      let* ferr := OpenFile filename perm in
      match ferr with
      | Some e => ret (Some e)
      | None =>
          let* raw := deref (RawResponse resp) in
          let* (_, e) := Copy (toFile filename) (http.Response.Body raw) in
          let* _ := Close (http.Response.Body raw) in
          let* _ := emit (EvCloseFile filename) in
          ret e
      end
  end.

(** The lines of a header, one for each key of the map. *)
Fixpoint printHeader (w : nat) (mark : string) (keys h : Header) : M unit :=
  match keys with
  | [] => ret tt
  | (k, _) :: keys' =>
      let* _ := Fprint w (mark +:+ " " +:+ k +:+ ": " +:+ Header_Get h k +:+ crlf) in
      printHeader w mark keys' h
  end.

(** The request body of [Verbose]: the reader whose Close is deferred, and
    the error on which the method returns early. *)
Definition printRequestBody (w : nat) (req : http.Request.t)
    : M (option ReadCloser * option error) :=
  match http.Request.GetBody req with
  | Some getBody =>
      if negb (http.Request.ContentLength req =? 0) then
        let* _ := emit EvGetBody in
        match getBody tt with
        | (_, Some e) => ret (None, Some e)
        | (rc, None) =>
            let* rc := deref rc in
            let* (_, e) := Copy (toWriter w) rc in
            match e with
            | Some e => ret (Some rc, Some e)
            | None =>
                let* _ := Fprint w crlf in
                ret (Some rc, None)
            end
        end
      else ret (None, None)
  | None => ret (None, None)
  end.

Definition closeDeferred (rc : option ReadCloser) : M unit :=
  match rc with
  | Some rc => let* _ := Close rc in ret tt
  | None => ret tt
  end.

Definition Verbose (w : nat) (r : loc) : M (option error) :=
  let* resp := load r in
  match Err resp with
  | Some e => ret (Some e)
  | None =>
      let* raw := deref (RawResponse resp) in
      let* req := deref (http.Response.Request raw) in
      let* _ := Fprint w ("> " +:+ http.Request.Method req +:+ " " +:+
                          URL_RequestURI E (http.Request.URL req) +:+ " " +:+
                          http.Request.Proto req +:+ crlf) in
      let* _ := Fprint w ("> Host: " +:+ Host (http.Request.URL req) +:+ crlf) in
      let* _ := printHeader w ">" (http.Request.Header req) (http.Request.Header req) in
      let* _ := Fprint w (">" +:+ crlf) in
      let* (rc, early) := printRequestBody w req in
      match early with
      | Some e => let* _ := closeDeferred rc in ret (Some e)
      | None =>
          let* _ := Fprint w ("< " +:+ http.Response.Proto raw +:+ " " +:+
                              http.Response.Status raw +:+ crlf) in
          let* _ := printHeader w "<" (http.Response.Header raw) (http.Response.Header raw) in
          let* _ := Fprint w ("<" +:+ crlf) in
          let* (_, e) := Copy (toWriter w) (http.Response.Body raw) in
          let* _ := Close (http.Response.Body raw) in
          let* _ := closeDeferred rc in
          ret e
      end
  end.

(** ** client.go: configuration *)

Definition httpTransport (c : Client) : http.Transport.t + error :=
  match http.Client.Transport (RawClient c) with
  | http.transportPtr t => inl t
  | http.otherRoundTripper _ => inr (ErrUnexpectedTransport E)
  end.

Definition SetProxy
    (proxy : option (http.Request.t -> option URL * option error))
    (c : Client) : Client * option error :=
  match httpTransport c with
  | inr e => (c, Some (Error "Client.SetProxy" e))
  | inl t =>
      (set_RawClient
         (http.Client.set_Transport
            (http.transportPtr (http.Transport.set_Proxy proxy t)) (RawClient c)) c,
       None)
  end.

Definition SetProxyFromURL (url : string) (c : Client) : Client * option error :=
  match url_Parse E url with
  | inr e => (c, Some (Error "Client.SetProxyFromURL" e))
  | inl fixedURL => SetProxy (Some (http.ProxyURL fixedURL)) c
  end.

Definition DisableProxy (c : Client) : Client * option error := SetProxy None c.

Definition OnBeforeRequest (hooks : list BeforeRequestHook) (c : Client) : Client :=
  {| RawClient := RawClient c;
     beforeRequestHooks := beforeRequestHooks c ++ hooks;
     afterResponseHooks := afterResponseHooks c |}.

Definition OnAfterResponse (hooks : list AfterResponseHook) (c : Client) : Client :=
  {| RawClient := RawClient c;
     beforeRequestHooks := beforeRequestHooks c;
     afterResponseHooks := afterResponseHooks c ++ hooks |}.

(** ** client.go: the hook chains *)

(** The loop of [onBeforeRequest] from the k-th hook on. *)
Fixpoint beforeRequestFrom (k : nat) (hooks : list BeforeRequestHook) (req : Request)
    : M (Request * option error) :=
  match hooks with
  | [] => ret (req, None)
  | hook :: hooks' =>
      let* _ := emit (EvBeforeHook k) in
      match hook req with
      | (req', Some e) => ret (req', Some e)
      | (req', None) => beforeRequestFrom (S k) hooks' req'
      end
  end.

Definition onBeforeRequest (c : Client) (req : Request) : M (Request * option error) :=
  beforeRequestFrom 0 (beforeRequestHooks c) req.

(** The loop of [onAfterResponse] from the k-th hook on. *)
Fixpoint afterResponseFrom (k : nat) (hooks : list AfterResponseHook) (resp : loc)
    : M unit :=
  match hooks with
  | [] => ret tt
  | hook :: hooks' =>
      let* _ := emit (EvAfterHook k) in
      let* r := load resp in
      let* _ := store resp (hook r) in
      let* r := load resp in
      match Err r with
      | Some _ => ret tt
      | None => afterResponseFrom (S k) hooks' resp
      end
  end.

Definition onAfterResponse (c : Client) (resp : loc) : M unit :=
  afterResponseFrom 0 (afterResponseHooks c) resp.

(** ** client.go: one exchange *)

Definition drainBody (body : ReadCloser) : M (option (list Byte.byte) * option error) :=
  let* (data, e) := Read body in
  match e with
  | Some e => ret (None, Some e)
  | None =>
      let* e := Close body in
      match e with
      | Some e => ret (None, Some e)
      | None => ret (Some data, None)
      end
  end.

(** RawClient.Do: the exchange is recorded and the clock moves on. *)
Definition RawClient_Do (c : Client) (raw : http.Request.t)
    : M (option http.Response.t * option error) :=
  fun w =>
    let (res, dt) := http_Client_Do E (RawClient c) w raw in
    Some (res, set_now (now w + Z.max 0 dt) (log (EvRoundTrip raw) w)).

(** gzip.NewReader: on failure the pointer it returns is nil. *)
Definition NewReader (b : ReadCloser) : M (ReadCloser * option error) :=
  match b with
  | nilGzipReader => panic
  | _ => let* w := ask in
         let* _ := emit (EvGzipNew b) in
         match gzip_NewReader E w b with
         | Some e => ret (nilGzipReader, Some e)
         | None => ret (gzipReader b, None)
         end
  end.

(** The three conditions under which [do] decodes a body. *)
Definition wantsGzip (rr : http.Response.t) : bool :=
  EqualFold (Header_Get (http.Response.Header rr) "Content-Encoding") "gzip"
  && negb (http.Response.ContentLength rr =? 0)
  && negb (isGzipReader (http.Response.Body rr)).

Definition do (c : Client) (req : Request)
    : M (Request * (option http.Response.t * option error)) :=
  let* (rawResponse, e) := RawClient_Do c (RawRequest req) in
  match e with
  | Some e => ret (req, (rawResponse, Some e))
  | None =>
      match err req with
      | v :: pending => ret (set_err pending req, (rawResponse, v))
      | [] =>
          let* rr := deref rawResponse in
          if EqualFold (Header_Get (http.Response.Header rr) "Content-Encoding") "gzip"
             && negb (http.Response.ContentLength rr =? 0) then
            if isGzipReader (http.Response.Body rr) then ret (req, (Some rr, None))
            else
              let* (body, e) := NewReader (http.Response.Body rr) in
              let* _ := Close (http.Response.Body rr) in
              ret (req, (Some (http.Response.set_Body body rr), e))
          else ret (req, (Some rr, None))
      end
  end.

(** ** client.go: the retry loop *)

Definition boundContext (req : Request) : Context :=
  match ctx req with
  | Some c => c
  | None => Background
  end.

(** The select of [doWithRetry]: a timer of [d] against the Done channel of
    the context.  The case that is ready first is taken; when both are
    ready at the same instant the runtime chooses. *)
Definition wait (ctx : Context) (d : Z) : M selected :=
  fun w =>
    let fire := now w + Z.max 0 d in
    match cancelAt ctx with
    | None => Some (timerFired, set_now fire (log (EvWait d timerFired) w))
    | Some (tc, _) =>
        let done := Z.max (now w) tc in
        if done <? fire then Some (ctxDone, set_now done (log (EvWait d ctxDone) w))
        else if fire <? done then Some (timerFired, set_now fire (log (EvWait d timerFired) w))
        else if select_both_ready E w then Some (ctxDone, set_now fire (log (EvWait d ctxDone) w))
        else Some (timerFired, set_now fire (log (EvWait d timerFired) w))
    end.

Definition resetBody (req : Request) : M Request :=
  match http.Request.GetBody (RawRequest req) with
  | Some getBody =>
      let* _ := emit EvGetBody in
      ret (set_RawRequest (http.Request.set_Body (fst (getBody tt)) (RawRequest req)) req)
  | None => ret req
  end.

Inductive flow := returns | continues.

(** The body of the for loop, at index [i]. *)
Definition attempt (c : Client) (retry : Retry) (ctx : Context) (resp : loc)
    (i : Z) (req : Request) : M (flow * Request) :=
  let* (req, (raw, e)) := do c req in
  let* _ := store resp {| RawResponse := raw; Err := e |} in
  let* w := ask in
  let* _ := emit (EvCtxErr (ctx_Err ctx (now w))) in
  match ctx_Err ctx (now w) with
  | Some e =>
      let* r := load resp in
      let* _ := store resp (set_Err (Some e) r) in
      ret (returns, req)
  | None =>
      if i =? MaxAttempts retry - 1 then ret (returns, req)
      else
        let* r := load resp in
        let* _ := emit (EvTrigger i) in
        if negb (Trigger retry r) then ret (returns, req)
        else
          let* req := resetBody req in
          let* sel := wait ctx (Backoff retry (WaitTime retry) (MaxWaitTime retry) i r) in
          match sel with
          | timerFired => ret (continues, req)
          | ctxDone =>
              let* w := ask in
              let* r := load resp in
              let* _ := store resp (set_Err (ctx_Err ctx (now w)) r) in
              ret (returns, req)
          end
  end.

(** The for loop from index [i] on.  [fuel] bounds the number of tests of
    the loop condition; running out of it is [None]. *)
Fixpoint attempts (fuel : nat) (c : Client) (retry : Retry) (ctx : Context)
    (resp : loc) (i : Z) (req : Request) : M Request :=
  match fuel with
  | O => fun _ => None
  | S fuel' =>
      if i <? MaxAttempts retry then
        let* (fl, req) := attempt c retry ctx resp i req in
        match fl with
        | returns => ret req
        | continues => attempts fuel' c retry ctx resp (i + 1) req
        end
      else ret req
  end.

(** The statements of [doWithRetry] before the loop. *)
Definition prepare (retry : Retry) (req : Request) : M Request :=
  match http.Request.Body (RawRequest req), http.Request.GetBody (RawRequest req) with
  | Some body, None =>
      if 1 <? MaxAttempts retry then
        let* (b, _) := drainBody body in
        ret (SetBody E b req)
      else ret req
  | _, _ => ret req
  end.

Definition doWithRetry (c : Client) (req : Request) (resp : loc) : M Request :=
  let retry := Merge E (Retry_ req) (defaultRetry E) in
  let* req := prepare retry req in
  let ctx := boundContext req in
  let req := set_RawRequest (http.Request.WithContext ctx (RawRequest req)) req in
  attempts (S (Z.to_nat (MaxAttempts retry))) c retry ctx resp 0 req.

(** ** client.go: the entry points *)

Definition Do (c : Client) (req : Request) : M (loc * Request) :=
  let* resp := alloc {| RawResponse := None; Err := None |} in
  let* (req, e) := onBeforeRequest c req in
  match e with
  | Some e =>
      let* r := load resp in
      let* _ := store resp (set_Err (Some e) r) in
      ret (resp, req)
  | None =>
      let* req := doWithRetry c (Sync E req) resp in
      let* _ := onAfterResponse c resp in
      ret (resp, req)
  end.

Definition Send (c : Client) (method url : string) (opts : list RequestOption) : M loc :=
  match NewRequest E method url opts with
  | (_, Some e) => alloc {| RawResponse := None; Err := Some e |}
  | (req, None) => let* (resp, _) := Do c req in ret resp
  end.

End Program.

(** ** What a trace shows *)

(** The requests handed to the transport, in order: one for each exchange. *)
Fixpoint sent (tr : list Event) : list http.Request.t :=
  match tr with
  | [] => []
  | EvRoundTrip r :: tr' => r :: sent tr'
  | _ :: tr' => sent tr'
  end.

Definition exchanges (tr : list Event) : nat := length (sent tr).

(** The bodies that were read, in order. *)
Fixpoint reads (tr : list Event) : list ReadCloser :=
  match tr with
  | [] => []
  | EvRead b :: tr' => b :: reads tr'
  | _ :: tr' => reads tr'
  end.

(** The bodies handed to gzip.NewReader, in order. *)
Fixpoint decoded (tr : list Event) : list ReadCloser :=
  match tr with
  | [] => []
  | EvGzipNew b :: tr' => b :: decoded tr'
  | _ :: tr' => decoded tr'
  end.

(** The indices of the before-request hooks that were called, in order. *)
Fixpoint beforeCalls (tr : list Event) : list nat :=
  match tr with
  | [] => []
  | EvBeforeHook k :: tr' => k :: beforeCalls tr'
  | _ :: tr' => beforeCalls tr'
  end.

(** The indices of the after-response hooks that were called, in order. *)
Fixpoint afterCalls (tr : list Event) : list nat :=
  match tr with
  | [] => []
  | EvAfterHook k :: tr' => k :: afterCalls tr'
  | _ :: tr' => afterCalls tr'
  end.

(** An event in which the program sees the context canceled: ctx.Err() is
    not nil after an exchange, or the select takes the case of ctx.Done(). *)
Definition observesCancel (e : Event) : bool :=
  match e with
  | EvCtxErr (Some _) => true
  | EvWait _ ctxDone => true
  | _ => false
  end.

Definition noCancel (tr : list Event) : Prop :=
  Forall (fun e => observesCancel e = false) tr.

(** ** Words of the statements *)

(** The contract of net/http: a nil error comes with a response. *)
Definition transportOk (E : Env) : Prop :=
  forall rc w raw resp dt,
    http_Client_Do E rc w raw = ((resp, None), dt) -> resp <> None.

(** The hooks of a before-request chain all pass on [req], one after the
    other, and leave the request [passAll hooks req]. *)
Fixpoint passAll (hooks : list BeforeRequestHook) (req : Request) : option Request :=
  match hooks with
  | [] => Some req
  | hook :: hooks' =>
      match hook req with
      | (req', None) => passAll hooks' req'
      | (_, Some _) => None
      end
  end.

(** The hooks of an after-response chain, one after the other, each leave
    the Response without an error. *)
Fixpoint leaveClean (hooks : list AfterResponseHook) (r : Response) : option Response :=
  match hooks with
  | [] => Some r
  | hook :: hooks' =>
      match Err (hook r) with
      | None => leaveClean hooks' (hook r)
      | Some _ => None
      end
  end.

(** The request carries a body and no GetBody, and the policy allows a retry. *)
Definition needsBuffer (retry : Retry) (req : Request) : bool :=
  (1 <? MaxAttempts retry)
  && match http.Request.Body (RawRequest req) with Some _ => true | None => false end
  && match http.Request.GetBody (RawRequest req) with Some _ => false | None => true end.

(** The body of a request is what its GetBody returns, when it has one. *)
Definition wasReset (r : http.Request.t) : Prop :=
  forall getBody, http.Request.GetBody r = Some getBody ->
                  http.Request.Body r = fst (getBody tt).

(** The world in which the Response at [r] holds the status-assertion error
    for the status code of [raw]. *)
Definition asserted (w : World) (r : loc) (resp : Response) (raw : http.Response.t)
    : World :=
  set_heap (<[r := set_Err (Some (badStatus (http.Response.StatusCode raw))) resp]> (heap w)) w.

(** The world right after the transport has answered, [dt] later. *)
Definition answered (w : World) (raw : http.Request.t) (dt : Z) : World :=
  set_now (now w + Z.max 0 dt) (log (EvRoundTrip raw) w).

(** The raw request with its body taken anew from GetBody. *)
Definition resetRaw (r : http.Request.t) : http.Request.t :=
  match http.Request.GetBody r with
  | Some getBody => http.Request.set_Body (fst (getBody tt)) r
  | None => r
  end.

(** The ways through the body of the loop once the exchange of attempt [i]
    has left [(raw, e)] at instant [t]: what the loop does next, the request
    it goes on with, the events after the exchange, and the error left in
    the Response. *)
Inductive attemptCase (retry : Retry) (ctx : Context) (i : Z) (req1 : Request)
    (raw : option http.Response.t) (e : option error) (t : Z)
    : flow -> Request -> list Event -> option error -> Prop :=
| canceledAfterExchange ce :
    ctx_Err ctx t = Some ce ->
    attemptCase retry ctx i req1 raw e t returns req1 [EvCtxErr (Some ce)] (Some ce)
| lastAttempt :
    ctx_Err ctx t = None ->
    i = MaxAttempts retry - 1 ->
    attemptCase retry ctx i req1 raw e t returns req1 [EvCtxErr None] e
| notTriggered :
    ctx_Err ctx t = None ->
    i <> MaxAttempts retry - 1 ->
    Trigger retry {| RawResponse := raw; Err := e |} = false ->
    attemptCase retry ctx i req1 raw e t returns req1 [EvCtxErr None; EvTrigger i] e
| canceledInWait req2 gb d tc ce :
    ctx_Err ctx t = None ->
    i <> MaxAttempts retry - 1 ->
    Trigger retry {| RawResponse := raw; Err := e |} = true ->
    RawRequest req2 = resetRaw (RawRequest req1) ->
    gb = [] \/ gb = [EvGetBody] ->
    cancelAt ctx = Some (tc, ce) ->
    attemptCase retry ctx i req1 raw e t returns req2
      ([EvCtxErr None; EvTrigger i] ++ gb ++ [EvWait d ctxDone]) (Some ce)
| retried req2 gb d :
    ctx_Err ctx t = None ->
    i <> MaxAttempts retry - 1 ->
    Trigger retry {| RawResponse := raw; Err := e |} = true ->
    RawRequest req2 = resetRaw (RawRequest req1) ->
    gb = [] \/ gb = [EvGetBody] ->
    attemptCase retry ctx i req1 raw e t continues req2
      ([EvCtxErr None; EvTrigger i] ++ gb ++ [EvWait d timerFired]) e.

(** ** A small world to run the program in *)

Module Demo.

Definition url : URL :=
  {| Scheme := "http"; Host := "example.org"; Path := "/"; RawQuery := "" |}.

Definition get : http.Request.t :=
  http.Request.mk "GET" url "HTTP/1.1" [] None None 0 Background.

Definition post : http.Request.t :=
  http.Request.mk "POST" url "HTTP/1.1" [] (Some (stream 1)) None 2 Background.

Definition answer (code : Z) (h : Header) (len : Z) : http.Response.t :=
  http.Response.mk (itoa code) code "HTTP/1.1" h (stream 0) len (Some get).

Definition onlyOnError : Response -> bool :=
  fun r => match Err r with Some _ => true | None => false end.

Definition on500 : Response -> bool :=
  fun r => match RawResponse r with
           | Some raw => http.Response.StatusCode raw =? 500
           | None => false
           end.

Definition policy (n : Z) (trigger : Response -> bool) : Retry :=
  {| MaxAttempts := n; WaitTime := 10; MaxWaitTime := 100;
     Trigger := trigger; Backoff := fun wt _ _ _ => wt |}.

(** The server answers 500 twice and then 200; every exchange takes 3 ticks. *)
Definition server (w : World) : (option http.Response.t * option error) * Z :=
  match exchanges (trace w) with
  | O | 1%nat => (Some (answer 500 [] 4), None, 3)
  | _ => (Some (answer 200 [] 4), None, 3)
  end.

(** A server that answers with a gzip body. *)
Definition gzipServer (w : World) : (option http.Response.t * option error) * Z :=
  (Some (answer 200 [("Content-Encoding", ["GZIP"])] 4), None, 3).

(** A transport that fails. *)
Definition deadServer (w : World) : (option http.Response.t * option error) * Z :=
  (None, Some (errorString "dial tcp: connection refused"), 3).

Definition parse (s : string) : URL + error :=
  if String.prefix ":" s then inr (errorString "parse: missing protocol scheme")
  else inl {| Scheme := "http"; Host := s; Path := ""; RawQuery := "" |}.

Definition request (raw : http.Request.t) (retry : option Retry)
    (c : option Context) : Request :=
  {| RawRequest := raw; Retry_ := retry; ctx := c; err := [] |}.

Definition env (srv : World -> (option http.Response.t * option error) * Z) : Env :=
  {| http_Client_Do := fun _ w _ => srv w;
     http_Response_Cookies := fun _ => [];
     CanonicalHeaderKey := fun k => k;
     io_ReadAll := fun _ _ => ([], None);
     io_Close := fun _ _ => None;
     io_Copy := fun _ _ _ => ([], None);
     gzip_NewReader := fun _ _ => None;
     os_OpenFile := fun _ _ _ => None;
     url_Parse := parse;
     URL_RequestURI := fun u => Path u;
     select_both_ready := fun _ => true;
     ErrUnexpectedTransport := errorString "sreq: unexpected transport";
     defaultRetry := policy 1 onlyOnError;
     Merge := fun r d => match r with Some r => r | None => d end;
     Sync := fun req => req;
     SetBody := fun b req =>
       match b with
       | Some _ =>
           set_RawRequest
             (http.Request.mk "POST" url "HTTP/1.1" [] (Some (stream 2))
                (Some (fun _ => (Some (stream 2), None))) 2
                (http.Request.ctx (RawRequest req))) req
       | None => set_RawRequest (http.Request.set_Body None (RawRequest req)) req
       end;
     NewRequest := fun method u _ =>
       match parse u with
       | inl v => (request (http.Request.mk method v "HTTP/1.1" [] None None 0 Background)
                     None None, None)
       | inr e => (request get None None, Some e)
       end |}.

Definition client : Client :=
  {| RawClient :=
       http.Client.mk
         (http.transportPtr (http.Transport.mk (Some (http.ProxyURL url)) None))
         None (Some 0%nat) 120;
     beforeRequestHooks := [];
     afterResponseHooks := [] |}.

Definition start : World := {| heap := []; trace := []; now := 0 |}.

(** A world in which one Response has been allocated. *)
Definition world (r : Response) : World := {| heap := [r]; trace := []; now := 0 |}.

Definition empty : Response := {| RawResponse := None; Err := None |}.

Definition canceled : error := errorString "context canceled".

Definition deferred : error := errorString "sreq: deferred request error".

Definition always : Response -> bool := fun _ => true.

Definition pass : BeforeRequestHook := fun req => (req, None).

Definition refuse (msg : string) : BeforeRequestHook :=
  fun req => (req, Some (errorString msg)).

Definition keep : AfterResponseHook := fun r => r.

Definition reject (msg : string) : AfterResponseHook :=
  fun r => set_Err (Some (errorString msg)) r.

(** Three hooks in each chain; the second one fails. *)
Definition hooked : Client :=
  OnAfterResponse [keep; reject "rejected"; keep]
    (OnBeforeRequest [pass; refuse "refused"; pass] client).

Definition notFound : Response :=
  {| RawResponse := Some (answer 404 [] 4); Err := None |}.

Definition failed : Response :=
  {| RawResponse := None; Err := Some (errorString "dial tcp: connection refused") |}.

End Demo.

(** ** client.go: the other setters and the cookie jar *)

(** The declarations of package sreq and the state of the cookie jars that
    the cookie functions use: the two error values, and the cookies each jar
    holds for a URL. *)
Record CookieEnv := {
  ErrNilCookieJar : error;
  ErrNoCookie : error;
  Jar_Cookies : nat -> URL -> list Cookie
}.

(** The zero value of tls.Config: no certificate, verification on. *)
Definition emptyTLSConfig : list nat * bool := ([], false).

Section Setters.

Variable E : Env.

Definition SetTransport (transport : http.RoundTripper) (c : Client) : Client :=
  set_RawClient (http.Client.set_Transport transport (RawClient c)) c.

Definition SetRedirect
    (policy : option (http.Request.t -> list http.Request.t -> option error))
    (c : Client) : Client :=
  set_RawClient
    (http.Client.mk (http.Client.Transport (RawClient c)) policy
       (http.Client.Jar (RawClient c)) (http.Client.Timeout (RawClient c))) c.

Definition SetCookieJar (jar : option nat) (c : Client) : Client :=
  set_RawClient
    (http.Client.mk (http.Client.Transport (RawClient c))
       (http.Client.CheckRedirect (RawClient c)) jar
       (http.Client.Timeout (RawClient c))) c.

Definition DisableSession (c : Client) : Client := SetCookieJar None c.

Definition SetTimeout (timeout : Z) (c : Client) : Client :=
  set_RawClient
    (http.Client.mk (http.Client.Transport (RawClient c))
       (http.Client.CheckRedirect (RawClient c)) (http.Client.Jar (RawClient c))
       timeout) c.

(** The client with [t] as its transport. *)
Definition withTransport (t : http.Transport.t) (c : Client) : Client :=
  set_RawClient (http.Client.set_Transport (http.transportPtr t) (RawClient c)) c.

Definition SetTLSClientConfig (config : option (list nat * bool)) (c : Client)
    : Client * option error :=
  match httpTransport E c with
  | inr e => (c, Some (Error "Client.SetTLSClientConfig" e))
  | inl t => (withTransport (http.Transport.mk (http.Transport.Proxy t) config) c, None)
  end.

Definition AppendClientCerts (certs : list nat) (c : Client) : Client * option error :=
  match httpTransport E c with
  | inr e => (c, Some (Error "Client.AppendClientCerts" e))
  | inl t =>
      let config :=
        match http.Transport.TLSClientConfig t with
        | Some config => config
        | None => emptyTLSConfig
        end in
      (withTransport
         (http.Transport.mk (http.Transport.Proxy t)
            (Some (fst config ++ certs, snd config))) c,
       None)
  end.

Definition DisableVerify (c : Client) : Client * option error :=
  match httpTransport E c with
  | inr e => (c, Some (Error "Client.DisableVerify" e))
  | inl t =>
      let config :=
        match http.Transport.TLSClientConfig t with
        | Some config => config
        | None => emptyTLSConfig
        end in
      (withTransport
         (http.Transport.mk (http.Transport.Proxy t) (Some (fst config, true))) c,
       None)
  end.

Variable J : CookieEnv.

(** [SetCookies]: the client and the error it returns, and the call it makes
    to the jar, if it makes one. *)
Definition SetCookies (url : string) (cookies : list Cookie) (c : Client)
    : (Client * option error) * option (nat * URL * list Cookie) :=
  match http.Client.Jar (RawClient c) with
  | None => ((c, Some (Error "Client.SetCookies" (ErrNilCookieJar J))), None)
  | Some jar =>
      match url_Parse E url with
      | inr e => ((c, Some (Error "Client.SetCookies" e)), None)
      | inl u => ((c, None), Some (jar, u, cookies))
      end
  end.

Definition FilterCookies (url : string) (c : Client) : list Cookie * option error :=
  match http.Client.Jar (RawClient c) with
  | None => ([], Some (ErrNilCookieJar J))
  | Some jar =>
      match url_Parse E url with
      | inr e => ([], Some e)
      | inl u => (Jar_Cookies J jar u, None)
      end
  end.

(** The loop of [FilterCookie] over the cookies. *)
Fixpoint firstNamed (name : string) (cookies : list Cookie) : option Cookie :=
  match cookies with
  | [] => None
  | cookie :: cookies' =>
      if String.eqb (Name cookie) name then Some cookie else firstNamed name cookies'
  end.

Definition FilterCookie (url name : string) (c : Client) : option Cookie * option error :=
  match FilterCookies url c with
  | (_, Some e) => (None, Some e)
  | (cookies, None) =>
      match firstNamed name cookies with
      | Some cookie => (Some cookie, None)
      | None => (None, Some (ErrNoCookie J))
      end
  end.

End Setters.

(** A computation that, when it returns, leaves the store of Responses as
    it found it. *)
Definition keepsHeap {A} (m : M A) : Prop :=
  forall w a w', m w = Some (a, w') -> heap w' = heap w.

(** The zero value of [Response]. *)
Definition zeroResponse : Response := {| RawResponse := None; Err := None |}.

(** ** More of the small world *)

Module Sample.

Definition jars : CookieEnv :=
  {| ErrNilCookieJar := errorString "sreq: nil cookie jar";
     ErrNoCookie := errorString "sreq: named cookie not present";
     Jar_Cookies := fun _ _ =>
       [ {| Name := "sid"; Value := "1" |}; {| Name := "lang"; Value := "en" |};
         {| Name := "sid"; Value := "2" |} ] |}.

(** A client whose transport is not a *http.Transport. *)
Definition custom : Client := SetTransport (http.otherRoundTripper 7) Demo.client.

(** A request whose GetBody fails. *)
Definition brokenRequest : http.Request.t :=
  http.Request.mk "POST" Demo.url "HTTP/1.1" [("Accept", ["*/*"])] None
    (Some (fun _ => (None, Some (errorString "body gone")))) 2 Background.

Definition replied : Response :=
  {| RawResponse :=
       Some (http.Response.mk "200 OK" 200 "HTTP/1.1" [] (stream 0) 4 (Some brokenRequest));
     Err := None |}.

(** A before-request hook that turns the request into a HEAD request. *)
Definition toHead : BeforeRequestHook :=
  fun req =>
    (set_RawRequest
       (http.Request.mk "HEAD" (http.Request.URL (RawRequest req))
          (http.Request.Proto (RawRequest req)) (http.Request.Header (RawRequest req))
          (http.Request.Body (RawRequest req)) (http.Request.GetBody (RawRequest req))
          (http.Request.ContentLength (RawRequest req))
          (http.Request.ctx (RawRequest req))) req,
     None).

Definition stamping : Client := OnBeforeRequest [Demo.pass; toHead] Demo.client.

Definition ok : Response :=
  {| RawResponse := Some (Demo.answer 200 [] 4); Err := None |}.

End Sample.

(** ** More words of the statements *)




(** What [prepare] hands to SetBody for the body [body] read in [w]: the
    bytes of the body when the read and the close both succeed, and nil when
    one of them fails. *)
Definition drained (E : Env) (w : World) (body : ReadCloser) : option (list Byte.byte) :=
  match io_ReadAll E w body with
  | (data, None) =>
      match io_Close E (log (EvRead body) w) body with
      | None => Some data
      | Some _ => None
      end
  | (_, Some _) => None
  end.

(** The lines [Verbose] writes for the request [req], in order: the request
    line, the Host line, one line for each key of the header, and the line
    that closes them. *)
Definition requestLines (E : Env) (req : http.Request.t) : list string :=
  [ "> " +:+ http.Request.Method req +:+ " " +:+
      URL_RequestURI E (http.Request.URL req) +:+ " " +:+
      http.Request.Proto req +:+ crlf;
    "> Host: " +:+ Host (http.Request.URL req) +:+ crlf ] ++
  map (fun kv => ">" +:+ " " +:+ fst kv +:+ ": " +:+
                 Header_Get E (http.Request.Header req) (fst kv) +:+ crlf)
      (http.Request.Header req) ++
  [ ">" +:+ crlf ].

(** ** A world in which reading a body fails, and passive hooks *)

Module Fault.

(** [E] with [result] as what reading a body to its end gives. *)
Definition reading (result : list Byte.byte * option error) (E : Env) : Env :=
  {| http_Client_Do := http_Client_Do E;
     http_Response_Cookies := http_Response_Cookies E;
     CanonicalHeaderKey := CanonicalHeaderKey E;
     io_ReadAll := fun _ _ => result;
     io_Close := io_Close E;
     io_Copy := io_Copy E;
     gzip_NewReader := gzip_NewReader E;
     os_OpenFile := os_OpenFile E;
     url_Parse := url_Parse E;
     URL_RequestURI := URL_RequestURI E;
     select_both_ready := select_both_ready E;
     ErrUnexpectedTransport := ErrUnexpectedTransport E;
     defaultRetry := defaultRetry E;
     Merge := Merge E;
     Sync := Sync E;
     SetBody := SetBody E;
     NewRequest := NewRequest E |}.

Definition hi : list Byte.byte := [Byte.x68; Byte.x69].

Definition brokenPipe : error := errorString "read: broken pipe".

(** The body reads as the two bytes of hi. *)
Definition readable : Env := reading (hi, None) (Demo.env Demo.server).

(** Reading the body fails. *)
Definition unreadable : Env := reading ([], Some brokenPipe) (Demo.env Demo.server).

(** A POST request with a body, no GetBody and three attempts allowed. *)
Definition upload : Request :=
  Demo.request Demo.post (Some (Demo.policy 3 Demo.on500)) None.

(** Three after-response hooks, each of which returns the Response as it
    found it. *)
Definition passive : Client :=
  OnAfterResponse [Demo.keep; Demo.keep; Demo.keep] Demo.client.

End Fault.

(** * Properties *)

(** ** Steps of the monad *)

Lemma bind_Some {A B} (m : M A) (k : A -> M B) w a w' :
  m w = Some (a, w') -> bind m k w = k a w'.
Proof. intros H. unfold bind. rewrite H. reflexivity. Qed.

Lemma bind_ret {A B} (a : A) (k : A -> M B) w : bind (ret a) k w = k a w.
Proof. reflexivity. Qed.

Lemma bind_emit {B} (e : Event) (k : unit -> M B) w : bind (emit e) k w = k tt (log e w).
Proof. reflexivity. Qed.

Lemma bind_ask {B} (k : World -> M B) w : bind ask k w = k w w.
Proof. reflexivity. Qed.

Lemma load_Some w r v : heap w !! r = Some v -> load r w = Some (v, w).
Proof. intros H. unfold load. rewrite H. reflexivity. Qed.

Lemma store_Some w r v v' :
  heap w !! r = Some v -> store r v' w = Some (tt, set_heap (<[r := v']> (heap w)) w).
Proof. intros H. unfold store. rewrite H. reflexivity. Qed.

Lemma lookup_stored (h : list Response) (r : loc) v v' :
  h !! r = Some v -> <[r := v']> h !! r = Some v'.
Proof. intros H. apply list_lookup_insert_eq. eapply lookup_lt_Some. exact H. Qed.

(** Runs the first step of a computation that starts with a load or a store
    at a location known to be allocated. *)
Ltac step H :=
  match goal with
  | |- context [bind (load ?r) _ ?w0] =>
      rewrite (bind_Some _ _ _ _ _ (load_Some w0 r _ H))
  | |- context [bind (store ?r ?v') _ ?w0] =>
      rewrite (bind_Some _ _ _ _ _ (store_Some w0 r _ v' H))
  end.

(** ** The response wrapper with a stored error *)

Section StoredError.

Variable E : Env.
Variables (w : World) (r : loc) (resp : Response) (e : error).
Hypothesis Hr : heap w !! r = Some resp.
Hypothesis He : Err resp = Some e.

Lemma Raw_stored_error : Raw E r w = Some (([], Some e), w).
Proof. unfold Raw. step Hr. rewrite He. reflexivity. Qed.

Lemma Text_stored_error : Text E r w = Some (("", Some e), w).
Proof. unfold Text. rewrite (bind_Some _ _ _ _ _ Raw_stored_error). reflexivity. Qed.

Lemma JSON_stored_error V dec (v : V) : JSON E dec v r w = Some ((v, Some e), w).
Proof. unfold JSON. step Hr. rewrite He. reflexivity. Qed.

Lemma Cookies_stored_error : Cookies E r w = Some (([], Some e), w).
Proof. unfold Cookies. step Hr. rewrite He. reflexivity. Qed.

Lemma Cookie_stored_error name : Cookie_ E name r w = Some ((None, Some e), w).
Proof. unfold Cookie_. rewrite (bind_Some _ _ _ _ _ Cookies_stored_error). reflexivity. Qed.

Lemma EnsureStatus_stored_error code : EnsureStatus code r w = Some (r, w).
Proof. unfold EnsureStatus. step Hr. rewrite He. reflexivity. Qed.

Lemma EnsureStatus2xx_stored_error : EnsureStatus2xx r w = Some (r, w).
Proof. unfold EnsureStatus2xx. step Hr. rewrite He. reflexivity. Qed.

Lemma Save_stored_error filename perm : Save E filename perm r w = Some (Some e, w).
Proof. unfold Save. step Hr. rewrite He. reflexivity. Qed.

Lemma Verbose_stored_error wr : Verbose E wr r w = Some (Some e, w).
Proof. unfold Verbose. step Hr. rewrite He. reflexivity. Qed.

End StoredError.

(** C5.  On a Response that holds a stored error, each accessor hands that
    error back as it is (the status assertions hand back the wrapper that
    holds it) and returns in the world it was called in: nothing is read from
    or closed on the body, nothing is written or opened, and the store of
    Responses is the same. *)
Theorem accessors_return_stored_error :
  forall (E : Env) (w : World) (r : loc) (resp : Response) (e : error),
    heap w !! r = Some resp ->
    Err resp = Some e ->
    Raw E r w = Some (([], Some e), w) /\
    Text E r w = Some (("", Some e), w) /\
    (forall V dec (v : V), JSON E dec v r w = Some ((v, Some e), w)) /\
    Cookies E r w = Some (([], Some e), w) /\
    (forall name, Cookie_ E name r w = Some ((None, Some e), w)) /\
    (forall code, EnsureStatus code r w = Some (r, w)) /\
    EnsureStatus2xx r w = Some (r, w) /\
    EnsureStatusOk r w = Some (r, w) /\
    (forall filename perm, Save E filename perm r w = Some (Some e, w)) /\
    (forall wr, Verbose E wr r w = Some (Some e, w)).
Proof.
  intros E w r resp e Hr He.
  repeat split; intros;
    eauto using Raw_stored_error, Text_stored_error, JSON_stored_error,
      Cookies_stored_error, Cookie_stored_error, EnsureStatus_stored_error,
      EnsureStatus2xx_stored_error, Save_stored_error, Verbose_stored_error.
Qed.

(** ** The status assertions *)

Lemma quot_100_is_2 (n : Z) : Z.quot n 100 = 2 <-> 200 <= n <= 299.
Proof.
  split.
  - intros H. destruct (Z_lt_le_dec n 0) as [Hn | Hn].
    + pose proof (Z.quot_opp_l (- n) 100 ltac:(lia)) as Ho.
      rewrite Z.opp_involutive in Ho.
      pose proof (Z.quot_pos (- n) 100 ltac:(lia) ltac:(lia)). lia.
    + rewrite Z.quot_div_nonneg in H by lia.
      pose proof (Z.div_mod n 100 ltac:(lia)).
      pose proof (Z.mod_pos_bound n 100 ltac:(lia)). lia.
  - intros H. rewrite Z.quot_div_nonneg by lia.
    symmetry. apply (Z.div_unique n 100 2 (n - 200)); lia.
Qed.

Section ErrorFree.

Variable E : Env.
Variables (w : World) (r : loc) (resp : Response) (raw : http.Response.t).
Hypothesis Hr : heap w !! r = Some resp.
Hypothesis He : Err resp = None.
Hypothesis Hraw : RawResponse resp = Some raw.

Lemma EnsureStatus_mismatch code :
  http.Response.StatusCode raw <> code -> EnsureStatus code r w = Some (r, asserted w r resp raw).
Proof.
  intros Hne. unfold EnsureStatus. step Hr. rewrite He, Hraw. simpl. rewrite bind_ret.
  rewrite (proj2 (Z.eqb_neq _ _) Hne). simpl.
  step Hr. reflexivity.
Qed.

Lemma EnsureStatus_match code :
  http.Response.StatusCode raw = code -> EnsureStatus code r w = Some (r, w).
Proof.
  intros Heq. unfold EnsureStatus. step Hr. rewrite He, Hraw. simpl. rewrite bind_ret.
  rewrite (proj2 (Z.eqb_eq _ _) Heq). reflexivity.
Qed.

Lemma EnsureStatus2xx_outside :
  ~ 200 <= http.Response.StatusCode raw <= 299 -> EnsureStatus2xx r w = Some (r, asserted w r resp raw).
Proof.
  intros Hout. unfold EnsureStatus2xx. step Hr. rewrite He, Hraw. simpl. rewrite bind_ret.
  rewrite (proj2 (Z.eqb_neq _ _)) by (rewrite quot_100_is_2; exact Hout). simpl.
  step Hr. reflexivity.
Qed.

Lemma EnsureStatus2xx_inside :
  200 <= http.Response.StatusCode raw <= 299 -> EnsureStatus2xx r w = Some (r, w).
Proof.
  intros Hin. unfold EnsureStatus2xx. step Hr. rewrite He, Hraw. simpl. rewrite bind_ret.
  rewrite (proj2 (Z.eqb_eq _ _)) by (rewrite quot_100_is_2; exact Hin). reflexivity.
Qed.

Lemma asserted_lookup :
  heap (asserted w r resp raw) !! r =
    Some (set_Err (Some (badStatus (http.Response.StatusCode raw))) resp).
Proof. unfold asserted. simpl. eapply lookup_stored. exact Hr. Qed.

End ErrorFree.

(** C6.  On an error-free Response whose status code is not [code],
    [EnsureStatus code] returns the wrapper it was called on, stores in it
    the error whose text is "sreq: bad status: " followed by the status code
    in decimal, and leaves the trace as it was (no read, no close); [Raw]
    called afterwards returns that error and no bytes, again without touching
    the body.  [EnsureStatusOk] is [EnsureStatus 200].  [EnsureStatus2xx]
    leaves an error in the wrapper exactly when the status code is outside
    200..299, and does not touch the body either. *)
Theorem EnsureStatus_stores_assertion_error :
  forall (E : Env) (w : World) (r : loc) (resp : Response) (raw : http.Response.t),
    heap w !! r = Some resp ->
    Err resp = None ->
    RawResponse resp = Some raw ->
    (forall code, http.Response.StatusCode raw <> code ->
       exists w',
         EnsureStatus code r w = Some (r, w') /\
         heap w' !! r =
           Some {| RawResponse := Some raw;
                   Err := Some (errorString
                            ("sreq: bad status: " +:+ itoa (http.Response.StatusCode raw))) |} /\
         trace w' = trace w /\
         Raw E r w' =
           Some (([], Some (errorString
                        ("sreq: bad status: " +:+ itoa (http.Response.StatusCode raw)))), w')) /\
    EnsureStatusOk r w = EnsureStatus 200 r w /\
    (exists w' resp',
       EnsureStatus2xx r w = Some (r, w') /\
       heap w' !! r = Some resp' /\
       trace w' = trace w /\
       (Err resp' <> None <-> ~ 200 <= http.Response.StatusCode raw <= 299)).
Proof.
  intros E w r resp raw Hr He Hraw. split; [| split].
  - intros code Hne. eexists. split; [eapply EnsureStatus_mismatch; eauto |].
    pose proof (asserted_lookup w r resp raw Hr) as Hl.
    split; [| split].
    + rewrite Hl. unfold set_Err. rewrite Hraw. reflexivity.
    + reflexivity.
    + eapply Raw_stored_error; [exact Hl | reflexivity].
  - reflexivity.
  - destruct (decide (200 <= http.Response.StatusCode raw <= 299)) as [Hin | Hout].
    + exists w, resp. split; [eapply EnsureStatus2xx_inside; eauto |].
      split; [exact Hr |]. split; [reflexivity |].
      rewrite He. split; [congruence | intros Hc; contradiction].
    + eexists _, _. split; [eapply EnsureStatus2xx_outside; eauto |].
      split; [eapply asserted_lookup; exact Hr |]. split; [reflexivity |].
      simpl. split; [intros _; exact Hout | congruence].
Qed.

(** ** Configuration *)

(** C9.  When the string does not parse as a URL, [SetProxyFromURL] returns
    the error of type Error whose Op is "Client.SetProxyFromURL" and whose
    Err is the error of the parser, together with the client it was called
    on, in the state it was in: its raw client, hence its transport and the
    proxy function configured before, are the same. *)
Theorem SetProxyFromURL_malformed :
  forall (E : Env) (c : Client) (url : string) (e : error),
    url_Parse E url = inr e ->
    SetProxyFromURL E url c = (c, Some (Error "Client.SetProxyFromURL" e)) /\
    RawClient (fst (SetProxyFromURL E url c)) = RawClient c /\
    httpTransport E (fst (SetProxyFromURL E url c)) = httpTransport E c.
Proof.
  intros E c url e Hparse. unfold SetProxyFromURL. rewrite Hparse. simpl. auto.
Qed.

Lemma SetProxyFromURL_malformed_witness :
  SetProxyFromURL (Demo.env Demo.server) "::" Demo.client =
    (Demo.client,
     Some (Error "Client.SetProxyFromURL" (errorString "parse: missing protocol scheme"))) /\
  RawClient (fst (SetProxyFromURL (Demo.env Demo.server) "::" Demo.client)) =
    RawClient Demo.client /\
  httpTransport (Demo.env Demo.server)
    (fst (SetProxyFromURL (Demo.env Demo.server) "::" Demo.client)) =
    httpTransport (Demo.env Demo.server) Demo.client.
Proof.
  apply (SetProxyFromURL_malformed (Demo.env Demo.server) Demo.client "::"
           (errorString "parse: missing protocol scheme")).
  reflexivity.
Defined.

(** A well-formed URL does change the proxy: the guard is the only path that
    leaves the client alone. *)
Example SetProxyFromURL_wellformed :
  snd (SetProxyFromURL (Demo.env Demo.server) "proxy.local" Demo.client) = None /\
  RawClient (fst (SetProxyFromURL (Demo.env Demo.server) "proxy.local" Demo.client)) <>
    RawClient Demo.client.
Proof.
  split; [reflexivity |]. intros H.
  apply (f_equal http.Client.Transport) in H. simpl in H.
  injection H as H.
  apply (f_equal (fun g => fst (g Demo.get))) in H. simpl in H. discriminate.
Qed.

(** ** The before-request chain *)

Lemma sent_app (tr1 tr2 : list Event) : sent (tr1 ++ tr2) = sent tr1 ++ sent tr2.
Proof.
  induction tr1 as [| ev tr1 IH]; [reflexivity |].
  destruct ev; simpl; rewrite ?IH; reflexivity.
Qed.

Lemma reads_app (tr1 tr2 : list Event) : reads (tr1 ++ tr2) = reads tr1 ++ reads tr2.
Proof.
  induction tr1 as [| ev tr1 IH]; [reflexivity |].
  destruct ev; simpl; rewrite ?IH; reflexivity.
Qed.

Lemma decoded_app (tr1 tr2 : list Event) : decoded (tr1 ++ tr2) = decoded tr1 ++ decoded tr2.
Proof.
  induction tr1 as [| ev tr1 IH]; [reflexivity |].
  destruct ev; simpl; rewrite ?IH; reflexivity.
Qed.

Lemma beforeCalls_app (tr1 tr2 : list Event) :
  beforeCalls (tr1 ++ tr2) = beforeCalls tr1 ++ beforeCalls tr2.
Proof.
  induction tr1 as [| ev tr1 IH]; [reflexivity |].
  destruct ev; simpl; rewrite ?IH; reflexivity.
Qed.

Lemma afterCalls_app (tr1 tr2 : list Event) :
  afterCalls (tr1 ++ tr2) = afterCalls tr1 ++ afterCalls tr2.
Proof.
  induction tr1 as [| ev tr1 IH]; [reflexivity |].
  destruct ev; simpl; rewrite ?IH; reflexivity.
Qed.

Lemma beforeCalls_hooks (ks : list nat) : beforeCalls (map EvBeforeHook ks) = ks.
Proof. induction ks as [| k ks IH]; simpl; [| rewrite IH]; reflexivity. Qed.

Lemma afterCalls_hooks (ks : list nat) : afterCalls (map EvAfterHook ks) = ks.
Proof. induction ks as [| k ks IH]; simpl; [| rewrite IH]; reflexivity. Qed.

Lemma sent_before_hooks (ks : list nat) : sent (map EvBeforeHook ks) = [].
Proof. induction ks; simpl; auto. Qed.

Lemma sent_after_hooks (ks : list nat) : sent (map EvAfterHook ks) = [].
Proof. induction ks; simpl; auto. Qed.

Section BeforeChain.

Variable E : Env.

(** The hooks that pass are called in order, then the one that fails, and
    the loop is left there. *)
Lemma beforeRequestFrom_fails pre :
  forall k hook post req reqk reqk' e w,
    passAll pre req = Some reqk ->
    hook reqk = (reqk', Some e) ->
    beforeRequestFrom k (pre ++ hook :: post) req w =
      Some ((reqk', Some e),
            {| heap := heap w;
               trace := trace w ++ map EvBeforeHook (seq k (S (length pre)));
               now := now w |}).
Proof.
  induction pre as [| h pre IH]; intros k hook post req reqk reqk' e w Hpass Hfail.
  - simpl in Hpass. injection Hpass as <-. simpl.
    rewrite bind_emit, Hfail. reflexivity.
  - simpl in Hpass. simpl. rewrite bind_emit.
    destruct (h req) as [req1 [e1 |]]; [discriminate |].
    rewrite (IH (S k) hook post req1 reqk reqk' e _ Hpass Hfail).
    unfold log. simpl. rewrite <- app_assoc. reflexivity.
Qed.

Lemma beforeRequestFrom_passes hooks :
  forall k req req' w,
    passAll hooks req = Some req' ->
    beforeRequestFrom k hooks req w =
      Some ((req', None),
            {| heap := heap w;
               trace := trace w ++ map EvBeforeHook (seq k (length hooks));
               now := now w |}).
Proof.
  induction hooks as [| h hooks IH]; intros k req req' w Hpass.
  - simpl in Hpass. injection Hpass as <-. simpl. rewrite app_nil_r.
    destruct w; reflexivity.
  - simpl in Hpass. simpl. rewrite bind_emit.
    destruct (h req) as [req1 [e1 |]]; [discriminate |].
    rewrite (IH (S k) req1 req' _ Hpass).
    unfold log. simpl. rewrite <- app_assoc. reflexivity.
Qed.

End BeforeChain.

(** C3.  When the hooks registered before hook number k pass and hook
    number k fails with [e], [Do] calls the hooks 0..k in order and nothing
    else: its trace grows by these calls alone, so no later hook runs, no
    exchange takes place and no after-response hook runs.  The Response it
    returns is a new one that holds [e] and no raw response. *)
Theorem Do_stops_at_failing_before_hook :
  forall (E : Env) (c : Client) (req : Request) (w : World)
         (pre post : list BeforeRequestHook) (hook : BeforeRequestHook)
         (reqk reqk' : Request) (e : error),
    beforeRequestHooks c = pre ++ hook :: post ->
    passAll pre req = Some reqk ->
    hook reqk = (reqk', Some e) ->
    exists resp w',
      Do E c req w = Some ((resp, reqk'), w') /\
      heap w !! resp = None /\
      heap w' !! resp = Some {| RawResponse := None; Err := Some e |} /\
      trace w' = trace w ++ map EvBeforeHook (seq 0 (S (length pre))) /\
      beforeCalls (trace w') = beforeCalls (trace w) ++ seq 0 (S (length pre)) /\
      exchanges (trace w') = exchanges (trace w).
Proof.
  intros E c req w pre post hook reqk reqk' e Hhooks Hpass Hfail.
  exists (length (heap w)).
  eexists. split.
  - unfold Do, alloc, onBeforeRequest.
    unfold bind at 1. rewrite Hhooks.
    rewrite (bind_Some _ _ _ _ _ (beforeRequestFrom_fails pre 0 hook post req reqk reqk' e _ Hpass Hfail)).
    assert (Hl : forall (h : list Response) v, (h ++ [v]) !! length h = Some v).
    { intros h v. rewrite lookup_app_r by lia. rewrite Nat.sub_diag. reflexivity. }
    match goal with
    | |- bind (load ?r) _ ?w1 = _ =>
        assert (Hw1 : heap w1 !! r = Some {| RawResponse := None; Err := None |})
          by apply Hl;
        rewrite (bind_Some _ _ _ _ _ (load_Some _ _ _ Hw1));
        rewrite (bind_Some _ _ _ _ _ (store_Some _ _ _ _ Hw1))
    end.
    reflexivity.
  - unfold set_heap. cbn [heap trace now].
    split; [apply lookup_ge_None_2; lia |].
    split.
    + rewrite list_lookup_insert_eq by (rewrite length_app; simpl; lia). reflexivity.
    + split; [reflexivity |]. split.
      * rewrite beforeCalls_app, beforeCalls_hooks. reflexivity.
      * unfold exchanges. rewrite sent_app, sent_before_hooks, app_nil_r. reflexivity.
Qed.

Lemma Do_stops_at_failing_before_hook_witness :
  exists resp w',
    Do (Demo.env Demo.server) Demo.hooked (Demo.request Demo.get None None) Demo.start =
      Some ((resp, Demo.request Demo.get None None), w') /\
    heap Demo.start !! resp = None /\
    heap w' !! resp = Some {| RawResponse := None; Err := Some (errorString "refused") |} /\
    trace w' = trace Demo.start ++ map EvBeforeHook (seq 0 2) /\
    beforeCalls (trace w') = beforeCalls (trace Demo.start) ++ seq 0 2 /\
    exchanges (trace w') = exchanges (trace Demo.start).
Proof.
  apply (Do_stops_at_failing_before_hook (Demo.env Demo.server) Demo.hooked
           (Demo.request Demo.get None None) Demo.start
           [Demo.pass] [Demo.pass] (Demo.refuse "refused")
           (Demo.request Demo.get None None) (Demo.request Demo.get None None)
           (errorString "refused")); reflexivity.
Defined.

(** ** The after-response chain *)

Section AfterChain.

Variable resp : loc.

(** The hooks that leave the Response clean are called in order, then the
    one after which it holds an error, and the loop is left there. *)
Lemma afterResponseFrom_fails pre :
  forall k hook post r0 rk e w,
    heap w !! resp = Some r0 ->
    leaveClean pre r0 = Some rk ->
    Err (hook rk) = Some e ->
    exists w',
      afterResponseFrom k (pre ++ hook :: post) resp w = Some (tt, w') /\
      heap w' !! resp = Some (hook rk) /\
      trace w' = trace w ++ map EvAfterHook (seq k (S (length pre))).
Proof.
  induction pre as [| h pre IH]; intros k hook post r0 rk e w Hr Hclean Hfail.
  - simpl in Hclean. injection Hclean as <-. simpl. rewrite bind_emit.
    assert (Hr' : heap (log (EvAfterHook k) w) !! resp = Some r0) by exact Hr.
    step Hr'. step Hr'.
    pose proof (lookup_stored _ _ _ (hook r0) Hr') as Hs.
    match goal with
    | |- context [bind (load resp) _ ?w0] =>
        rewrite (bind_Some _ _ _ _ _ (load_Some w0 resp _ Hs))
    end.
    rewrite Hfail. eexists. split; [reflexivity |]. split; [exact Hs | reflexivity].
  - simpl in Hclean. simpl. rewrite bind_emit.
    assert (Hr' : heap (log (EvAfterHook k) w) !! resp = Some r0) by exact Hr.
    step Hr'. step Hr'.
    pose proof (lookup_stored _ _ _ (h r0) Hr') as Hs.
    match goal with
    | |- context [bind (load resp) _ ?w0] =>
        rewrite (bind_Some _ _ _ _ _ (load_Some w0 resp _ Hs))
    end.
    destruct (Err (h r0)) as [e1 |] eqn:Hh; [discriminate |].
    match goal with
    | |- context [afterResponseFrom _ _ _ ?w0] =>
        destruct (IH (S k) hook post (h r0) rk e w0 Hs Hclean Hfail) as (w' & Hrun & Hheap & Htr)
    end.
    exists w'. split; [exact Hrun |]. split; [exact Hheap |].
    rewrite Htr. unfold set_heap, log. cbn [trace]. rewrite <- app_assoc. reflexivity.
Qed.

Lemma afterResponseFrom_clean hooks :
  forall k r0 r' w,
    heap w !! resp = Some r0 ->
    leaveClean hooks r0 = Some r' ->
    exists w',
      afterResponseFrom k hooks resp w = Some (tt, w') /\
      heap w' !! resp = Some r' /\
      trace w' = trace w ++ map EvAfterHook (seq k (length hooks)).
Proof.
  induction hooks as [| h hooks IH]; intros k r0 r' w Hr Hclean.
  - simpl in Hclean. injection Hclean as <-. exists w. simpl.
    rewrite app_nil_r. auto.
  - simpl in Hclean. simpl. rewrite bind_emit.
    assert (Hr' : heap (log (EvAfterHook k) w) !! resp = Some r0) by exact Hr.
    step Hr'. step Hr'.
    pose proof (lookup_stored _ _ _ (h r0) Hr') as Hs.
    match goal with
    | |- context [bind (load resp) _ ?w0] =>
        rewrite (bind_Some _ _ _ _ _ (load_Some w0 resp _ Hs))
    end.
    destruct (Err (h r0)) as [e1 |] eqn:Hh; [discriminate |].
    match goal with
    | |- context [afterResponseFrom _ _ _ ?w0] =>
        destruct (IH (S k) (h r0) r' w0 Hs Hclean) as (w' & Hrun & Hheap & Htr)
    end.
    exists w'. split; [exact Hrun |]. split; [exact Hheap |].
    rewrite Htr. unfold set_heap, log. cbn [trace]. rewrite <- app_assoc. reflexivity.
Qed.

End AfterChain.

(** C4, amended.  The test the chain makes after a hook has returned is on
    the Response, not on the hook: the chain stops after the first hook upon
    whose return the Response holds an error, whether that hook has put it
    there or the attempt loop had and the hook has left it.  On the Response
    [r0] left by the attempt loop, when the hooks registered before hook
    number k leave the Response without an error and upon the return of hook
    number k it holds one, [onAfterResponse] calls the hooks 0..k, in the
    order of registration, and no hook after k; when every hook leaves the
    Response without an error, all of them are called, in that order.  So on
    a Response that comes out of the loop with an error the first hook is
    called, and no other unless the first one clears the error: a hook that
    returns the Response as it found it ends the chain there. *)
Theorem onAfterResponse_stops_at_first_failure :
  forall (c : Client) (resp : loc) (w : World) (r0 : Response),
    heap w !! resp = Some r0 ->
    (forall pre hook post rk e,
       afterResponseHooks c = pre ++ hook :: post ->
       leaveClean pre r0 = Some rk ->
       Err (hook rk) = Some e ->
       exists w',
         onAfterResponse c resp w = Some (tt, w') /\
         heap w' !! resp = Some (hook rk) /\
         trace w' = trace w ++ map EvAfterHook (seq 0 (S (length pre))) /\
         afterCalls (trace w') = afterCalls (trace w) ++ seq 0 (S (length pre))) /\
    (forall r',
       leaveClean (afterResponseHooks c) r0 = Some r' ->
       exists w',
         onAfterResponse c resp w = Some (tt, w') /\
         heap w' !! resp = Some r' /\
         trace w' = trace w ++ map EvAfterHook (seq 0 (length (afterResponseHooks c))) /\
         afterCalls (trace w') =
           afterCalls (trace w) ++ seq 0 (length (afterResponseHooks c))) /\
    (forall hook post e0,
       afterResponseHooks c = hook :: post ->
       Err r0 = Some e0 ->
       hook r0 = r0 ->
       exists w',
         onAfterResponse c resp w = Some (tt, w') /\
         heap w' !! resp = Some r0 /\
         trace w' = trace w ++ [EvAfterHook 0] /\
         afterCalls (trace w') = afterCalls (trace w) ++ [0%nat]).
Proof.
  intros c resp w r0 Hr. split; [| split].
  - intros pre hook post rk e Hhooks Hclean Hfail.
    unfold onAfterResponse. rewrite Hhooks.
    destruct (afterResponseFrom_fails resp pre 0 hook post r0 rk e w Hr Hclean Hfail)
      as (w' & Hrun & Hheap & Htr).
    exists w'. repeat split; try assumption.
    rewrite Htr, afterCalls_app, afterCalls_hooks. reflexivity.
  - intros r' Hclean. unfold onAfterResponse.
    destruct (afterResponseFrom_clean resp (afterResponseHooks c) 0 r0 r' w Hr Hclean)
      as (w' & Hrun & Hheap & Htr).
    exists w'. repeat split; try assumption.
    rewrite Htr, afterCalls_app, afterCalls_hooks. reflexivity.
  - intros hook post e0 Hhooks He0 Hsame.
    unfold onAfterResponse. rewrite Hhooks.
    assert (Hfail : Err (hook r0) = Some e0) by (rewrite Hsame; exact He0).
    destruct (afterResponseFrom_fails resp [] 0 hook post r0 r0 e0 w Hr eq_refl Hfail)
      as (w' & Hrun & Hheap & Htr).
    exists w'. split; [exact Hrun |]. split; [rewrite Hheap, Hsame; reflexivity |].
    split; [exact Htr |].
    rewrite Htr, afterCalls_app. reflexivity.
Qed.

Lemma onAfterResponse_stops_at_first_failure_witness :
  (exists w',
     onAfterResponse Demo.hooked 0%nat (Demo.world Demo.notFound) = Some (tt, w') /\
     heap w' !! 0%nat = Some (Demo.reject "rejected" Demo.notFound) /\
     trace w' = trace (Demo.world Demo.notFound) ++ map EvAfterHook (seq 0 2) /\
     afterCalls (trace w') = afterCalls (trace (Demo.world Demo.notFound)) ++ seq 0 2) /\
  (exists w',
     onAfterResponse Fault.passive 0%nat (Demo.world Demo.failed) = Some (tt, w') /\
     heap w' !! 0%nat = Some Demo.failed /\
     trace w' = trace (Demo.world Demo.failed) ++ [EvAfterHook 0] /\
     afterCalls (trace w') = afterCalls (trace (Demo.world Demo.failed)) ++ [0%nat]).
Proof.
  split.
  - apply (proj1 (onAfterResponse_stops_at_first_failure Demo.hooked 0%nat
                    (Demo.world Demo.notFound) Demo.notFound eq_refl)
             [Demo.keep] (Demo.reject "rejected") [Demo.keep] Demo.notFound
             (errorString "rejected")); reflexivity.
  - apply (proj2 (proj2 (onAfterResponse_stops_at_first_failure Fault.passive 0%nat
                           (Demo.world Demo.failed) Demo.failed eq_refl))
             Demo.keep [Demo.keep; Demo.keep]
             (errorString "dial tcp: connection refused")); reflexivity.
Defined.

(** Three hooks that each return the Response as they found it, and a
    transport that fails: [Do] makes its one exchange, the Response comes out
    of the attempt loop with the error of the transport, and of the three
    hooks only the first is called, though none of them has failed. *)
Lemma after_hooks_skipped_though_none_fails :
  afterResponseHooks Fault.passive = [Demo.keep; Demo.keep; Demo.keep] /\
  (forall r : Response, Demo.keep r = r) /\
  exists resp req' w',
    Do (Demo.env Demo.deadServer) Fault.passive (Demo.request Demo.get None None)
      Demo.start = Some ((resp, req'), w') /\
    exchanges (trace w') = 1%nat /\
    heap w' !! resp = Some Demo.failed /\
    afterCalls (trace w') = [0%nat] /\
    ~ (forall k, (k < length (afterResponseHooks Fault.passive))%nat ->
                 In k (afterCalls (trace w'))).
Proof.
  split; [reflexivity |]. split; [reflexivity |].
  eexists _, _, _. split; [reflexivity |].
  split; [reflexivity |]. split; [reflexivity |]. split; [reflexivity |].
  intros H. specialize (H 1%nat ltac:(simpl; lia)).
  simpl in H. destruct H as [H | []]. discriminate.
Qed.

(** A Response that comes out of the attempt loop with an error ends the
    chain after its first hook, whatever the later hooks are. *)
Example onAfterResponse_on_failed_response :
  option_map (fun p => afterCalls (trace (snd p)))
    (onAfterResponse Demo.hooked 0%nat (Demo.world Demo.failed)) = Some [0%nat].
Proof. reflexivity. Qed.

(** ** Send *)

(** C10.  When the construction of the request fails with [e], [Send]
    returns a new Response that holds [e] and no raw response, and the trace
    is the one it started with: no hook of either chain is called and no
    exchange takes place.  The Responses allocated before are untouched. *)
Theorem Send_construction_error :
  forall (E : Env) (c : Client) (method url : string) (opts : list RequestOption)
         (req : Request) (e : error) (w : World),
    NewRequest E method url opts = (req, Some e) ->
    exists resp w',
      Send E c method url opts w = Some (resp, w') /\
      heap w !! resp = None /\
      heap w' = heap w ++ [{| RawResponse := None; Err := Some e |}] /\
      heap w' !! resp = Some {| RawResponse := None; Err := Some e |} /\
      trace w' = trace w /\
      beforeCalls (trace w') = beforeCalls (trace w) /\
      afterCalls (trace w') = afterCalls (trace w) /\
      exchanges (trace w') = exchanges (trace w).
Proof.
  intros E c method url opts req e w Hnew.
  exists (length (heap w)). eexists. split.
  - unfold Send. rewrite Hnew. unfold alloc. reflexivity.
  - unfold set_heap. cbn [heap trace]. split; [apply lookup_ge_None_2; lia |].
    split; [reflexivity |]. split; [| auto].
    rewrite lookup_app_r by lia. rewrite Nat.sub_diag. reflexivity.
Qed.

Lemma Send_construction_error_witness :
  exists resp w',
    Send (Demo.env Demo.server) Demo.hooked "GET" "::" [] Demo.start = Some (resp, w') /\
    heap Demo.start !! resp = None /\
    heap w' = heap Demo.start ++
                [{| RawResponse := None;
                    Err := Some (errorString "parse: missing protocol scheme") |}] /\
    heap w' !! resp =
      Some {| RawResponse := None;
              Err := Some (errorString "parse: missing protocol scheme") |} /\
    trace w' = trace Demo.start /\
    beforeCalls (trace w') = beforeCalls (trace Demo.start) /\
    afterCalls (trace w') = afterCalls (trace Demo.start) /\
    exchanges (trace w') = exchanges (trace Demo.start).
Proof.
  apply (Send_construction_error (Demo.env Demo.server) Demo.hooked "GET" "::" []
           (Demo.request Demo.get None None) (errorString "parse: missing protocol scheme") Demo.start).
  reflexivity.
Defined.

(** ** One exchange *)

Section Exchange.

Variable E : Env.

Lemma do_transport_error (c : Client) (req : Request) (w : World) resp e dt :
  http_Client_Do E (RawClient c) w (RawRequest req) = ((resp, Some e), dt) ->
  do E c req w = Some ((req, (resp, Some e)), answered w (RawRequest req) dt).
Proof.
  intros Hdo. unfold do, RawClient_Do. unfold bind at 1. rewrite Hdo. reflexivity.
Qed.

Lemma do_deferred_error (c : Client) (req : Request) (w : World) resp v pending dt :
  http_Client_Do E (RawClient c) w (RawRequest req) = ((resp, None), dt) ->
  err req = v :: pending ->
  do E c req w =
    Some ((set_err pending req, (resp, v)), answered w (RawRequest req) dt).
Proof.
  intros Hdo Hq. unfold do, RawClient_Do. unfold bind at 1. rewrite Hdo, Hq. reflexivity.
Qed.

(** The exchange succeeded and no deferred error is waiting. *)
Lemma do_success (c : Client) (req : Request) (w : World) rr dt :
  http_Client_Do E (RawClient c) w (RawRequest req) = ((Some rr, None), dt) ->
  err req = [] ->
  do E c req w =
    if wantsGzip E rr then
      match gzip_NewReader E (answered w (RawRequest req) dt) (http.Response.Body rr) with
      | None =>
          Some ((req, (Some (http.Response.set_Body
                               (gzipReader (http.Response.Body rr)) rr), None)),
                log (EvClose (http.Response.Body rr))
                  (log (EvGzipNew (http.Response.Body rr))
                     (answered w (RawRequest req) dt)))
      | Some ge =>
          Some ((req, (Some (http.Response.set_Body nilGzipReader rr), Some ge)),
                log (EvClose (http.Response.Body rr))
                  (log (EvGzipNew (http.Response.Body rr))
                     (answered w (RawRequest req) dt)))
      end
    else Some ((req, (Some rr, None)), answered w (RawRequest req) dt).
Proof.
  intros Hdo Hq. unfold do, RawClient_Do. unfold bind at 1. rewrite Hdo, Hq.
  unfold deref. rewrite bind_ret. unfold wantsGzip.
  destruct (EqualFold _ _ && negb _); [| reflexivity].
  rewrite andb_true_l.
  destruct (http.Response.Body rr) as [id | under |]; cbn [isGzipReader negb];
    try reflexivity.
  unfold NewReader, Close. unfold bind, ask, emit, ret.
  fold (answered w (RawRequest req) dt).
  destruct (gzip_NewReader E _ _); reflexivity.
Qed.

Hypothesis Hok : transportOk E.

Lemma do_runs (c : Client) (req : Request) (w : World) :
  exists req1 raw e w1 dec,
    do E c req w = Some ((req1, (raw, e)), w1) /\
    RawRequest req1 = RawRequest req /\
    heap w1 = heap w /\
    trace w1 = trace w ++ EvRoundTrip (RawRequest req) :: dec /\
    (dec = [] \/ exists b, dec = [EvGzipNew b; EvClose b]).
Proof.
  destruct (http_Client_Do E (RawClient c) w (RawRequest req)) as [[resp e] dt] eqn:Hdo.
  destruct e as [e |].
  { rewrite (do_transport_error _ _ _ _ _ _ Hdo).
    eexists _, _, _, _, []. repeat split; auto. }
  destruct (err req) as [| v pending] eqn:Hq.
  2: { rewrite (do_deferred_error _ _ _ _ _ _ _ Hdo Hq).
       eexists _, _, _, _, []. repeat split; auto. }
  destruct resp as [rr |]; [| exfalso; eapply Hok; eauto].
  rewrite (do_success _ _ _ _ _ Hdo Hq).
  destruct (wantsGzip E rr).
  - destruct (gzip_NewReader E _ _);
      eexists _, _, _, _,
        [EvGzipNew (http.Response.Body rr); EvClose (http.Response.Body rr)];
      (split; [reflexivity |]); (split; [reflexivity |]); (split; [reflexivity |]);
      (split; [unfold answered, log, set_now; cbn [trace];
               rewrite <- !app_assoc; reflexivity | eauto]).
  - eexists _, _, _, _, []. repeat split; auto.
Qed.

(** *** The select *)

Lemma wait_runs (ctx : Context) (d : Z) (w : World) :
  exists sel w',
    wait E ctx d w = Some (sel, w') /\
    heap w' = heap w /\
    trace w' = trace w ++ [EvWait d sel] /\
    (sel = ctxDone ->
     exists tc ce, cancelAt ctx = Some (tc, ce) /\ ctx_Err ctx (now w') = Some ce).
Proof.
  unfold wait, ctx_Err. destruct (cancelAt ctx) as [[tc ce] |].
  - destruct (Z.ltb_spec (Z.max (now w) tc) (now w + Z.max 0 d)) as [Hlt | Hge].
    + eexists _, _. split; [reflexivity |]. repeat split.
      intros _. exists tc, ce. split; [reflexivity |]. cbn [now set_now].
      rewrite (proj2 (Z.leb_le _ _)) by lia. reflexivity.
    + destruct (Z.ltb_spec (now w + Z.max 0 d) (Z.max (now w) tc)) as [Hlt' | Hge'].
      * eexists _, _. split; [reflexivity |]. repeat split. discriminate.
      * destruct (select_both_ready E w).
        -- eexists _, _. split; [reflexivity |]. repeat split.
           intros _. exists tc, ce. split; [reflexivity |]. cbn [now set_now].
           rewrite (proj2 (Z.leb_le _ _)) by lia. reflexivity.
        -- eexists _, _. split; [reflexivity |]. repeat split. discriminate.
  - eexists _, _. split; [reflexivity |]. repeat split. discriminate.
Qed.


(** A context that is never canceled lets the timer fire. *)
Lemma wait_never_canceled (ctx : Context) (d : Z) (w : World) :
  cancelAt ctx = None ->
  wait E ctx d w =
    Some (timerFired, set_now (now w + Z.max 0 d) (log (EvWait d timerFired) w)).
Proof. intros Hc. unfold wait. rewrite Hc. reflexivity. Qed.

Lemma resetBody_runs (req : Request) (w : World) :
  exists req2 w' gb,
    resetBody req w = Some (req2, w') /\
    RawRequest req2 = resetRaw (RawRequest req) /\
    heap w' = heap w /\
    trace w' = trace w ++ gb /\
    (gb = [] \/ gb = [EvGetBody]).
Proof.
  unfold resetBody, resetRaw.
  destruct (http.Request.GetBody (RawRequest req)) as [getBody |].
  - eexists _, _, [EvGetBody]. rewrite bind_emit.
    split; [reflexivity |]. repeat split. auto.
  - exists req, w, []. rewrite app_nil_r. repeat split. auto.
Qed.

(** *** The body of the loop *)

Lemma attempt_after_do (c : Client) (retry : Retry) (ctx : Context) (resp : loc)
    (i : Z) (req : Request) (w : World) (r0 : Response) req1 raw e w1 :
  heap w !! resp = Some r0 ->
  do E c req w = Some ((req1, (raw, e)), w1) ->
  heap w1 = heap w ->
  exists fl req' w' tr efinal,
    attempt E c retry ctx resp i req w = Some ((fl, req'), w') /\
    trace w' = trace w1 ++ tr /\
    heap w' !! resp = Some {| RawResponse := raw; Err := efinal |} /\
    attemptCase retry ctx i req1 raw e (now w1) fl req' tr efinal.
Proof.
  intros Hr Hdo Hheap.
  unfold attempt. rewrite (bind_Some _ _ _ _ _ Hdo).
  assert (Hr1 : heap w1 !! resp = Some r0) by (rewrite Hheap; exact Hr).
  step Hr1. rewrite bind_ask, bind_emit. cbn [now set_heap log].
  set (stored := {| RawResponse := raw; Err := e |}).
  pose proof (lookup_stored _ _ _ stored Hr1) as Hs.
  destruct (ctx_Err ctx (now w1)) as [ce |] eqn:Hctx.
  { (* canceled after the exchange *)
    match goal with
    | |- context [bind (load resp) _ ?w0] =>
        rewrite (bind_Some _ _ _ _ _ (load_Some w0 resp _ Hs));
        rewrite (bind_Some _ _ _ _ _ (store_Some w0 resp _ _ Hs))
    end.
    eexists _, _, _, _, _. split; [reflexivity |].
    split; [reflexivity |]. split.
    - cbn [heap set_heap]. eapply lookup_stored. exact Hs.
    - apply canceledAfterExchange. exact Hctx. }
  destruct (Z.eqb_spec i (MaxAttempts retry - 1)) as [Hlast | Hnot].
  { eexists _, _, _, _, _. split; [reflexivity |].
    split; [reflexivity |]. split; [exact Hs |].
    apply lastAttempt; assumption. }
  match goal with
  | |- context [bind (load resp) _ ?w0] =>
      rewrite (bind_Some _ _ _ _ _ (load_Some w0 resp _ Hs))
  end.
  rewrite bind_emit.
  destruct (Trigger retry stored) eqn:Htrig; cbn [negb].
  2: { eexists _, _, _, _, _. split; [reflexivity |].
       split; [unfold log; cbn [trace]; rewrite <- app_assoc; reflexivity |].
       split; [exact Hs |].
       apply notTriggered; assumption. }
  match goal with
  | |- context [bind (resetBody req1) _ ?w0] =>
      destruct (resetBody_runs req1 w0) as (req2 & w3 & gb & Hreset & Hraw2 & Hheap3 & Htr3 & Hgb);
      rewrite (bind_Some _ _ _ _ _ Hreset)
  end.
  match goal with
  | |- context [bind (wait E ctx ?d) _ w3] =>
      destruct (wait_runs ctx d w3) as (sel & w4 & Hwait & Hheap4 & Htr4 & Hdone);
      rewrite (bind_Some _ _ _ _ _ Hwait)
  end.
  assert (Hs4 : heap w4 !! resp = Some stored).
  { rewrite Hheap4, Hheap3. exact Hs. }
  assert (Htrace : trace w4 =
            trace w1 ++ [EvCtxErr None; EvTrigger i] ++ gb ++
              [EvWait (Backoff retry (WaitTime retry) (MaxWaitTime retry) i stored) sel]).
  { rewrite Htr4, Htr3. unfold log. cbn [trace]. rewrite <- !app_assoc. reflexivity. }
  destruct sel.
  - eexists _, _, _, _, _. split; [reflexivity |].
    split; [exact Htrace |]. split; [exact Hs4 |].
    apply retried; assumption.
  - destruct (Hdone eq_refl) as (tc & ce & Hcancel & Herr).
    rewrite bind_ask. step Hs4. step Hs4. rewrite Herr.
    eexists _, _, _, _, _. split; [reflexivity |].
    split; [exact Htrace |]. split.
    + cbn [heap set_heap]. eapply lookup_stored. exact Hs4.
    + eapply canceledInWait; eassumption.
Qed.

Lemma attempt_runs (c : Client) (retry : Retry) (ctx : Context) (resp : loc)
    (i : Z) (req : Request) (w : World) (r0 : Response) :
  heap w !! resp = Some r0 ->
  exists req1 raw e w1 fl req' w' tr efinal,
    do E c req w = Some ((req1, (raw, e)), w1) /\
    attempt E c retry ctx resp i req w = Some ((fl, req'), w') /\
    trace w' = trace w1 ++ tr /\
    heap w' !! resp = Some {| RawResponse := raw; Err := efinal |} /\
    attemptCase retry ctx i req1 raw e (now w1) fl req' tr efinal.
Proof.
  intros Hr.
  destruct (do_runs c req w) as (req1 & raw & e & w1 & dec & Hdo & _ & Hheap & _).
  destruct (attempt_after_do c retry ctx resp i req w r0 req1 raw e w1 Hr Hdo Hheap)
    as (fl & req' & w' & tr & ef & H).
  exists req1, raw, e, w1, fl, req', w', tr, ef. split; [exact Hdo | exact H].
Qed.

Lemma attemptCase_quiet retry ctx i req1 raw e t fl req' tr efinal :
  attemptCase retry ctx i req1 raw e t fl req' tr efinal ->
  sent tr = [] /\ reads tr = [].
Proof.
  intros H. destruct H; try (split; reflexivity);
    match goal with Hgb : _ \/ _ |- _ => destruct Hgb as [-> | ->] end;
    split; reflexivity.
Qed.

Lemma do_trace (c : Client) (req req1 : Request) (w w1 : World) raw e :
  do E c req w = Some ((req1, (raw, e)), w1) ->
  RawRequest req1 = RawRequest req /\
  heap w1 = heap w /\
  sent (trace w1) = sent (trace w) ++ [RawRequest req] /\
  reads (trace w1) = reads (trace w) /\
  exists trdo, trace w1 = trace w ++ trdo /\ noCancel trdo.
Proof.
  intros Hdo.
  destruct (do_runs c req w) as (req1' & raw' & e' & w1' & dec & Hdo' & Hraw & Hheap & Htr & Hdec).
  rewrite Hdo in Hdo'. injection Hdo' as <- <- <- <-.
  split; [exact Hraw |]. split; [exact Hheap |].
  rewrite Htr, sent_app, reads_app.
  destruct Hdec as [-> | [b ->]]; simpl; rewrite ?app_nil_r;
    repeat split; eexists; (split; [reflexivity |]);
    repeat constructor.
Qed.

End Exchange.

(** ** The retry loop *)

Lemma ctx_Err_never (ctx : Context) (t : Z) : cancelAt ctx = None -> ctx_Err ctx t = None.
Proof. intros H. unfold ctx_Err. rewrite H. reflexivity. Qed.



Lemma wasReset_resetRaw (r : http.Request.t) : wasReset (resetRaw r).
Proof.
  unfold wasReset, resetRaw. intros getBody.
  destruct (http.Request.GetBody r) as [g |] eqn:Hg; simpl; rewrite Hg.
  - intros [= <-]. reflexivity.
  - discriminate.
Qed.

Section Loop.

Variable E : Env.
Hypothesis Hok : transportOk E.
Variables (c : Client) (retry : Retry) (ctx : Context) (resp : loc).

(** *** Every attempt is made: the trigger always fires and the context is
    never canceled *)

Section AlwaysRetry.

Hypothesis Htrigger : forall r, Trigger retry r = true.
Hypothesis Hnever : cancelAt ctx = None.

Lemma attempts_all (n : nat) :
  forall fuel i req w r0,
    heap w !! resp = Some r0 ->
    MaxAttempts retry - i = Z.of_nat (S n) ->
    (S n <= fuel)%nat ->
    exists reqN wN req' raw e wN' w',
      attempts E fuel c retry ctx resp i req w = Some (req', w') /\
      exchanges (trace wN) = (exchanges (trace w) + n)%nat /\
      do E c reqN wN = Some ((req', (raw, e)), wN') /\
      exchanges (trace w') = (exchanges (trace w) + S n)%nat /\
      heap w' !! resp = Some {| RawResponse := raw; Err := e |}.
Proof.
  induction n as [| n IH]; intros fuel i req w r0 Hr Hleft Hfuel.
  - destruct fuel as [| fuel]; [lia |]. cbn [attempts].
    rewrite (proj2 (Z.ltb_lt _ _)) by lia.
    destruct (attempt_runs E Hok c retry ctx resp i req w r0 Hr)
      as (req1 & raw & e & w1 & fl & req' & w' & tr & ef & Hdo & Hat & Htr & Hheap & Hcase).
    rewrite (bind_Some _ _ _ _ _ Hat).
    destruct (do_trace E Hok _ _ _ _ _ _ _ Hdo) as (_ & _ & Hsent & _).
    destruct (attemptCase_quiet _ _ _ _ _ _ _ _ _ _ _ Hcase) as [Hq _].
    destruct Hcase; try lia;
      try (rewrite (ctx_Err_never _ _ Hnever) in *; discriminate).
    exists req, w, req1, raw, e, w1. eexists. split; [reflexivity |].
    split; [lia |]. split; [exact Hdo |]. split; [| exact Hheap].
    unfold exchanges. rewrite Htr, sent_app, Hq, app_nil_r, Hsent, length_app.
    simpl. lia.
  - destruct fuel as [| fuel]; [lia |]. cbn [attempts].
    rewrite (proj2 (Z.ltb_lt _ _)) by lia.
    destruct (attempt_runs E Hok c retry ctx resp i req w r0 Hr)
      as (req1 & raw & e & w1 & fl & req' & w' & tr & ef & Hdo & Hat & Htr & Hheap & Hcase).
    rewrite (bind_Some _ _ _ _ _ Hat).
    destruct (do_trace E Hok _ _ _ _ _ _ _ Hdo) as (_ & _ & Hsent & _).
    destruct (attemptCase_quiet _ _ _ _ _ _ _ _ _ _ _ Hcase) as [Hq _].
    assert (Hone : exchanges (trace w') = (exchanges (trace w) + 1)%nat).
    { unfold exchanges. rewrite Htr, sent_app, Hq, app_nil_r, Hsent, length_app.
      simpl. lia. }
    destruct Hcase; try lia;
      try (rewrite (ctx_Err_never _ _ Hnever) in *; discriminate);
      try (rewrite Htrigger in *; discriminate);
      try congruence.
    destruct (IH fuel (i + 1) req2 w' _ Hheap ltac:(lia) ltac:(lia))
      as (reqN & wN & reqF & rawF & eF & wN' & wF & Hrun & HexN & HdoN & HexF & HheapF).
    exists reqN, wN, reqF, rawF, eF, wN', wF.
    split; [exact Hrun |]. split; [lia |]. split; [exact HdoN |].
    split; [lia | exact HheapF].
Qed.

End AlwaysRetry.

(** *** Cancellation *)


(** *** The requests that are sent *)

Lemma attempts_sent (fuel : nat) :
  forall i req w r0,
    heap w !! resp = Some r0 ->
    (Z.to_nat (MaxAttempts retry - i) < fuel)%nat ->
    exists req' w',
      attempts E fuel c retry ctx resp i req w = Some (req', w') /\
      reads (trace w') = reads (trace w) /\
      (sent (trace w') = sent (trace w) \/
       exists rest,
         sent (trace w') = sent (trace w) ++ RawRequest req :: rest /\
         Forall wasReset rest).
Proof.
  induction fuel as [| fuel IH]; intros i req w r0 Hr Hfuel; [lia |].
  cbn [attempts]. destruct (Z.ltb_spec i (MaxAttempts retry)) as [Hlt | Hge].
  2: { exists req, w. auto. }
  destruct (attempt_runs E Hok c retry ctx resp i req w r0 Hr)
    as (req1 & raw & e & w1 & fl & req' & w' & tr & ef & Hdo & Hat & Htr & Hheap & Hcase).
  rewrite (bind_Some _ _ _ _ _ Hat).
  destruct (do_trace E Hok _ _ _ _ _ _ _ Hdo) as (Hraw & _ & Hsent & Hreads & _).
  destruct (attemptCase_quiet _ _ _ _ _ _ _ _ _ _ _ Hcase) as [Hqs Hqr].
  assert (Hs' : sent (trace w') = sent (trace w) ++ [RawRequest req]).
  { rewrite Htr, sent_app, Hqs, app_nil_r. exact Hsent. }
  assert (Hr' : reads (trace w') = reads (trace w)).
  { rewrite Htr, reads_app, Hqr, app_nil_r. exact Hreads. }
  destruct Hcase;
    try (eexists _, w'; split; [reflexivity |]; split; [exact Hr' |];
         right; exists []; split; [exact Hs' | constructor]).
  destruct (IH (i + 1) req2 w' _ Hheap ltac:(lia)) as (reqF & wF & Hrun & HreadsF & HsentF).
  exists reqF, wF. split; [exact Hrun |]. split; [congruence |]. right.
  destruct HsentF as [Hsame | (rest & Hmore & Hall)].
  - exists []. split; [congruence | constructor].
  - exists (RawRequest req2 :: rest). split.
    + rewrite Hmore, Hs', <- app_assoc. reflexivity.
    + constructor; [| exact Hall].
      rewrite H2. apply wasReset_resetRaw.
Qed.

End Loop.

(** *** The statements before the loop *)

Section Prepare.

Variable E : Env.

Lemma drainBody_runs (body : ReadCloser) (w : World) :
  body <> nilGzipReader ->
  exists b e w1,
    drainBody E body w = Some ((b, e), w1) /\
    heap w1 = heap w /\
    sent (trace w1) = sent (trace w) /\
    reads (trace w1) = reads (trace w) ++ [body].
Proof.
  intros Hbody. unfold drainBody, Read, Close.
  destruct body as [id | under |]; [| | contradiction].
  all: unfold bind, ask, emit, ret;
    match goal with
    | |- context [io_ReadAll E ?w0 ?b] => destruct (io_ReadAll E w0 b) as [data [e |]]
    end;
    [| match goal with
       | |- context [io_Close E ?w0 ?b] => destruct (io_Close E w0 b)
       end ];
    (eexists _, _, _; split; [reflexivity |]);
    unfold log; cbn [heap trace];
    rewrite ?sent_app, ?reads_app; simpl; rewrite ?app_nil_r, <- ?app_assoc;
    repeat split; reflexivity.
Qed.

Lemma prepare_runs (retry : Retry) (req : Request) (w : World) :
  http.Request.Body (RawRequest req) <> Some nilGzipReader ->
  exists prepared w0,
    prepare E retry req w = Some (prepared, w0) /\
    heap w0 = heap w /\
    sent (trace w0) = sent (trace w) /\
    if needsBuffer retry req then
      exists body b e w1,
        http.Request.Body (RawRequest req) = Some body /\
        drainBody E body w = Some ((b, e), w1) /\
        prepared = SetBody E b req /\
        reads (trace w0) = reads (trace w) ++ [body]
    else prepared = req /\ reads (trace w0) = reads (trace w).
Proof.
  intros Hbody. unfold prepare, needsBuffer.
  destruct (http.Request.Body (RawRequest req)) as [body |];
    [| exists req, w; rewrite andb_false_r; simpl; auto].
  destruct (http.Request.GetBody (RawRequest req)) as [g |];
    [exists req, w; rewrite andb_false_r; simpl; auto |].
  destruct (1 <? MaxAttempts retry); simpl; [| exists req, w; auto].
  destruct (drainBody_runs body w) as (b & e & w1 & Hdrain & Hheap & Hsent & Hreads);
    [congruence |].
  rewrite (bind_Some _ _ _ _ _ Hdrain).
  eexists _, _. split; [reflexivity |]. split; [exact Hheap |].
  split; [exact Hsent |]. exists body, b, e, w1. auto.
Qed.

End Prepare.

(** C1.  With MaxAttempts = N >= 1 in the merged policy, a Trigger that
    always says yes and a bound context that is never canceled,
    [doWithRetry] returns after exactly N exchanges: the trace counts N calls
    of the transport more than before.  The last of them is made by the call
    of [do] that starts when N - 1 exchanges have been made, and the
    Response holds what that call returned.  The transport honours the
    contract of net/http, the Response is allocated, the body of the request
    is not a nil pointer and SetBody leaves the context of the request
    alone. *)
Theorem doWithRetry_makes_every_attempt :
  forall (E : Env) (c : Client) (req : Request) (resp : loc) (w : World)
         (r0 : Response) (N : Z),
    transportOk E ->
    heap w !! resp = Some r0 ->
    http.Request.Body (RawRequest req) <> Some nilGzipReader ->
    (forall b, ctx (SetBody E b req) = ctx req) ->
    MaxAttempts (Merge E (Retry_ req) (defaultRetry E)) = N ->
    1 <= N ->
    (forall r, Trigger (Merge E (Retry_ req) (defaultRetry E)) r = true) ->
    cancelAt (boundContext req) = None ->
    exists reqN wN req' raw e wN' w',
      doWithRetry E c req resp w = Some (req', w') /\
      exchanges (trace w') = (exchanges (trace w) + Z.to_nat N)%nat /\
      exchanges (trace wN) = (exchanges (trace w) + Z.to_nat N - 1)%nat /\
      do E c reqN wN = Some ((req', (raw, e)), wN') /\
      heap w' !! resp = Some {| RawResponse := raw; Err := e |}.
Proof.
  intros E c req resp w r0 N Hok Hr Hbody Hframe HN Hpos Htrig Hnever.
  unfold doWithRetry.
  destruct (prepare_runs E (Merge E (Retry_ req) (defaultRetry E)) req w Hbody)
    as (prepared & w0 & Hprep & Hheap0 & Hsent0 & Hbuf).
  rewrite (bind_Some _ _ _ _ _ Hprep).
  assert (Hctx : boundContext prepared = boundContext req).
  { unfold boundContext.
    destruct (needsBuffer _ req).
    - destruct Hbuf as (body & b & e & w1 & _ & _ & -> & _). rewrite Hframe. reflexivity.
    - destruct Hbuf as [-> _]. reflexivity. }
  rewrite Hctx.
  assert (Hr0 : heap w0 !! resp = Some r0) by (rewrite Hheap0; exact Hr).
  destruct (attempts_all E Hok c (Merge E (Retry_ req) (defaultRetry E))
              (boundContext req) resp Htrig Hnever (Z.to_nat N - 1)
              (S (Z.to_nat (MaxAttempts (Merge E (Retry_ req) (defaultRetry E))))) 0
              (set_RawRequest
                 (http.Request.WithContext (boundContext req) (RawRequest prepared))
                 prepared)
              w0 r0 Hr0 ltac:(lia) ltac:(lia))
    as (reqN & wN & req' & raw & e & wN' & w' & Hrun & HexN & Hdo & Hex & Hheap).
  exists reqN, wN, req', raw, e, wN', w'.
  split; [exact Hrun |].
  unfold exchanges in *. rewrite Hsent0 in *.
  split; [lia |]. split; [lia |]. split; [exact Hdo | exact Hheap].
Qed.

(** *** The attempt that sees the context canceled *)

Section Cancellation.

Variable E : Env.
Hypothesis Hok : transportOk E.

Variables (c : Client) (retry : Retry) (ctx : Context) (resp : loc).




End Cancellation.


(** *** What is handed to SetBody *)

Section Buffering.

Variable E : Env.

(** [drainBody] returns the bytes of the body when the read and the close
    succeed, and nil otherwise. *)
Lemma drainBody_drained (body : ReadCloser) (w : World) :
  body <> nilGzipReader ->
  exists e w1, drainBody E body w = Some ((drained E w body, e), w1).
Proof.
  intros Hbody. unfold drainBody, drained, Read, Close.
  destruct body as [id | under |]; [| | contradiction].
  all: unfold bind, ask, emit, ret;
    match goal with
    | |- context [io_ReadAll E ?w0 ?b] => destruct (io_ReadAll E w0 b) as [data [e |]]
    end;
    [eexists _, _; reflexivity |];
    match goal with
    | |- context [io_Close E ?w0 ?b] => destruct (io_Close E w0 b)
    end;
    eexists _, _; reflexivity.
Qed.

Lemma prepare_hands_drained (retry : Retry) (req : Request) (w : World) body :
  http.Request.Body (RawRequest req) = Some body ->
  body <> nilGzipReader ->
  needsBuffer retry req = true ->
  exists w0, prepare E retry req w = Some (SetBody E (drained E w body) req, w0).
Proof.
  intros Hb Hbody Hneed. unfold prepare, needsBuffer in *. rewrite Hb in *.
  destruct (http.Request.GetBody (RawRequest req));
    [rewrite andb_false_r in Hneed; discriminate |].
  destruct (1 <? MaxAttempts retry); [| discriminate].
  destruct (drainBody_drained body w Hbody) as (e & w1 & Hdrain).
  rewrite (bind_Some _ _ _ _ _ Hdrain). eexists. reflexivity.
Qed.

Hypothesis Hok : transportOk E.

(** A loop that starts below MaxAttempts sends the request it was given
    first, and after it requests whose body was reset. *)
Lemma attempts_sent_first (c : Client) (retry : Retry) (ctx : Context) (resp : loc)
    (fuel : nat) (i : Z) (req : Request) (w : World) (r0 : Response) :
  heap w !! resp = Some r0 ->
  (Z.to_nat (MaxAttempts retry - i) < fuel)%nat ->
  i < MaxAttempts retry ->
  exists req' w' rest,
    attempts E fuel c retry ctx resp i req w = Some (req', w') /\
    reads (trace w') = reads (trace w) /\
    sent (trace w') = sent (trace w) ++ RawRequest req :: rest /\
    Forall wasReset rest.
Proof.
  intros Hr Hfuel Hlt. destruct fuel as [| fuel]; [lia |].
  cbn [attempts]. rewrite (proj2 (Z.ltb_lt _ _) Hlt).
  destruct (attempt_runs E Hok c retry ctx resp i req w r0 Hr)
    as (req1 & raw & e & w1 & fl & req' & w' & tr & ef & Hdo & Hat & Htr & Hheap & Hcase).
  rewrite (bind_Some _ _ _ _ _ Hat).
  destruct (do_trace E Hok _ _ _ _ _ _ _ Hdo) as (Hraw & _ & Hsent & Hreads & _).
  destruct (attemptCase_quiet _ _ _ _ _ _ _ _ _ _ _ Hcase) as [Hqs Hqr].
  assert (Hs' : sent (trace w') = sent (trace w) ++ [RawRequest req]).
  { rewrite Htr, sent_app, Hqs, app_nil_r. exact Hsent. }
  assert (Hr' : reads (trace w') = reads (trace w)).
  { rewrite Htr, reads_app, Hqr, app_nil_r. exact Hreads. }
  destruct Hcase;
    try (eexists _, w', []; split; [reflexivity |]; split; [exact Hr' |];
         split; [exact Hs' | constructor]).
  destruct (attempts_sent E Hok c retry ctx resp fuel (i + 1) req2 w' _ Hheap ltac:(lia))
    as (reqF & wF & Hrun & HreadsF & HsentF).
  destruct HsentF as [Hsame | (rest & Hmore & Hall)].
  - exists reqF, wF, []. split; [exact Hrun |]. split; [congruence |].
    split; [congruence | constructor].
  - exists reqF, wF, (RawRequest req2 :: rest). split; [exact Hrun |].
    split; [congruence |]. split.
    + rewrite Hmore, Hs', <- app_assoc. reflexivity.
    + constructor; [| exact Hall].
      match goal with H : RawRequest req2 = _ |- _ => rewrite H end.
      apply wasReset_resetRaw.
Qed.

End Buffering.

(** C8, amended.  [doWithRetry] reads the body of the request exactly once
    and calls SetBody exactly once when the merged policy allows more than
    one attempt and the request has a body and no GetBody; otherwise it
    reads no body and leaves the request as it is.  What SetBody is handed
    is the bytes read when the read and the close of the body both succeed;
    when either fails the error is dropped and SetBody is handed nil, not
    the content of the body.  When the policy allows an attempt, the first
    request sent is the raw request so prepared, bound to the context, and
    every request sent after it, that is on a retried attempt, has the body
    that its GetBody returns, when it has a GetBody; when the policy allows
    no attempt nothing is sent. *)
Theorem doWithRetry_buffers_body_once :
  forall (E : Env) (c : Client) (req : Request) (resp : loc) (w : World) (r0 : Response),
    transportOk E ->
    heap w !! resp = Some r0 ->
    http.Request.Body (RawRequest req) <> Some nilGzipReader ->
    exists req' w' prepared,
      doWithRetry E c req resp w = Some (req', w') /\
      (if needsBuffer (Merge E (Retry_ req) (defaultRetry E)) req then
         exists body,
           http.Request.Body (RawRequest req) = Some body /\
           prepared = SetBody E (drained E w body) req /\
           reads (trace w') = reads (trace w) ++ [body]
       else prepared = req /\ reads (trace w') = reads (trace w)) /\
      (if 0 <? MaxAttempts (Merge E (Retry_ req) (defaultRetry E)) then
         exists rest,
           sent (trace w') =
             sent (trace w) ++
               http.Request.WithContext (boundContext prepared) (RawRequest prepared)
                 :: rest /\
           Forall wasReset rest
       else sent (trace w') = sent (trace w)).
Proof.
  intros E c req resp w r0 Hok Hr Hbody.
  unfold doWithRetry.
  set (retry := Merge E (Retry_ req) (defaultRetry E)).
  destruct (prepare_runs E retry req w Hbody)
    as (prepared & w0 & Hprep & Hheap0 & Hsent0 & Hbuf).
  rewrite (bind_Some _ _ _ _ _ Hprep).
  assert (Hr0 : heap w0 !! resp = Some r0) by (rewrite Hheap0; exact Hr).
  assert (Hpin :
    if needsBuffer retry req then
      exists body,
        http.Request.Body (RawRequest req) = Some body /\
        prepared = SetBody E (drained E w body) req /\
        reads (trace w0) = reads (trace w) ++ [body]
    else prepared = req /\ reads (trace w0) = reads (trace w)).
  { destruct (needsBuffer retry req) eqn:Hneed; [| exact Hbuf].
    destruct Hbuf as (body & b & e & w1 & Hb & _ & _ & Hreads).
    exists body. split; [exact Hb |]. split; [| exact Hreads].
    destruct (prepare_hands_drained E retry req w body Hb ltac:(congruence) Hneed)
      as (w0' & Hprep').
    congruence. }
  destruct (Z.ltb_spec 0 (MaxAttempts retry)) as [Hpos | Hnone].
  - destruct (attempts_sent_first E Hok c retry (boundContext prepared) resp
                (S (Z.to_nat (MaxAttempts retry))) 0
                (set_RawRequest
                   (http.Request.WithContext (boundContext prepared) (RawRequest prepared))
                   prepared)
                w0 r0 Hr0 ltac:(lia) Hpos)
      as (req' & w' & rest & Hrun & Hreads & Hsent & Hall).
    exists req', w', prepared. split; [exact Hrun |]. split.
    + destruct (needsBuffer retry req).
      * destruct Hpin as (body & H1 & H2 & H3). exists body. rewrite Hreads. auto.
      * destruct Hpin as [H1 H2]. rewrite Hreads. auto.
    + exists rest. rewrite <- Hsent0. split; [exact Hsent | exact Hall].
  - exists (set_RawRequest
              (http.Request.WithContext (boundContext prepared) (RawRequest prepared))
              prepared), w0, prepared.
    split.
    + cbn [attempts]. rewrite (proj2 (Z.ltb_ge _ _) Hnone). reflexivity.
    + split; [exact Hpin | exact Hsent0].
Qed.

(** ** Decoding *)

(** C7, amended.  When the exchange succeeds and no deferred error waits on
    the channel of the request, [do] hands the body to gzip.NewReader exactly
    when Content-Encoding equals gzip up to case, the content length is not
    zero and the body is not a gzip reader already, and it does so once; the
    body of the raw response is replaced exactly then, by the reader that
    gzip.NewReader returns, or by its nil pointer when it fails, and the
    failure is the error of the attempt.  The body of the loop then runs to
    its end in one of its usual ways with that error in the Response. *)
Theorem do_decodes_gzip_once :
  forall (E : Env) (c : Client) (req : Request) (w : World)
         (rr : http.Response.t) (dt : Z),
    http_Client_Do E (RawClient c) w (RawRequest req) = ((Some rr, None), dt) ->
    err req = [] ->
    exists rr' e w',
      do E c req w = Some ((req, (Some rr', e)), w') /\
      decoded (trace w') =
        decoded (trace w) ++ (if wantsGzip E rr then [http.Response.Body rr] else []) /\
      (http.Response.Body rr' <> http.Response.Body rr <-> wantsGzip E rr = true) /\
      (wantsGzip E rr = false -> rr' = rr /\ e = None) /\
      (wantsGzip E rr = true ->
       match gzip_NewReader E (answered w (RawRequest req) dt) (http.Response.Body rr) with
       | None =>
           rr' = http.Response.set_Body (gzipReader (http.Response.Body rr)) rr /\ e = None
       | Some ge =>
           rr' = http.Response.set_Body nilGzipReader rr /\ e = Some ge
       end) /\
      (forall retry ctx resp i r0,
         heap w !! resp = Some r0 ->
         exists fl req' w'' tr efinal,
           attempt E c retry ctx resp i req w = Some ((fl, req'), w'') /\
           heap w'' !! resp = Some {| RawResponse := Some rr'; Err := efinal |} /\
           attemptCase retry ctx i req (Some rr') e (now w') fl req' tr efinal).
Proof.
  intros E c req w rr dt Hdo Hq.
  pose proof (do_success E c req w rr dt Hdo Hq) as Hrun.
  assert (Hloop : forall rr' e w',
            do E c req w = Some ((req, (Some rr', e)), w') -> heap w' = heap w ->
            forall retry ctx resp i r0,
              heap w !! resp = Some r0 ->
              exists fl req' w'' tr efinal,
                attempt E c retry ctx resp i req w = Some ((fl, req'), w'') /\
                heap w'' !! resp = Some {| RawResponse := Some rr'; Err := efinal |} /\
                attemptCase retry ctx i req (Some rr') e (now w') fl req' tr efinal).
  { intros rr' e w' Hd Hh retry ctx resp i r0 Hr.
    destruct (attempt_after_do E c retry ctx resp i req w r0 req (Some rr') e w' Hr Hd Hh)
      as (fl & req' & w'' & tr & ef & Hat & _ & Hheap & Hcase).
    exists fl, req', w'', tr, ef. auto. }
  destruct (wantsGzip E rr) eqn:Hwants.
  - assert (Hstream : exists id, http.Response.Body rr = stream id).
    { unfold wantsGzip in Hwants. apply andb_true_iff in Hwants as [_ Hng].
      destruct (http.Response.Body rr); simpl in Hng; try discriminate. eauto. }
    destruct Hstream as [id Hid].
    destruct (gzip_NewReader E (answered w (RawRequest req) dt) (http.Response.Body rr))
      as [ge |] eqn:Hgz.
    + eexists _, _, _. split; [exact Hrun |].
      split; [unfold answered; unfold log, set_now; cbn [trace];
              repeat rewrite decoded_app; cbn [decoded app];
              repeat rewrite app_nil_r; reflexivity |].
      split; [split; [reflexivity | simpl; rewrite Hid; discriminate] |].
      split; [discriminate |]. split; [intros _; split; reflexivity |].
      apply Hloop; [exact Hrun | reflexivity].
    + eexists _, _, _. split; [exact Hrun |].
      split; [unfold answered; unfold log, set_now; cbn [trace];
              repeat rewrite decoded_app; cbn [decoded app];
              repeat rewrite app_nil_r; reflexivity |].
      split; [split; [reflexivity | simpl; rewrite Hid; discriminate] |].
      split; [discriminate |]. split; [intros _; split; reflexivity |].
      apply Hloop; [exact Hrun | reflexivity].
  - eexists _, _, _. split; [exact Hrun |].
    split; [unfold answered; unfold log, set_now; cbn [trace];
            repeat rewrite decoded_app; cbn [decoded app];
            repeat rewrite app_nil_r; reflexivity |].
    split; [split; [intros H; contradiction | discriminate] |].
    split; [auto |]. split; [discriminate |].
    apply Hloop; [exact Hrun | reflexivity].
Qed.

(** The claim without the proviso on the channel of deferred errors fails:
    the exchange succeeds, the three conditions hold, and [do] returns the
    body as the transport left it, never handed to gzip.NewReader, because
    a deferred error was waiting. *)
Lemma do_skips_gzip_on_deferred_error :
  exists rr dt w',
    http_Client_Do (Demo.env Demo.gzipServer) (RawClient Demo.client) Demo.start
      (RawRequest (set_err [Some Demo.deferred] (Demo.request Demo.get None None))) =
      ((Some rr, None), dt) /\
    wantsGzip (Demo.env Demo.gzipServer) rr = true /\
    do (Demo.env Demo.gzipServer) Demo.client
      (set_err [Some Demo.deferred] (Demo.request Demo.get None None)) Demo.start =
      Some ((Demo.request Demo.get None None, (Some rr, Some Demo.deferred)), w') /\
    isGzipReader (http.Response.Body rr) = false /\
    decoded (trace w') = [] /\
    ~ (isGzipReader (http.Response.Body rr) = true <->
       wantsGzip (Demo.env Demo.gzipServer) rr = true).
Proof.
  eexists _, _, _. split; [reflexivity |]. split; [reflexivity |].
  split; [reflexivity |]. split; [reflexivity |]. split; [reflexivity |].
  intros [_ H]. specialize (H eq_refl). discriminate H.
Qed.

(** ** The program in the small world *)

Lemma Demo_transportOk srv :
  (forall w, snd (fst (srv w)) = None -> fst (fst (srv w)) <> None) ->
  transportOk (Demo.env srv).
Proof.
  intros H rc w raw resp dt Heq. simpl in Heq.
  specialize (H w). rewrite Heq in H. simpl in H. auto.
Qed.

Lemma Demo_server_ok : transportOk (Demo.env Demo.server).
Proof.
  apply Demo_transportOk. intros w _. unfold Demo.server.
  destruct (exchanges (trace w)) as [| [| n]]; discriminate.
Qed.

Lemma Demo_gzipServer_ok : transportOk (Demo.env Demo.gzipServer).
Proof. apply Demo_transportOk. intros w _. discriminate. Qed.


(** The scenario of the specification: three attempts allowed, a retry on
    status 500, a constant wait of 10, and a server that answers 500, 500
    and 200.  Three exchanges are made, two waits pass, and the Response
    holds the status 200 and no error. *)
Example Do_retries_on_500 :
  exists resp req' w' raw,
    Do (Demo.env Demo.server) Demo.client
      (Demo.request Demo.get (Some (Demo.policy 3 Demo.on500)) None) Demo.start =
      Some ((resp, req'), w') /\
    exchanges (trace w') = 3%nat /\
    20 <= now w' - now Demo.start /\
    heap w' !! resp = Some {| RawResponse := Some raw; Err := None |} /\
    http.Response.StatusCode raw = 200.
Proof.
  eexists _, _, _, _. split; [reflexivity |].
  split; [reflexivity |]. split; [vm_compute; discriminate |].
  split; reflexivity.
Qed.

Lemma accessors_return_stored_error_witness :
  heap (Demo.world Demo.failed) !! 0%nat = Some Demo.failed /\
  Err Demo.failed = Some (errorString "dial tcp: connection refused") /\
  Raw (Demo.env Demo.server) 0%nat (Demo.world Demo.failed) =
    Some (([], Some (errorString "dial tcp: connection refused")), Demo.world Demo.failed) /\
  Verbose (Demo.env Demo.server) 1%nat 0%nat (Demo.world Demo.failed) =
    Some (Some (errorString "dial tcp: connection refused"), Demo.world Demo.failed).
Proof.
  pose proof (accessors_return_stored_error (Demo.env Demo.server)
                (Demo.world Demo.failed) 0%nat Demo.failed
                (errorString "dial tcp: connection refused") eq_refl eq_refl) as H.
  split; [reflexivity |]. split; [reflexivity |].
  split; [exact (proj1 H) |].
  exact (proj2 (proj2 (proj2 (proj2 (proj2 (proj2 (proj2 (proj2 (proj2 H))))))))
           1%nat).
Defined.

Lemma EnsureStatus_stores_assertion_error_witness :
  heap (Demo.world Demo.notFound) !! 0%nat = Some Demo.notFound /\
  http.Response.StatusCode (Demo.answer 404 [] 4) <> 200 /\
  exists w',
    EnsureStatus 200 0%nat (Demo.world Demo.notFound) = Some (0%nat, w') /\
    heap w' !! 0%nat =
      Some {| RawResponse := Some (Demo.answer 404 [] 4);
              Err := Some (errorString
                             ("sreq: bad status: " +:+
                              itoa (http.Response.StatusCode (Demo.answer 404 [] 4)))) |} /\
    trace w' = trace (Demo.world Demo.notFound) /\
    Raw (Demo.env Demo.server) 0%nat w' =
      Some (([], Some (errorString
                         ("sreq: bad status: " +:+
                          itoa (http.Response.StatusCode (Demo.answer 404 [] 4))))), w').
Proof.
  split; [reflexivity |]. split; [discriminate |].
  apply (proj1 (EnsureStatus_stores_assertion_error (Demo.env Demo.server)
                  (Demo.world Demo.notFound) 0%nat Demo.notFound (Demo.answer 404 [] 4)
                  eq_refl eq_refl eq_refl) 200).
  discriminate.
Defined.

(** The text of the assertion error names the status. *)
Example badStatus_404 : badStatus 404 = errorString "sreq: bad status: 404".
Proof. reflexivity. Qed.

Lemma doWithRetry_makes_every_attempt_witness :
  MaxAttempts (Merge (Demo.env Demo.server)
                 (Retry_ (Demo.request Demo.post (Some (Demo.policy 3 Demo.always)) None))
                 (defaultRetry (Demo.env Demo.server))) = 3 /\
  exists reqN wN req' raw e wN' w',
    doWithRetry (Demo.env Demo.server) Demo.client
      (Demo.request Demo.post (Some (Demo.policy 3 Demo.always)) None) 0%nat
      (Demo.world Demo.empty) = Some (req', w') /\
    exchanges (trace w') = (exchanges (trace (Demo.world Demo.empty)) + Z.to_nat 3)%nat /\
    exchanges (trace wN) = (exchanges (trace (Demo.world Demo.empty)) + Z.to_nat 3 - 1)%nat /\
    do (Demo.env Demo.server) Demo.client reqN wN = Some ((req', (raw, e)), wN') /\
    heap w' !! 0%nat = Some {| RawResponse := raw; Err := e |}.
Proof.
  split; [reflexivity |].
  apply (doWithRetry_makes_every_attempt (Demo.env Demo.server) Demo.client
           (Demo.request Demo.post (Some (Demo.policy 3 Demo.always)) None) 0%nat
           (Demo.world Demo.empty) Demo.empty 3 Demo_server_ok).
  - reflexivity.
  - discriminate.
  - intros [b |]; reflexivity.
  - reflexivity.
  - lia.
  - intros r. reflexivity.
  - reflexivity.
Defined.


(** In that run the transport fails at instant 3, the wait of 10 is cut short
    at instant 8 by the context, and the Response holds the error of the
    context in place of the error of the transport; one exchange was made. *)
Example cancellation_during_wait :
  option_map (fun p => (exchanges (trace (snd p)), now (snd p), heap (snd p) !! 0%nat))
    (attempts (Demo.env Demo.deadServer) 4 Demo.client (Demo.policy 3 Demo.onlyOnError)
       {| cancelAt := Some (8, Demo.canceled) |} 0%nat 0
       (Demo.request Demo.get None None) (Demo.world Demo.empty)) =
  Some (1%nat, 8, Some {| RawResponse := None; Err := Some Demo.canceled |}).
Proof. reflexivity. Qed.

(** A context that is canceled while the exchange is under way: the
    transport fails at instant 3, ctx.Err() returns the error of the context
    and the loop stops there, with no call of Trigger and no wait. *)
Example cancellation_during_exchange :
  option_map (fun p => (trace (snd p), now (snd p), heap (snd p) !! 0%nat))
    (attempts (Demo.env Demo.deadServer) 4 Demo.client (Demo.policy 3 Demo.onlyOnError)
       {| cancelAt := Some (2, Demo.canceled) |} 0%nat 0
       (Demo.request Demo.get None None) (Demo.world Demo.empty)) =
  Some ([EvRoundTrip Demo.get; EvCtxErr (Some Demo.canceled)], 3,
        Some {| RawResponse := None; Err := Some Demo.canceled |}).
Proof. reflexivity. Qed.

Lemma doWithRetry_buffers_body_once_witness :
  needsBuffer (Merge Fault.readable (Retry_ Fault.upload) (defaultRetry Fault.readable))
    Fault.upload = true /\
  drained Fault.readable (Demo.world Demo.empty) (stream 1) = Some Fault.hi /\
  exists req' w' prepared,
    doWithRetry Fault.readable Demo.client Fault.upload 0%nat (Demo.world Demo.empty) =
      Some (req', w') /\
    (if needsBuffer (Merge Fault.readable (Retry_ Fault.upload) (defaultRetry Fault.readable))
          Fault.upload
     then
       exists body,
         http.Request.Body (RawRequest Fault.upload) = Some body /\
         prepared =
           SetBody Fault.readable (drained Fault.readable (Demo.world Demo.empty) body)
             Fault.upload /\
         reads (trace w') = reads (trace (Demo.world Demo.empty)) ++ [body]
     else
       prepared = Fault.upload /\
       reads (trace w') = reads (trace (Demo.world Demo.empty))) /\
    (if 0 <? MaxAttempts
               (Merge Fault.readable (Retry_ Fault.upload) (defaultRetry Fault.readable))
     then
       exists rest,
         sent (trace w') =
           sent (trace (Demo.world Demo.empty)) ++
             http.Request.WithContext (boundContext prepared) (RawRequest prepared)
               :: rest /\
         Forall wasReset rest
     else sent (trace w') = sent (trace (Demo.world Demo.empty))).
Proof.
  split; [reflexivity |]. split; [reflexivity |].
  apply (doWithRetry_buffers_body_once Fault.readable Demo.client Fault.upload 0%nat
           (Demo.world Demo.empty) Demo.empty).
  - intros rc w raw resp dt. unfold Fault.readable, Fault.reading, Demo.env, Demo.server.
    cbn [http_Client_Do].
    destruct (exchanges (trace w)) as [| [| n]]; intros [= <- <-]; discriminate.
  - reflexivity.
  - discriminate.
Defined.

(** The body is read, the read fails, and SetBody is handed nil: the three
    requests that are sent carry no body and no GetBody, so what was drained
    has not become a body that can be replayed. *)
Lemma doWithRetry_hands_nil_when_the_read_fails :
  needsBuffer
    (Merge Fault.unreadable (Retry_ Fault.upload) (defaultRetry Fault.unreadable))
    Fault.upload = true /\
  io_ReadAll Fault.unreadable (Demo.world Demo.empty) (stream 1) =
    ([], Some Fault.brokenPipe) /\
  prepare Fault.unreadable (Demo.policy 3 Demo.on500) Fault.upload (Demo.world Demo.empty) =
    Some (SetBody Fault.unreadable None Fault.upload,
          log (EvRead (stream 1)) (Demo.world Demo.empty)) /\
  exists req' w',
    doWithRetry Fault.unreadable Demo.client Fault.upload 0%nat (Demo.world Demo.empty) =
      Some (req', w') /\
    reads (trace w') = [stream 1] /\
    exchanges (trace w') = 3%nat /\
    Forall (fun r => http.Request.Body r = None /\ http.Request.GetBody r = None)
      (sent (trace w')) /\
    forall data,
      SetBody Fault.unreadable None Fault.upload <>
      SetBody Fault.unreadable (Some data) Fault.upload.
Proof.
  split; [reflexivity |]. split; [reflexivity |]. split; [reflexivity |].
  destruct (doWithRetry Fault.unreadable Demo.client Fault.upload 0%nat
              (Demo.world Demo.empty)) as [[req' w'] |] eqn:Hrun.
  2: { vm_compute in Hrun. discriminate. }
  exists req', w'. split; [reflexivity |].
  vm_compute in Hrun. injection Hrun as <- <-.
  split; [reflexivity |]. split; [reflexivity |].
  split; [repeat constructor |].
  intros data H.
  apply (f_equal (fun r => match http.Request.GetBody (RawRequest r) with
                           | Some _ => true
                           | None => false
                           end)) in H.
  discriminate H.
Qed.

(** Without a retry allowed, the body is left for the transport to read. *)
Example doWithRetry_single_attempt_reads_nothing :
  option_map (fun p => (reads (trace (snd p)), exchanges (trace (snd p))))
    (doWithRetry (Demo.env Demo.server) Demo.client
       (Demo.request Demo.post None None) 0%nat (Demo.world Demo.empty)) =
  Some ([], 1%nat).
Proof. reflexivity. Qed.

Lemma do_decodes_gzip_once_witness :
  err (Demo.request Demo.get None None) = [] /\
  wantsGzip (Demo.env Demo.gzipServer)
    (Demo.answer 200 [("Content-Encoding", ["GZIP"])] 4) = true /\
  exists rr' e w',
    do (Demo.env Demo.gzipServer) Demo.client (Demo.request Demo.get None None) Demo.start =
      Some ((Demo.request Demo.get None None, (Some rr', e)), w') /\
    decoded (trace w') = decoded (trace Demo.start) ++ [stream 0] /\
    http.Response.Body rr' = gzipReader (stream 0) /\
    e = None.
Proof.
  split; [reflexivity |]. split; [reflexivity |].
  destruct (do_decodes_gzip_once (Demo.env Demo.gzipServer) Demo.client
              (Demo.request Demo.get None None) Demo.start
              (Demo.answer 200 [("Content-Encoding", ["GZIP"])] 4) 3 eq_refl eq_refl)
    as (rr' & e & w' & Hdo & Hdec & _ & _ & Hgz & _).
  exists rr', e, w'. split; [exact Hdo |]. split; [exact Hdec |].
  destruct (Hgz eq_refl) as [-> ->]. split; reflexivity.
Defined.

(** * Further properties *)

(** ** The setters of the client *)

(** X1.  On a client whose transport is not a *http.Transport, SetProxy,
    SetTLSClientConfig, AppendClientCerts and DisableVerify each return the
    client as it was, with an Error whose Op is the name of the setter and
    whose Err is ErrUnexpectedTransport; SetProxyFromURL with a URL that
    parses reports the Op of SetProxy, the setter it ends in. *)
Theorem setters_need_http_transport :
  forall (E : Env) (c : Client) (id : nat),
    http.Client.Transport (RawClient c) = http.otherRoundTripper id ->
    (forall proxy,
       SetProxy E proxy c =
         (c, Some (Error "Client.SetProxy" (ErrUnexpectedTransport E)))) /\
    (forall config,
       SetTLSClientConfig E config c =
         (c, Some (Error "Client.SetTLSClientConfig" (ErrUnexpectedTransport E)))) /\
    (forall certs,
       AppendClientCerts E certs c =
         (c, Some (Error "Client.AppendClientCerts" (ErrUnexpectedTransport E)))) /\
    DisableVerify E c =
      (c, Some (Error "Client.DisableVerify" (ErrUnexpectedTransport E))) /\
    (forall url u,
       url_Parse E url = inl u ->
       SetProxyFromURL E url c =
         (c, Some (Error "Client.SetProxy" (ErrUnexpectedTransport E)))).
Proof.
  intros E c id Ht.
  assert (Hno : httpTransport E c = inr (ErrUnexpectedTransport E)).
  { unfold httpTransport. rewrite Ht. reflexivity. }
  repeat split; intros.
  - unfold SetProxy. rewrite Hno. reflexivity.
  - unfold SetTLSClientConfig. rewrite Hno. reflexivity.
  - unfold AppendClientCerts. rewrite Hno. reflexivity.
  - unfold DisableVerify. rewrite Hno. reflexivity.
  - unfold SetProxyFromURL. rewrite H. unfold SetProxy. rewrite Hno. reflexivity.
Qed.

Lemma setters_need_http_transport_witness :
  http.Client.Transport (RawClient Sample.custom) = http.otherRoundTripper 7 /\
  SetProxy (Demo.env Demo.server) None Sample.custom =
    (Sample.custom,
     Some (Error "Client.SetProxy" (ErrUnexpectedTransport (Demo.env Demo.server)))) /\
  SetProxyFromURL (Demo.env Demo.server) "proxy.local" Sample.custom =
    (Sample.custom,
     Some (Error "Client.SetProxy" (ErrUnexpectedTransport (Demo.env Demo.server)))).
Proof.
  pose proof (setters_need_http_transport (Demo.env Demo.server) Sample.custom 7 eq_refl)
    as (H1 & _ & _ & _ & H5).
  split; [reflexivity |]. split; [apply H1 |].
  apply (H5 "proxy.local"
           {| Scheme := "http"; Host := "proxy.local"; Path := ""; RawQuery := "" |}).
  reflexivity.
Defined.

(** X2.  On a client whose transport is a *http.Transport, SetProxy reports
    no error and the transport read back afterwards carries the new proxy
    function; the TLS configuration, the redirect policy, the cookie jar, the
    timeout and both hook chains are the ones the client had. *)
Theorem SetProxy_installs_proxy :
  forall (E : Env) (c : Client) (t : http.Transport.t)
         (proxy : option (http.Request.t -> option URL * option error)),
    http.Client.Transport (RawClient c) = http.transportPtr t ->
    snd (SetProxy E proxy c) = None /\
    httpTransport E (fst (SetProxy E proxy c)) =
      inl (http.Transport.mk proxy (http.Transport.TLSClientConfig t)) /\
    http.Client.CheckRedirect (RawClient (fst (SetProxy E proxy c))) =
      http.Client.CheckRedirect (RawClient c) /\
    http.Client.Jar (RawClient (fst (SetProxy E proxy c))) = http.Client.Jar (RawClient c) /\
    http.Client.Timeout (RawClient (fst (SetProxy E proxy c))) =
      http.Client.Timeout (RawClient c) /\
    beforeRequestHooks (fst (SetProxy E proxy c)) = beforeRequestHooks c /\
    afterResponseHooks (fst (SetProxy E proxy c)) = afterResponseHooks c.
Proof.
  intros E c t proxy Ht. unfold SetProxy, httpTransport. rewrite Ht. simpl.
  repeat split.
Qed.

Lemma SetProxy_installs_proxy_witness :
  snd (SetProxy (Demo.env Demo.server) None Demo.client) = None /\
  httpTransport (Demo.env Demo.server) (fst (SetProxy (Demo.env Demo.server) None Demo.client)) =
    inl (http.Transport.mk None None).
Proof.
  pose proof (SetProxy_installs_proxy (Demo.env Demo.server) Demo.client
                (http.Transport.mk (Some (http.ProxyURL Demo.url)) None) None eq_refl)
    as (H1 & H2 & _).
  split; [exact H1 | exact H2].
Defined.

(** X3.  With a URL that parses to [u] and a *http.Transport, SetProxyFromURL
    reports no error and installs a proxy function that answers [u], and no
    error, for every request. *)
Theorem SetProxyFromURL_installs_fixed_proxy :
  forall (E : Env) (c : Client) (t : http.Transport.t) (url : string) (u : URL),
    url_Parse E url = inl u ->
    http.Client.Transport (RawClient c) = http.transportPtr t ->
    snd (SetProxyFromURL E url c) = None /\
    exists t' f,
      httpTransport E (fst (SetProxyFromURL E url c)) = inl t' /\
      http.Transport.Proxy t' = Some f /\
      http.Transport.TLSClientConfig t' = http.Transport.TLSClientConfig t /\
      forall r, f r = (Some u, None).
Proof.
  intros E c t url u Hparse Ht.
  unfold SetProxyFromURL. rewrite Hparse.
  unfold SetProxy, httpTransport. rewrite Ht. simpl.
  split; [reflexivity |]. eexists _, _. repeat split.
Qed.

Lemma SetProxyFromURL_installs_fixed_proxy_witness :
  snd (SetProxyFromURL (Demo.env Demo.server) "proxy.local" Demo.client) = None /\
  exists t' f,
    httpTransport (Demo.env Demo.server)
      (fst (SetProxyFromURL (Demo.env Demo.server) "proxy.local" Demo.client)) = inl t' /\
    http.Transport.Proxy t' = Some f /\
    http.Transport.TLSClientConfig t' = None /\
    forall r, f r =
      (Some {| Scheme := "http"; Host := "proxy.local"; Path := ""; RawQuery := "" |}, None).
Proof.
  apply (SetProxyFromURL_installs_fixed_proxy (Demo.env Demo.server) Demo.client
           (http.Transport.mk (Some (http.ProxyURL Demo.url)) None) "proxy.local");
    reflexivity.
Defined.

(** X4.  The last proxy set is the one in force: setting a proxy on the
    client left by an earlier SetProxy gives what setting it on the first
    client gives, whatever the transport; so DisableProxy undoes any
    SetProxy. *)
Theorem SetProxy_last_wins :
  forall (E : Env) (c : Client)
         (p q : option (http.Request.t -> option URL * option error)),
    SetProxy E q (fst (SetProxy E p c)) = SetProxy E q c /\
    DisableProxy E (fst (SetProxy E p c)) = DisableProxy E c.
Proof.
  intros E c p q.
  assert (H : forall q', SetProxy E q' (fst (SetProxy E p c)) = SetProxy E q' c).
  { intros q'. unfold SetProxy, httpTransport.
    destruct (http.Client.Transport (RawClient c)) as [t | id] eqn:Ht; simpl.
    - reflexivity.
    - rewrite ?Ht. reflexivity. }
  split; [apply H | apply H].
Qed.

(** X5.  AppendClientCerts puts the certificates after those the transport
    already has, in the order given, and keeps the verification flag; a
    transport without a TLS configuration gets a fresh one.  Appending in two
    calls is appending the concatenation in one. *)
Theorem AppendClientCerts_appends :
  forall (E : Env) (c : Client) (certs1 certs2 : list nat),
    AppendClientCerts E certs2 (fst (AppendClientCerts E certs1 c)) =
      AppendClientCerts E (certs1 ++ certs2) c /\
    (forall t,
       http.Client.Transport (RawClient c) = http.transportPtr t ->
       httpTransport E (fst (AppendClientCerts E certs1 c)) =
         inl (http.Transport.mk (http.Transport.Proxy t)
                (Some match http.Transport.TLSClientConfig t with
                      | Some (certs0, insecure) => (certs0 ++ certs1, insecure)
                      | None => (certs1, false)
                      end))).
Proof.
  intros E c certs1 certs2. split.
  - unfold AppendClientCerts, httpTransport.
    destruct (http.Client.Transport (RawClient c)) as [t | id] eqn:Ht; simpl.
    + rewrite <- app_assoc. reflexivity.
    + rewrite ?Ht. reflexivity.
  - intros t Ht. unfold AppendClientCerts, httpTransport. rewrite Ht. simpl.
    destruct (http.Transport.TLSClientConfig t) as [[certs0 insecure] |]; reflexivity.
Qed.

Lemma AppendClientCerts_appends_witness :
  httpTransport (Demo.env Demo.server)
    (fst (AppendClientCerts (Demo.env Demo.server) [1%nat; 2%nat] Demo.client)) =
    inl (http.Transport.mk (Some (http.ProxyURL Demo.url)) (Some ([1%nat; 2%nat], false))).
Proof.
  exact (proj2 (AppendClientCerts_appends (Demo.env Demo.server) Demo.client
                  [1%nat; 2%nat] [])
           (http.Transport.mk (Some (http.ProxyURL Demo.url)) None) eq_refl).
Defined.

(** X6.  DisableVerify turns verification off and keeps the certificates and
    the proxy; doing it twice is doing it once, and it leaves the same client
    whether it comes before or after AppendClientCerts. *)
Theorem DisableVerify_keeps_certificates :
  forall (E : Env) (c : Client) (certs : list nat),
    DisableVerify E (fst (DisableVerify E c)) = DisableVerify E c /\
    fst (DisableVerify E (fst (AppendClientCerts E certs c))) =
      fst (AppendClientCerts E certs (fst (DisableVerify E c))) /\
    (forall t,
       http.Client.Transport (RawClient c) = http.transportPtr t ->
       httpTransport E (fst (DisableVerify E c)) =
         inl (http.Transport.mk (http.Transport.Proxy t)
                (Some match http.Transport.TLSClientConfig t with
                      | Some (certs0, _) => (certs0, true)
                      | None => ([], true)
                      end))).
Proof.
  intros E c certs. split; [| split].
  - unfold DisableVerify, httpTransport.
    destruct (http.Client.Transport (RawClient c)) as [t | id] eqn:Ht; simpl.
    + reflexivity.
    + rewrite ?Ht. reflexivity.
  - unfold DisableVerify, AppendClientCerts, httpTransport.
    destruct (http.Client.Transport (RawClient c)) as [t | id] eqn:Ht; simpl.
    + reflexivity.
    + rewrite ?Ht. simpl. rewrite ?Ht. reflexivity.
  - intros t Ht. unfold DisableVerify, httpTransport. rewrite Ht. simpl.
    destruct (http.Transport.TLSClientConfig t) as [[certs0 insecure] |]; reflexivity.
Qed.

Lemma DisableVerify_keeps_certificates_witness :
  httpTransport (Demo.env Demo.server)
    (fst (DisableVerify (Demo.env Demo.server) Demo.client)) =
    inl (http.Transport.mk (Some (http.ProxyURL Demo.url)) (Some ([], true))).
Proof.
  exact (proj2 (proj2 (DisableVerify_keeps_certificates (Demo.env Demo.server)
                         Demo.client []))
           (http.Transport.mk (Some (http.ProxyURL Demo.url)) None) eq_refl).
Defined.

(** ** The cookie jar *)

(** X7.  Once DisableSession has removed the cookie jar, SetCookies fails
    with the Error of Op Client.SetCookies around ErrNilCookieJar for every
    URL, well formed or not, and calls no jar; FilterCookies and FilterCookie
    fail with ErrNilCookieJar itself, not wrapped. *)
Theorem DisableSession_disables_cookies :
  forall (E : Env) (J : CookieEnv) (c : Client) (url name : string)
         (cookies : list Cookie),
    SetCookies E J url cookies (DisableSession c) =
      ((DisableSession c, Some (Error "Client.SetCookies" (ErrNilCookieJar J))), None) /\
    FilterCookies E J url (DisableSession c) = ([], Some (ErrNilCookieJar J)) /\
    FilterCookie E J url name (DisableSession c) = (None, Some (ErrNilCookieJar J)).
Proof.
  intros. unfold SetCookies, FilterCookie, FilterCookies. simpl. auto.
Qed.

(** X8.  With a jar and a URL that does not parse, SetCookies returns the
    client with the Error of Op Client.SetCookies around the error of the
    parser and calls no jar, while FilterCookies returns the error of the
    parser as it is; with a URL that parses, SetCookies hands the parsed URL
    and the cookies to the jar of the client and reports no error. *)
Theorem SetCookies_parses_url_first :
  forall (E : Env) (J : CookieEnv) (c : Client) (jar : nat) (url : string)
         (cookies : list Cookie),
    http.Client.Jar (RawClient c) = Some jar ->
    match url_Parse E url with
    | inr e =>
        SetCookies E J url cookies c =
          ((c, Some (Error "Client.SetCookies" e)), None) /\
        FilterCookies E J url c = ([], Some e)
    | inl u =>
        SetCookies E J url cookies c = ((c, None), Some (jar, u, cookies)) /\
        FilterCookies E J url c = (Jar_Cookies J jar u, None)
    end.
Proof.
  intros E J c jar url cookies Hjar. unfold SetCookies, FilterCookies. rewrite Hjar.
  destruct (url_Parse E url); auto.
Qed.

Lemma SetCookies_parses_url_first_witness :
  SetCookies (Demo.env Demo.server) Sample.jars "::" [] Demo.client =
    ((Demo.client,
      Some (Error "Client.SetCookies" (errorString "parse: missing protocol scheme"))),
     None) /\
  FilterCookies (Demo.env Demo.server) Sample.jars "::" Demo.client =
    ([], Some (errorString "parse: missing protocol scheme")).
Proof.
  exact (SetCookies_parses_url_first (Demo.env Demo.server) Sample.jars Demo.client
           0%nat "::" [] eq_refl).
Defined.

Lemma firstNamed_Some (name : string) (cookies : list Cookie) (cookie : Cookie) :
  firstNamed name cookies = Some cookie <->
  exists before after,
    cookies = before ++ cookie :: after /\
    Name cookie = name /\
    Forall (fun other => Name other <> name) before.
Proof.
  induction cookies as [| first cookies IH]; simpl.
  - split; [discriminate |]. intros (before & after & H & _). destruct before; discriminate.
  - destruct (String.eqb_spec (Name first) name) as [Heq | Hne].
    + split.
      * intros [= <-]. exists [], cookies. auto.
      * intros (before & after & H & Hn & Hb).
        destruct before as [| b before]; simpl in H.
        -- injection H as <- _. reflexivity.
        -- injection H as <- _. inversion Hb. contradiction.
    + rewrite IH. split.
      * intros (before & after & -> & Hn & Hb).
        exists (first :: before), after. auto.
      * intros (before & after & H & Hn & Hb).
        destruct before as [| b before]; simpl in H.
        -- injection H as <- _. contradiction.
        -- injection H as <- ->. inversion Hb. eauto.
Qed.

Lemma firstNamed_None (name : string) (cookies : list Cookie) :
  firstNamed name cookies = None <-> Forall (fun other => Name other <> name) cookies.
Proof.
  induction cookies as [| first cookies IH]; simpl.
  - split; auto.
  - destruct (String.eqb_spec (Name first) name) as [Heq | Hne].
    + split; [discriminate |]. intros H. inversion H. contradiction.
    + rewrite IH. split; [auto |]. intros H. inversion H. assumption.
Qed.

(** X9.  With a jar and a URL that parses, FilterCookie returns the first
    cookie of that name among those the jar holds for the URL, with no
    error, and ErrNoCookie with no cookie exactly when the jar holds no
    cookie of that name. *)
Theorem FilterCookie_finds_first :
  forall (E : Env) (J : CookieEnv) (c : Client) (jar : nat) (url name : string) (u : URL),
    http.Client.Jar (RawClient c) = Some jar ->
    url_Parse E url = inl u ->
    (forall cookie,
       FilterCookie E J url name c = (Some cookie, None) <->
       exists before after,
         Jar_Cookies J jar u = before ++ cookie :: after /\
         Name cookie = name /\
         Forall (fun other => Name other <> name) before) /\
    (FilterCookie E J url name c = (None, Some (ErrNoCookie J)) <->
     Forall (fun other => Name other <> name) (Jar_Cookies J jar u)).
Proof.
  intros E J c jar url name u Hjar Hparse.
  unfold FilterCookie, FilterCookies. rewrite Hjar, Hparse. split.
  - intros cookie. rewrite <- firstNamed_Some.
    destruct (firstNamed name (Jar_Cookies J jar u)); split; congruence.
  - rewrite <- firstNamed_None.
    destruct (firstNamed name (Jar_Cookies J jar u)); split; congruence.
Qed.

Lemma FilterCookie_finds_first_witness :
  FilterCookie (Demo.env Demo.server) Sample.jars "example.org" "sid" Demo.client =
    (Some {| Name := "sid"; Value := "1" |}, None).
Proof.
  apply (proj1 (FilterCookie_finds_first (Demo.env Demo.server) Sample.jars Demo.client
                  0%nat "example.org" "sid"
                  {| Scheme := "http"; Host := "example.org"; Path := ""; RawQuery := "" |}
                  eq_refl eq_refl)).
  exists [], [{| Name := "lang"; Value := "en" |}; {| Name := "sid"; Value := "2" |}].
  repeat split. constructor.
Defined.

(** ** The accessors of the response wrapper *)

Lemma keepsHeap_ret {A} (a : A) : keepsHeap (ret a).
Proof. intros w a' w' [= _ <-]. reflexivity. Qed.

Lemma keepsHeap_panic {A} : keepsHeap (@panic A).
Proof. intros w a w' H. discriminate H. Qed.

Lemma keepsHeap_bind {A B} (m : M A) (k : A -> M B) :
  keepsHeap m -> (forall a, keepsHeap (k a)) -> keepsHeap (bind m k).
Proof.
  intros Hm Hk w b w' H. unfold bind in H.
  destruct (m w) as [[a w1] |] eqn:Hmw; [| discriminate].
  rewrite (Hk a _ _ _ H). exact (Hm _ _ _ Hmw).
Qed.

Lemma keepsHeap_emit (e : Event) : keepsHeap (emit e).
Proof. intros w a w' [= _ <-]. reflexivity. Qed.

Lemma keepsHeap_ask : keepsHeap ask.
Proof. intros w a w' [= _ <-]. reflexivity. Qed.

Lemma keepsHeap_load (r : loc) : keepsHeap (load r).
Proof.
  intros w a w' H. unfold load in H.
  destruct (heap w !! r); [| discriminate]. injection H as _ <-. reflexivity.
Qed.

Lemma keepsHeap_deref {A} (p : option A) : keepsHeap (deref p).
Proof. destruct p; [apply keepsHeap_ret | apply keepsHeap_panic]. Qed.

(** Breaks a computation into its steps, none of which touches the store. *)
Ltac keeps :=
  repeat first
    [ apply keepsHeap_ret | apply keepsHeap_panic | apply keepsHeap_emit
    | apply keepsHeap_ask | apply keepsHeap_load | apply keepsHeap_deref
    | apply keepsHeap_bind; [| intros ?]
    | match goal with
      | |- keepsHeap (match ?x with _ => _ end) => destruct x
      | |- keepsHeap (let (_, _) := ?x in _) => destruct x
      | |- keepsHeap (if ?b then _ else _) => destruct b
      end ].

Section Accessors.

Variable E : Env.

Lemma keepsHeap_Read b : keepsHeap (Read E b).
Proof. unfold Read. destruct b; keeps. Qed.

Lemma keepsHeap_Close b : keepsHeap (Close E b).
Proof. unfold Close. destruct b; keeps. Qed.

Lemma keepsHeap_Copy dst b : keepsHeap (Copy E dst b).
Proof. unfold Copy. destruct b; keeps. Qed.

Lemma keepsHeap_printHeader wr mark keys h : keepsHeap (printHeader E wr mark keys h).
Proof.
  induction keys as [| [k vs] keys IH]; simpl; [apply keepsHeap_ret |].
  apply keepsHeap_bind; [apply keepsHeap_emit | intros _; exact IH].
Qed.

Lemma keepsHeap_Raw r : keepsHeap (Raw E r).
Proof.
  unfold Raw. apply keepsHeap_bind; [keeps | intros resp].
  destruct (Err resp); [keeps |].
  apply keepsHeap_bind; [keeps | intros raw].
  apply keepsHeap_bind; [apply keepsHeap_Read | intros res].
  apply keepsHeap_bind; [apply keepsHeap_Close | intros _; keeps].
Qed.

Lemma keepsHeap_Cookies r : keepsHeap (Cookies E r).
Proof. unfold Cookies. keeps. Qed.

Lemma keepsHeap_Save filename perm r : keepsHeap (Save E filename perm r).
Proof.
  unfold Save, OpenFile. apply keepsHeap_bind; [keeps | intros resp].
  destruct (Err resp); [keeps |].
  apply keepsHeap_bind; [keeps | intros ferr].
  destruct ferr; [keeps |].
  apply keepsHeap_bind; [keeps | intros raw].
  apply keepsHeap_bind; [apply keepsHeap_Copy | intros [data e]].
  apply keepsHeap_bind; [apply keepsHeap_Close | intros _; keeps].
Qed.

Lemma keepsHeap_printRequestBody wr req : keepsHeap (printRequestBody E wr req).
Proof.
  unfold printRequestBody, Fprint.
  destruct (http.Request.GetBody req) as [getBody |]; [| keeps].
  destruct (negb _); [| keeps].
  apply keepsHeap_bind; [keeps | intros _].
  destruct (getBody tt) as [rc [e |]]; [keeps |].
  apply keepsHeap_bind; [keeps | intros rc'].
  apply keepsHeap_bind; [apply keepsHeap_Copy | intros [data e]].
  destruct e; keeps.
Qed.

Lemma keepsHeap_closeDeferred rc : keepsHeap (closeDeferred E rc).
Proof.
  unfold closeDeferred. destruct rc; [| keeps].
  apply keepsHeap_bind; [apply keepsHeap_Close | intros _; keeps].
Qed.

Lemma keepsHeap_Verbose wr r : keepsHeap (Verbose E wr r).
Proof.
  unfold Verbose, Fprint. apply keepsHeap_bind; [keeps | intros resp].
  destruct (Err resp); [keeps |].
  apply keepsHeap_bind; [keeps | intros raw].
  apply keepsHeap_bind; [keeps | intros req].
  apply keepsHeap_bind; [keeps | intros _].
  apply keepsHeap_bind; [keeps | intros _].
  apply keepsHeap_bind; [apply keepsHeap_printHeader | intros _].
  apply keepsHeap_bind; [keeps | intros _].
  apply keepsHeap_bind; [apply keepsHeap_printRequestBody | intros [rc early]].
  destruct early.
  { apply keepsHeap_bind; [apply keepsHeap_closeDeferred | intros _; keeps]. }
  apply keepsHeap_bind; [keeps | intros _].
  apply keepsHeap_bind; [apply keepsHeap_printHeader | intros _].
  apply keepsHeap_bind; [keeps | intros _].
  apply keepsHeap_bind; [apply keepsHeap_Copy | intros [data e]].
  apply keepsHeap_bind; [apply keepsHeap_Close | intros _].
  apply keepsHeap_bind; [apply keepsHeap_closeDeferred | intros _; keeps].
Qed.

End Accessors.

(** X10.  Resolve, Raw, Text, JSON, Cookies, Cookie, Save and Verbose never
    write to a Response: whenever one of them returns, the store of
    Responses is the one it was called with.  An error met while reading,
    decoding, copying or looking up a cookie goes to the caller only; it is
    not kept as the error of the Response. *)
Theorem accessors_never_store :
  forall (E : Env) (r : loc),
    keepsHeap (Resolve r) /\
    keepsHeap (Raw E r) /\
    keepsHeap (Text E r) /\
    (forall V dec (v : V), keepsHeap (JSON E dec v r)) /\
    keepsHeap (Cookies E r) /\
    (forall name, keepsHeap (Cookie_ E name r)) /\
    (forall filename perm, keepsHeap (Save E filename perm r)) /\
    (forall wr, keepsHeap (Verbose E wr r)).
Proof.
  intros E r. repeat split; intros.
  - unfold Resolve. keeps.
  - apply keepsHeap_Raw.
  - unfold Text. apply keepsHeap_bind; [apply keepsHeap_Raw | intros [b e]; keeps].
  - unfold JSON. apply keepsHeap_bind; [keeps | intros resp].
    destruct (Err resp); [keeps |].
    apply keepsHeap_bind; [keeps | intros raw].
    apply keepsHeap_bind; [keeps | intros w0].
    apply keepsHeap_bind; [keeps | intros _].
    apply keepsHeap_bind; [apply keepsHeap_Close | intros _; keeps].
  - apply keepsHeap_Cookies.
  - unfold Cookie_. apply keepsHeap_bind; [apply keepsHeap_Cookies | intros [cs e]].
    keeps.
  - apply keepsHeap_Save.
  - apply keepsHeap_Verbose.
Qed.

(** X11.  On an error-free Response whose body is not a nil pointer, Raw
    reads the body and then closes it, once each, and returns the bytes and
    the error of the read; the error of the close is dropped.  Text does the
    same and returns the bytes as a string; JSON lets the decoder read, closes
    the body and returns what the decoder returned. *)
Theorem Raw_reads_then_closes :
  forall (E : Env) (w : World) (r : loc) (resp : Response) (raw : http.Response.t),
    heap w !! r = Some resp ->
    Err resp = None ->
    RawResponse resp = Some raw ->
    http.Response.Body raw <> nilGzipReader ->
    Raw E r w =
      Some (io_ReadAll E w (http.Response.Body raw),
            log (EvClose (http.Response.Body raw)) (log (EvRead (http.Response.Body raw)) w)) /\
    Text E r w =
      Some ((String.string_of_list_byte (fst (io_ReadAll E w (http.Response.Body raw))),
             snd (io_ReadAll E w (http.Response.Body raw))),
            log (EvClose (http.Response.Body raw)) (log (EvRead (http.Response.Body raw)) w)) /\
    (forall V dec (v : V),
       JSON E dec v r w =
         Some (dec w (http.Response.Body raw) v,
               log (EvClose (http.Response.Body raw))
                 (log (EvRead (http.Response.Body raw)) w))).
Proof.
  intros E w r resp raw Hr He Hraw Hbody.
  assert (HRaw : Raw E r w =
            Some (io_ReadAll E w (http.Response.Body raw),
                  log (EvClose (http.Response.Body raw))
                    (log (EvRead (http.Response.Body raw)) w))).
  { unfold Raw. step Hr. rewrite He, Hraw. unfold deref. rewrite bind_ret.
    unfold Read, Close.
    destruct (http.Response.Body raw); [| | contradiction]; reflexivity. }
  split; [exact HRaw |]. split.
  - unfold Text. rewrite (bind_Some _ _ _ _ _ HRaw).
    destruct (io_ReadAll E w (http.Response.Body raw)); reflexivity.
  - intros V dec v. unfold JSON. step Hr. rewrite He, Hraw. unfold deref.
    rewrite bind_ret, bind_ask, bind_emit. unfold Close.
    destruct (http.Response.Body raw); [| | contradiction]; reflexivity.
Qed.

Lemma Raw_reads_then_closes_witness :
  Raw (Demo.env Demo.server) 0%nat (Demo.world Sample.ok) =
    Some (([], None),
          log (EvClose (stream 0)) (log (EvRead (stream 0)) (Demo.world Sample.ok))).
Proof.
  apply (proj1 (Raw_reads_then_closes (Demo.env Demo.server) (Demo.world Sample.ok) 0%nat
                  Sample.ok (Demo.answer 200 [] 4) eq_refl eq_refl eq_refl
                  ltac:(discriminate))).
Defined.

(** X12.  On an error-free Response, Cookies returns the cookies of the raw
    response, or the error "sreq: cookies not present" when there is none;
    Cookie returns the first of them with the name asked for, the error
    "sreq: named cookie not present" when there are cookies but none of that
    name, and the error of Cookies when there is no cookie at all.  Neither
    touches the body. *)
Theorem Cookie_finds_first :
  forall (E : Env) (w : World) (r : loc) (resp : Response) (raw : http.Response.t)
         (name : string),
    heap w !! r = Some resp ->
    Err resp = None ->
    RawResponse resp = Some raw ->
    (http_Response_Cookies E raw = [] ->
     Cookies E r w = Some (([], Some (errorString "sreq: cookies not present")), w) /\
     Cookie_ E name r w = Some ((None, Some (errorString "sreq: cookies not present")), w)) /\
    (http_Response_Cookies E raw <> [] ->
     Cookies E r w = Some ((http_Response_Cookies E raw, None), w) /\
     (forall cookie,
        Cookie_ E name r w = Some ((Some cookie, None), w) <->
        exists before after,
          http_Response_Cookies E raw = before ++ cookie :: after /\
          Name cookie = name /\
          Forall (fun other => Name other <> name) before) /\
     (Cookie_ E name r w =
        Some ((None, Some (errorString "sreq: named cookie not present")), w) <->
      Forall (fun other => Name other <> name) (http_Response_Cookies E raw))).
Proof.
  intros E w r resp raw name Hr He Hraw.
  assert (Hfind : forall cs, List.find (fun c => String.eqb (Name c) name) cs =
                             firstNamed name cs).
  { induction cs as [| c cs IH]; simpl; [reflexivity |]. rewrite IH. reflexivity. }
  split.
  - intros Hnone.
    assert (HC : Cookies E r w =
              Some (([], Some (errorString "sreq: cookies not present")), w)).
    { unfold Cookies. step Hr. rewrite He, Hraw. unfold deref. rewrite bind_ret, Hnone.
      reflexivity. }
    split; [exact HC |]. unfold Cookie_. rewrite (bind_Some _ _ _ _ _ HC). reflexivity.
  - intros Hsome.
    assert (HC : Cookies E r w = Some ((http_Response_Cookies E raw, None), w)).
    { unfold Cookies. step Hr. rewrite He, Hraw. unfold deref. rewrite bind_ret.
      destruct (http_Response_Cookies E raw); [contradiction | reflexivity]. }
    split; [exact HC |]. unfold Cookie_. rewrite (bind_Some _ _ _ _ _ HC).
    rewrite Hfind. split.
    + intros cookie. rewrite <- firstNamed_Some.
      destruct (firstNamed name (http_Response_Cookies E raw));
        unfold ret; split; congruence.
    + rewrite <- firstNamed_None.
      destruct (firstNamed name (http_Response_Cookies E raw));
        unfold ret; split; congruence.
Qed.

Lemma Cookie_finds_first_witness :
  Cookies (Demo.env Demo.server) 0%nat (Demo.world Sample.ok) =
    Some (([], Some (errorString "sreq: cookies not present")), Demo.world Sample.ok) /\
  Cookie_ (Demo.env Demo.server) "sid" 0%nat (Demo.world Sample.ok) =
    Some ((None, Some (errorString "sreq: cookies not present")), Demo.world Sample.ok).
Proof.
  apply (proj1 (Cookie_finds_first (Demo.env Demo.server) (Demo.world Sample.ok) 0%nat
                  Sample.ok (Demo.answer 200 [] 4) "sid" eq_refl eq_refl eq_refl)).
  reflexivity.
Defined.

Lemma status_assertions_core (w w2 : World) (r : loc) (a b : Z) :
  (forall code, EnsureStatus code r w = Some (r, w) \/ EnsureStatus code r w = Some (r, w2)) ->
  (EnsureStatus2xx r w = Some (r, w) \/ EnsureStatus2xx r w = Some (r, w2)) ->
  (forall code, EnsureStatus code r w2 = Some (r, w2)) ->
  EnsureStatus2xx r w2 = Some (r, w2) ->
  bind (EnsureStatus a r) (fun _ => EnsureStatus a r) w = EnsureStatus a r w /\
  bind (EnsureStatus2xx r) (fun _ => EnsureStatus2xx r) w = EnsureStatus2xx r w /\
  bind (EnsureStatus a r) (fun _ => EnsureStatus b r) w =
    bind (EnsureStatus b r) (fun _ => EnsureStatus a r) w /\
  bind (EnsureStatus a r) (fun _ => EnsureStatus2xx r) w =
    bind (EnsureStatus2xx r) (fun _ => EnsureStatus a r) w.
Proof.
  intros Hcase Hcase2 HA HB. unfold bind.
  destruct (Hcase a) as [Ha | Ha], (Hcase b) as [Hb | Hb], Hcase2 as [Hc | Hc];
    rewrite ?Ha, ?Hb, ?Hc, ?HA, ?HB, ?Ha, ?Hb, ?Hc; auto.
Qed.

(** X13.  The status assertions can be repeated and reordered: asserting
    the same status twice is asserting it once, and two assertions, with
    EnsureStatus or EnsureStatus2xx, leave the same Response in either order.
    This holds in every world, a Response with a stored error or with no raw
    response included. *)
Theorem status_assertions_commute :
  forall (w : World) (r : loc) (a b : Z),
    bind (EnsureStatus a r) (fun _ => EnsureStatus a r) w = EnsureStatus a r w /\
    bind (EnsureStatus2xx r) (fun _ => EnsureStatus2xx r) w = EnsureStatus2xx r w /\
    bind (EnsureStatus a r) (fun _ => EnsureStatus b r) w =
      bind (EnsureStatus b r) (fun _ => EnsureStatus a r) w /\
    bind (EnsureStatus a r) (fun _ => EnsureStatus2xx r) w =
      bind (EnsureStatus2xx r) (fun _ => EnsureStatus a r) w.
Proof.
  intros w r a b.
  destruct (heap w !! r) as [resp |] eqn:Hr.
  2: { unfold bind, EnsureStatus, EnsureStatus2xx, load. unfold bind.
       rewrite Hr. repeat split. }
  destruct (Err resp) as [e |] eqn:He.
  { apply (status_assertions_core w w); intros;
      eauto using EnsureStatus_stored_error, EnsureStatus2xx_stored_error. }
  destruct (RawResponse resp) as [raw |] eqn:Hraw.
  2: { unfold bind, EnsureStatus, EnsureStatus2xx, load. unfold bind.
       rewrite Hr, He, Hraw. repeat split. }
  pose proof (asserted_lookup w r resp raw Hr) as Hl.
  assert (Hse : Err (set_Err (Some (badStatus (http.Response.StatusCode raw))) resp) =
                Some (badStatus (http.Response.StatusCode raw))) by reflexivity.
  apply (status_assertions_core w (asserted w r resp raw)).
  - intros code. destruct (Z.eq_dec (http.Response.StatusCode raw) code).
    + left. eapply EnsureStatus_match; eauto.
    + right. eapply EnsureStatus_mismatch; eauto.
  - destruct (decide (200 <= http.Response.StatusCode raw <= 299)).
    + left. eapply EnsureStatus2xx_inside; eauto.
    + right. eapply EnsureStatus2xx_outside; eauto.
  - intros code. exact (EnsureStatus_stored_error _ _ _ _ Hl Hse code).
  - exact (EnsureStatus2xx_stored_error _ _ _ _ Hl Hse).
Qed.

(** X14.  On an error-free Response, Save opens the file before it looks at
    the body: when the open fails it returns that error and the body is
    neither read nor closed; when it succeeds the body is copied to the
    file, the body is closed, then the file, and Save returns the error of
    the copy. *)
Theorem Save_opens_before_reading :
  forall (E : Env) (w : World) (r : loc) (resp : Response) (raw : http.Response.t)
         (filename : string) (perm : Z),
    heap w !! r = Some resp ->
    Err resp = None ->
    RawResponse resp = Some raw ->
    http.Response.Body raw <> nilGzipReader ->
    match os_OpenFile E w filename perm with
    | Some e => Save E filename perm r w = Some (Some e, log (EvOpenFile filename perm) w)
    | None =>
        exists data e w',
          io_Copy E (log (EvOpenFile filename perm) w) (toFile filename)
            (http.Response.Body raw) = (data, e) /\
          Save E filename perm r w = Some (e, w') /\
          trace w' =
            trace w ++
              [EvOpenFile filename perm; EvRead (http.Response.Body raw);
               EvWrite (toFile filename) (String.string_of_list_byte data);
               EvClose (http.Response.Body raw); EvCloseFile filename]
    end.
Proof.
  intros E w r resp raw filename perm Hr He Hraw Hbody.
  assert (HO : OpenFile E filename perm w =
            Some (os_OpenFile E w filename perm, log (EvOpenFile filename perm) w))
    by reflexivity.
  unfold Save. step Hr. rewrite He, (bind_Some _ _ _ _ _ HO).
  destruct (os_OpenFile E w filename perm) as [e |]; [reflexivity |].
  rewrite Hraw. unfold deref. rewrite bind_ret.
  destruct (io_Copy E (log (EvOpenFile filename perm) w) (toFile filename)
              (http.Response.Body raw)) as [data e] eqn:Hcopy.
  unfold Copy, Close.
  destruct (http.Response.Body raw) as [id | under |]; [| | contradiction];
    exists data, e; eexists; (split; [reflexivity |]);
    unfold bind, ask, emit, ret; rewrite Hcopy; cbn [fst snd];
    (split; [reflexivity |]);
    unfold log; cbn [trace]; rewrite <- !app_assoc; reflexivity.
Qed.

Lemma Save_opens_before_reading_witness :
  exists data e w',
    io_Copy (Demo.env Demo.server) (log (EvOpenFile "out" 420) (Demo.world Sample.ok))
      (toFile "out") (stream 0) = (data, e) /\
    Save (Demo.env Demo.server) "out" 420 0%nat (Demo.world Sample.ok) = Some (e, w') /\
    trace w' =
      trace (Demo.world Sample.ok) ++
        [EvOpenFile "out" 420; EvRead (stream 0);
         EvWrite (toFile "out") (String.string_of_list_byte data);
         EvClose (stream 0); EvCloseFile "out"].
Proof.
  exact (Save_opens_before_reading (Demo.env Demo.server) (Demo.world Sample.ok) 0%nat
           Sample.ok (Demo.answer 200 [] 4) "out" 420 eq_refl eq_refl eq_refl
           ltac:(discriminate)).
Defined.

(** X15.  A Response with no error and no raw response, the zero value,
    makes every accessor but Resolve panic on the nil raw response: Raw,
    Text, JSON, Cookies, Cookie, the three status assertions and Verbose
    do not return, and neither does Save once the file could be opened. *)
Theorem zero_Response_panics :
  forall (E : Env) (w : World) (r : loc),
    heap w !! r = Some zeroResponse ->
    Resolve r w = Some ((None, None), w) /\
    Raw E r w = None /\
    Text E r w = None /\
    (forall V dec (v : V), JSON E dec v r w = None) /\
    Cookies E r w = None /\
    (forall name, Cookie_ E name r w = None) /\
    (forall code, EnsureStatus code r w = None) /\
    EnsureStatus2xx r w = None /\
    EnsureStatusOk r w = None /\
    (forall wr, Verbose E wr r w = None) /\
    (forall filename perm,
       os_OpenFile E w filename perm = None -> Save E filename perm r w = None).
Proof.
  intros E w r Hr.
  assert (HRaw : Raw E r w = None) by (unfold Raw; step Hr; reflexivity).
  assert (HC : Cookies E r w = None) by (unfold Cookies; step Hr; reflexivity).
  assert (HE : forall code, EnsureStatus code r w = None)
    by (intros; unfold EnsureStatus; step Hr; reflexivity).
  repeat split; intros.
  - unfold Resolve. step Hr. reflexivity.
  - exact HRaw.
  - unfold Text, bind. rewrite HRaw. reflexivity.
  - unfold JSON. step Hr. reflexivity.
  - exact HC.
  - unfold Cookie_, bind. rewrite HC. reflexivity.
  - apply HE.
  - unfold EnsureStatus2xx. step Hr. reflexivity.
  - apply HE.
  - unfold Verbose. step Hr. reflexivity.
  - assert (HO : OpenFile E filename perm w =
              Some (os_OpenFile E w filename perm, log (EvOpenFile filename perm) w))
      by reflexivity.
    unfold Save. step Hr. cbn [Err zeroResponse].
    rewrite (bind_Some _ _ _ _ _ HO), H. reflexivity.
Qed.

Lemma zero_Response_panics_witness :
  Raw (Demo.env Demo.server) 0%nat (Demo.world zeroResponse) = None /\
  EnsureStatusOk 0%nat (Demo.world zeroResponse) = None.
Proof.
  pose proof (zero_Response_panics (Demo.env Demo.server) (Demo.world zeroResponse)
                0%nat eq_refl) as (_ & H1 & _ & _ & _ & _ & _ & _ & H2 & _).
  split; [exact H1 | exact H2].
Defined.

(** X16.  When the request of the raw response has a GetBody and a content
    length other than zero, and GetBody fails, Verbose returns that error
    after the lines of the request.  What it has done by then is write, to
    the writer it was given and in this order, the request line, the Host
    line, one line for each key of the request header and the closing line,
    and call GetBody: no line of the response is written and the body of the
    response is neither read nor closed. *)
Theorem Verbose_stops_when_GetBody_fails :
  forall (E : Env) (w : World) (r : loc) (resp : Response) (raw : http.Response.t)
         (req : http.Request.t) (wr : nat)
         (getBody : unit -> option ReadCloser * option error) (e : error),
    heap w !! r = Some resp ->
    Err resp = None ->
    RawResponse resp = Some raw ->
    http.Response.Request raw = Some req ->
    http.Request.GetBody req = Some getBody ->
    http.Request.ContentLength req <> 0 ->
    snd (getBody tt) = Some e ->
    exists w',
      Verbose E wr r w = Some (Some e, w') /\
      trace w' =
        trace w ++ map (EvWrite (toWriter wr)) (requestLines E req) ++ [EvGetBody] /\
      heap w' = heap w /\
      now w' = now w.
Proof.
  intros E w r resp raw req wr getBody e Hr He Hraw Hreq Hget Hlen Herr.
  assert (Hhdr : forall keys h w0,
            exists w1,
              printHeader E wr ">" keys h w0 = Some (tt, w1) /\
              heap w1 = heap w0 /\ now w1 = now w0 /\
              trace w1 =
                trace w0 ++
                  map (EvWrite (toWriter wr))
                    (map (fun kv => ">" +:+ " " +:+ fst kv +:+ ": " +:+
                                    Header_Get E h (fst kv) +:+ crlf) keys)).
  { induction keys as [| [k vs] keys IH]; intros h w0; simpl.
    - exists w0. rewrite app_nil_r. auto.
    - unfold Fprint. rewrite bind_emit.
      destruct (IH h (log (EvWrite (toWriter wr)
                  (">" +:+ " " +:+ k +:+ ": " +:+ Header_Get E h k +:+ crlf)) w0))
        as (w1 & Hrun & Hheap & Hnow & Htr).
      exists w1. split; [exact Hrun |]. split; [exact Hheap |]. split; [exact Hnow |].
      rewrite Htr. unfold log. cbn [trace].
      rewrite <- app_assoc. reflexivity. }
  assert (HPB : forall w0,
            printRequestBody E wr req w0 = Some ((None, Some e), log EvGetBody w0)).
  { intros w0. unfold printRequestBody. rewrite Hget.
    rewrite (proj2 (Z.eqb_neq _ _) Hlen). cbn [negb]. rewrite bind_emit.
    destruct (getBody tt) as [rc e']. simpl in Herr. subst e'. reflexivity. }
  unfold Verbose. step Hr. rewrite He, Hraw. unfold deref at 1. rewrite bind_ret, Hreq.
  unfold deref. rewrite bind_ret. unfold Fprint. rewrite !bind_emit.
  match goal with
  | |- context [bind (printHeader E wr _ ?k ?h) _ ?w0] =>
      destruct (Hhdr k h w0) as (w1 & Hrun & Hheap & Hnow & Htr);
      rewrite (bind_Some _ _ _ _ _ Hrun)
  end.
  rewrite bind_emit, (bind_Some _ _ _ _ _ (HPB _)). cbn [closeDeferred]. rewrite bind_ret.
  eexists. split; [reflexivity |].
  unfold log in *. cbn [trace heap now] in *. rewrite Htr.
  split; [| split; [exact Hheap | exact Hnow]].
  unfold requestLines. rewrite !map_app. cbn [map app].
  repeat rewrite <- app_assoc. cbn [app]. reflexivity.
Qed.

Lemma Verbose_stops_when_GetBody_fails_witness :
  exists w',
    Verbose (Demo.env Demo.server) 1%nat 0%nat (Demo.world Sample.replied) =
      Some (Some (errorString "body gone"), w') /\
    trace w' =
      trace (Demo.world Sample.replied) ++
        map (EvWrite (toWriter 1))
          (requestLines (Demo.env Demo.server) Sample.brokenRequest) ++ [EvGetBody] /\
    heap w' = heap (Demo.world Sample.replied) /\
    now w' = now (Demo.world Sample.replied).
Proof.
  eapply (Verbose_stops_when_GetBody_fails (Demo.env Demo.server)
            (Demo.world Sample.replied) 0%nat Sample.replied _ Sample.brokenRequest 1%nat);
    try reflexivity.
  discriminate.
Defined.

(** The lines of that run. *)
Example Verbose_lines_of_a_broken_request :
  requestLines (Demo.env Demo.server) Sample.brokenRequest =
    [ "> POST / HTTP/1.1" +:+ crlf; "> Host: example.org" +:+ crlf;
      "> Accept: */*" +:+ crlf; ">" +:+ crlf ].
Proof. reflexivity. Qed.

(** ** More on the retry loop *)

(** X17.  drainBody returns the bytes of the body only when both the read
    and the close succeed.  When the read fails it returns that error and no
    buffer, and the body is left open; when the close fails it returns that
    error and no buffer, though the bytes were read. *)
Theorem drainBody_needs_read_and_close :
  forall (E : Env) (body : ReadCloser) (w : World),
    body <> nilGzipReader ->
    match io_ReadAll E w body with
    | (_, Some e) =>
        drainBody E body w = Some ((None, Some e), log (EvRead body) w)
    | (data, None) =>
        match io_Close E (log (EvRead body) w) body with
        | Some e =>
            drainBody E body w =
              Some ((None, Some e), log (EvClose body) (log (EvRead body) w))
        | None =>
            drainBody E body w =
              Some ((Some data, None), log (EvClose body) (log (EvRead body) w))
        end
    end.
Proof.
  intros E body w Hbody. unfold drainBody, Read, Close.
  destruct body as [id | under |]; [| | contradiction];
    unfold bind, ask, emit, ret;
    match goal with
    | |- context [io_ReadAll E ?w0 ?b] => destruct (io_ReadAll E w0 b) as [data [e |]]
    end; try reflexivity;
    match goal with
    | |- context [io_Close E ?w0 ?b] => destruct (io_Close E w0 b)
    end; reflexivity.
Qed.

Lemma drainBody_needs_read_and_close_witness :
  drainBody (Demo.env Demo.server) (stream 1) Demo.start =
    Some ((Some [], None), log (EvClose (stream 1)) (log (EvRead (stream 1)) Demo.start)).
Proof.
  exact (drainBody_needs_read_and_close (Demo.env Demo.server) (stream 1) Demo.start
           ltac:(discriminate)).
Defined.

(** X18.  When a transport error comes back, [do] returns it with the raw
    response the transport gave and leaves the deferred errors of the request
    waiting.  When the transport reports no error and a deferred value waits,
    [do] takes exactly that one value from the channel and returns it as the
    error of the attempt, with the raw response as the transport left it: the
    body is not handed to gzip.NewReader, and a nil value taken from the
    channel counts as no error. *)
Theorem do_error_precedence :
  forall (E : Env) (c : Client) (req : Request) (w : World)
         (resp : option http.Response.t) (dt : Z),
    (forall e,
       http_Client_Do E (RawClient c) w (RawRequest req) = ((resp, Some e), dt) ->
       do E c req w = Some ((req, (resp, Some e)), answered w (RawRequest req) dt)) /\
    (forall v pending,
       http_Client_Do E (RawClient c) w (RawRequest req) = ((resp, None), dt) ->
       err req = v :: pending ->
       do E c req w =
         Some ((set_err pending req, (resp, v)), answered w (RawRequest req) dt) /\
       decoded (trace (answered w (RawRequest req) dt)) = decoded (trace w)).
Proof.
  intros E c req w resp dt. split.
  - intros e Hdo. exact (do_transport_error E c req w resp e dt Hdo).
  - intros v pending Hdo Hq. split.
    + exact (do_deferred_error E c req w resp v pending dt Hdo Hq).
    + unfold answered, log, set_now. cbn [trace]. rewrite decoded_app. simpl.
      apply app_nil_r.
Qed.

Lemma do_error_precedence_witness :
  do (Demo.env Demo.deadServer) Demo.client
    (set_err [Some Demo.deferred] (Demo.request Demo.get None None)) Demo.start =
    Some ((set_err [Some Demo.deferred] (Demo.request Demo.get None None),
           (None, Some (errorString "dial tcp: connection refused"))),
          answered Demo.start Demo.get 3).
Proof.
  exact (proj1 (do_error_precedence (Demo.env Demo.deadServer) Demo.client
                  (set_err [Some Demo.deferred] (Demo.request Demo.get None None))
                  Demo.start None 3)
           (errorString "dial tcp: connection refused") eq_refl).
Defined.

Section LoopBounds.

Variable E : Env.
Hypothesis Hok : transportOk E.
Variables (c : Client) (retry : Retry) (ctx : Context) (resp : loc).

Lemma attempt_one_exchange (i : Z) (req : Request) (w : World) (r0 : Response) :
  heap w !! resp = Some r0 ->
  exists fl req' w' r1,
    attempt E c retry ctx resp i req w = Some ((fl, req'), w') /\
    heap w' !! resp = Some r1 /\
    sent (trace w') = sent (trace w) ++ [RawRequest req] /\
    http.Request.ctx (RawRequest req') = http.Request.ctx (RawRequest req) /\
    (fl = continues -> i <> MaxAttempts retry - 1).
Proof.
  intros Hr.
  destruct (attempt_runs E Hok c retry ctx resp i req w r0 Hr)
    as (req1 & raw & e & w1 & fl & req' & w' & tr & ef & Hdo & Hat & Htr & Hheap & Hcase).
  destruct (do_trace E Hok _ _ _ _ _ _ _ Hdo) as (Hraw & _ & Hsent & _).
  destruct (attemptCase_quiet _ _ _ _ _ _ _ _ _ _ _ Hcase) as [Hq _].
  exists fl, req', w'. eexists. split; [exact Hat |]. split; [exact Hheap |].
  split; [rewrite Htr, sent_app, Hq, app_nil_r; exact Hsent |].
  assert (Hreset : forall r, http.Request.ctx (resetRaw r) = http.Request.ctx r).
  { intros r. unfold resetRaw. destruct (http.Request.GetBody r); reflexivity. }
  destruct Hcase; split; try congruence; try discriminate; auto;
    rewrite ?H2, ?Hreset; congruence.
Qed.

(** The loop from index [i] on makes at most MaxAttempts - i exchanges, at
    least one when an attempt is left, each bound to the context the request
    carries. *)
Lemma attempts_bounded (fuel : nat) :
  forall i req w r0,
    heap w !! resp = Some r0 ->
    (Z.to_nat (MaxAttempts retry - i) < fuel)%nat ->
    exists req' w' new,
      attempts E fuel c retry ctx resp i req w = Some (req', w') /\
      sent (trace w') = sent (trace w) ++ new /\
      (length new <= Z.to_nat (MaxAttempts retry - i))%nat /\
      (i < MaxAttempts retry -> (1 <= length new)%nat) /\
      Forall (fun r => http.Request.ctx r = http.Request.ctx (RawRequest req)) new /\
      exists r', heap w' !! resp = Some r'.
Proof.
  induction fuel as [| fuel IH]; intros i req w r0 Hr Hfuel; [lia |].
  cbn [attempts]. destruct (Z.ltb_spec i (MaxAttempts retry)) as [Hlt | Hge].
  2: { exists req, w, []. rewrite app_nil_r. split; [reflexivity |]. split; [reflexivity |].
       simpl. split; [lia |]. split; [lia |]. split; [constructor | eauto]. }
  destruct (attempt_one_exchange i req w r0 Hr)
    as (fl & req1 & w1 & r1 & Hat & Hheap & Hsent & Hctx & Hcont).
  rewrite (bind_Some _ _ _ _ _ Hat).
  destruct fl.
  - exists req1, w1, [RawRequest req]. split; [reflexivity |]. split; [exact Hsent |].
    simpl. split; [lia |]. split; [lia |]. split; [repeat constructor | eauto].
  - destruct (IH (i + 1) req1 w1 r1 Hheap ltac:(lia))
      as (req' & w' & new & Hrun & Hsent' & Hle & _ & Hall & Halloc).
    exists req', w', (RawRequest req :: new). split; [exact Hrun |].
    split; [rewrite Hsent', Hsent, <- app_assoc; reflexivity |].
    simpl. split; [lia |]. split; [lia |]. split; [| exact Halloc].
    constructor; [reflexivity |]. rewrite <- Hctx. exact Hall.
Qed.

End LoopBounds.

(** X19.  Whatever the Trigger and the context do, [doWithRetry] returns
    after at most MaxAttempts exchanges, and after at least one when
    MaxAttempts is 1 or more. *)
Theorem doWithRetry_at_most_MaxAttempts :
  forall (E : Env) (c : Client) (req : Request) (resp : loc) (w : World) (r0 : Response),
    transportOk E ->
    heap w !! resp = Some r0 ->
    http.Request.Body (RawRequest req) <> Some nilGzipReader ->
    exists req' w',
      doWithRetry E c req resp w = Some (req', w') /\
      (exchanges (trace w') - exchanges (trace w) <=
         Z.to_nat (MaxAttempts (Merge E (Retry_ req) (defaultRetry E))))%nat /\
      (exchanges (trace w) <= exchanges (trace w'))%nat /\
      (1 <= MaxAttempts (Merge E (Retry_ req) (defaultRetry E)) ->
       (exchanges (trace w) < exchanges (trace w'))%nat).
Proof.
  intros E c req resp w r0 Hok Hr Hbody. unfold doWithRetry.
  destruct (prepare_runs E (Merge E (Retry_ req) (defaultRetry E)) req w Hbody)
    as (prepared & w0 & Hprep & Hheap0 & Hsent0 & _).
  rewrite (bind_Some _ _ _ _ _ Hprep).
  assert (Hr0 : heap w0 !! resp = Some r0) by (rewrite Hheap0; exact Hr).
  destruct (attempts_bounded E Hok c (Merge E (Retry_ req) (defaultRetry E))
              (boundContext prepared) resp
              (S (Z.to_nat (MaxAttempts (Merge E (Retry_ req) (defaultRetry E))))) 0
              (set_RawRequest
                 (http.Request.WithContext (boundContext prepared) (RawRequest prepared))
                 prepared)
              w0 r0 Hr0 ltac:(lia))
    as (req' & w' & new & Hrun & Hsent & Hle & Hge & _ & _).
  exists req', w'. split; [exact Hrun |].
  unfold exchanges. rewrite Hsent, Hsent0, length_app.
  rewrite Z.sub_0_r in Hle. split; [lia |]. split; [lia |].
  intros Hpos. specialize (Hge ltac:(lia)). lia.
Qed.

Lemma doWithRetry_at_most_MaxAttempts_witness :
  exists req' w',
    doWithRetry (Demo.env Demo.server) Demo.client
      (Demo.request Demo.get (Some (Demo.policy 5 Demo.on500)) None) 0%nat
      (Demo.world Demo.empty) = Some (req', w') /\
    (exchanges (trace w') - exchanges (trace (Demo.world Demo.empty)) <=
       Z.to_nat (MaxAttempts (Merge (Demo.env Demo.server)
                                (Retry_ (Demo.request Demo.get
                                           (Some (Demo.policy 5 Demo.on500)) None))
                                (defaultRetry (Demo.env Demo.server)))))%nat /\
    (exchanges (trace (Demo.world Demo.empty)) <= exchanges (trace w'))%nat /\
    (1 <= MaxAttempts (Merge (Demo.env Demo.server)
                         (Retry_ (Demo.request Demo.get
                                    (Some (Demo.policy 5 Demo.on500)) None))
                         (defaultRetry (Demo.env Demo.server))) ->
     (exchanges (trace (Demo.world Demo.empty)) < exchanges (trace w'))%nat).
Proof.
  apply (doWithRetry_at_most_MaxAttempts (Demo.env Demo.server) Demo.client
           (Demo.request Demo.get (Some (Demo.policy 5 Demo.on500)) None) 0%nat
           (Demo.world Demo.empty) Demo.empty Demo_server_ok eq_refl).
  discriminate.
Defined.

(** X20.  Every request that [doWithRetry] hands to the transport is bound
    to the context of the request, or to the background context when the
    request has none, as long as SetBody leaves the context of the request
    alone. *)
Theorem every_exchange_bound_to_context :
  forall (E : Env) (c : Client) (req : Request) (resp : loc) (w : World) (r0 : Response),
    transportOk E ->
    heap w !! resp = Some r0 ->
    http.Request.Body (RawRequest req) <> Some nilGzipReader ->
    (forall b, ctx (SetBody E b req) = ctx req) ->
    exists req' w' new,
      doWithRetry E c req resp w = Some (req', w') /\
      sent (trace w') = sent (trace w) ++ new /\
      Forall (fun r => http.Request.ctx r = boundContext req) new.
Proof.
  intros E c req resp w r0 Hok Hr Hbody Hframe. unfold doWithRetry.
  destruct (prepare_runs E (Merge E (Retry_ req) (defaultRetry E)) req w Hbody)
    as (prepared & w0 & Hprep & Hheap0 & Hsent0 & Hbuf).
  rewrite (bind_Some _ _ _ _ _ Hprep).
  assert (Hctx : boundContext prepared = boundContext req).
  { unfold boundContext.
    destruct (needsBuffer _ req).
    - destruct Hbuf as (body & b & e & w1 & _ & _ & -> & _). rewrite Hframe. reflexivity.
    - destruct Hbuf as [-> _]. reflexivity. }
  rewrite Hctx.
  assert (Hr0 : heap w0 !! resp = Some r0) by (rewrite Hheap0; exact Hr).
  destruct (attempts_bounded E Hok c (Merge E (Retry_ req) (defaultRetry E))
              (boundContext req) resp
              (S (Z.to_nat (MaxAttempts (Merge E (Retry_ req) (defaultRetry E))))) 0
              (set_RawRequest
                 (http.Request.WithContext (boundContext req) (RawRequest prepared))
                 prepared)
              w0 r0 Hr0 ltac:(lia))
    as (req' & w' & new & Hrun & Hsent & _ & _ & Hall & _).
  exists req', w', new. split; [exact Hrun |].
  split; [rewrite Hsent, Hsent0; reflexivity | exact Hall].
Qed.

Lemma every_exchange_bound_to_context_witness :
  exists req' w' new,
    doWithRetry (Demo.env Demo.server) Demo.client
      (Demo.request Demo.post (Some (Demo.policy 3 Demo.on500))
         (Some {| cancelAt := Some (100, Demo.canceled) |})) 0%nat
      (Demo.world Demo.empty) = Some (req', w') /\
    sent (trace w') = sent (trace (Demo.world Demo.empty)) ++ new /\
    Forall (fun r => http.Request.ctx r = {| cancelAt := Some (100, Demo.canceled) |}) new.
Proof.
  apply (every_exchange_bound_to_context (Demo.env Demo.server) Demo.client
           (Demo.request Demo.post (Some (Demo.policy 3 Demo.on500))
              (Some {| cancelAt := Some (100, Demo.canceled) |})) 0%nat
           (Demo.world Demo.empty) Demo.empty Demo_server_ok eq_refl).
  - discriminate.
  - intros [b |]; reflexivity.
Defined.

Lemma prepare_single_attempt (E : Env) (retry : Retry) (req : Request) (w : World) :
  MaxAttempts retry <= 1 -> prepare E retry req w = Some (req, w).
Proof.
  intros Hle. unfold prepare.
  destruct (http.Request.Body (RawRequest req)); [| reflexivity].
  destruct (http.Request.GetBody (RawRequest req)); [reflexivity |].
  rewrite (proj2 (Z.ltb_ge _ _)) by lia. reflexivity.
Qed.

(** X21.  At any attempt that is not cut short by the context, a Trigger
    that declines the result ends the loop there: the Response keeps the
    result of that exchange, no wait and no further exchange follows. *)
Theorem loop_stops_when_Trigger_declines :
  forall (E : Env) (c : Client) (retry : Retry) (ctx : Context) (resp : loc)
         (fuel : nat) (i : Z) (req req1 : Request) (w w1 : World) (r0 : Response)
         (raw : option http.Response.t) (e : option error),
    transportOk E ->
    heap w !! resp = Some r0 ->
    i < MaxAttempts retry ->
    do E c req w = Some ((req1, (raw, e)), w1) ->
    ctx_Err ctx (now w1) = None ->
    Trigger retry {| RawResponse := raw; Err := e |} = false ->
    exists w',
      attempts E (S fuel) c retry ctx resp i req w = Some (req1, w') /\
      heap w' !! resp = Some {| RawResponse := raw; Err := e |} /\
      sent (trace w') = sent (trace w) ++ [RawRequest req] /\
      (trace w' = trace w1 ++ [EvCtxErr None] \/
       trace w' = trace w1 ++ [EvCtxErr None; EvTrigger i]).
Proof.
  intros E c retry ctx resp fuel i req req1 w w1 r0 raw e Hok Hr Hlt Hdo Hctx Htrig.
  destruct (do_trace E Hok _ _ _ _ _ _ _ Hdo) as (_ & Hheap & Hsent & _).
  destruct (attempt_after_do E c retry ctx resp i req w r0 req1 raw e w1 Hr Hdo Hheap)
    as (fl & req' & w' & tr & ef & Hat & Htr & Hh & Hcase).
  cbn [attempts]. rewrite (proj2 (Z.ltb_lt _ _) Hlt), (bind_Some _ _ _ _ _ Hat).
  destruct Hcase; try congruence.
  - exists w'. split; [reflexivity |]. split; [exact Hh |].
    split; [rewrite Htr, sent_app; simpl; rewrite app_nil_r; exact Hsent | left; exact Htr].
  - exists w'. split; [reflexivity |]. split; [exact Hh |].
    split; [rewrite Htr, sent_app; simpl; rewrite app_nil_r; exact Hsent | right; exact Htr].
Qed.

Lemma loop_stops_when_Trigger_declines_witness :
  exists w',
    attempts (Demo.env Demo.server) 4 Demo.client (Demo.policy 3 Demo.onlyOnError)
      Background 0%nat 0 (Demo.request Demo.get None None) (Demo.world Demo.empty) =
      Some (Demo.request Demo.get None None, w') /\
    heap w' !! 0%nat = Some {| RawResponse := Some (Demo.answer 500 [] 4); Err := None |} /\
    sent (trace w') = sent (trace (Demo.world Demo.empty)) ++ [Demo.get] /\
    (trace w' = trace (answered (Demo.world Demo.empty) Demo.get 3) ++ [EvCtxErr None] \/
     trace w' =
       trace (answered (Demo.world Demo.empty) Demo.get 3) ++ [EvCtxErr None; EvTrigger 0]).
Proof.
  apply (loop_stops_when_Trigger_declines (Demo.env Demo.server) Demo.client
           (Demo.policy 3 Demo.onlyOnError) Background 0%nat 3 0
           (Demo.request Demo.get None None) (Demo.request Demo.get None None)
           (Demo.world Demo.empty) (answered (Demo.world Demo.empty) Demo.get 3)
           Demo.empty (Some (Demo.answer 500 [] 4)) None Demo_server_ok);
    try reflexivity.
Defined.

(** X22.  With MaxAttempts = 1 in the merged policy, [doWithRetry] makes
    one call of [do] on the request bound to its context and returns: the
    body of the request is not read by the client, the Trigger is not asked
    and nothing is waited for.  The Response holds the result of that call,
    with the error of the context in place of its error when the context is
    canceled by then. *)
Theorem doWithRetry_single_attempt :
  forall (E : Env) (c : Client) (req : Request) (resp : loc) (w : World) (r0 : Response),
    transportOk E ->
    heap w !! resp = Some r0 ->
    MaxAttempts (Merge E (Retry_ req) (defaultRetry E)) = 1 ->
    exists req1 raw e w1 w',
      do E c (set_RawRequest
                (http.Request.WithContext (boundContext req) (RawRequest req)) req) w =
        Some ((req1, (raw, e)), w1) /\
      doWithRetry E c req resp w = Some (req1, w') /\
      trace w' = trace w1 ++ [EvCtxErr (ctx_Err (boundContext req) (now w1))] /\
      heap w' !! resp =
        Some {| RawResponse := raw;
                Err := match ctx_Err (boundContext req) (now w1) with
                       | Some ce => Some ce
                       | None => e
                       end |}.
Proof.
  intros E c req resp w r0 Hok Hr Hone. unfold doWithRetry.
  assert (Hprep : prepare E (Merge E (Retry_ req) (defaultRetry E)) req w = Some (req, w))
    by (apply prepare_single_attempt; lia).
  rewrite (bind_Some _ _ _ _ _ Hprep).
  rewrite Hone. cbn [Z.to_nat Pos.to_nat Pos.iter_op attempts].
  destruct (attempt_runs E Hok c (Merge E (Retry_ req) (defaultRetry E))
              (boundContext req) resp 0
              (set_RawRequest
                 (http.Request.WithContext (boundContext req) (RawRequest req)) req)
              w r0 Hr)
    as (req1 & raw & e & w1 & fl & req' & w' & tr & ef & Hdo & Hat & Htr & Hheap & Hcase).
  exists req1, raw, e, w1, w'. split; [exact Hdo |].
  rewrite Hone. cbn [Z.ltb Z.compare]. rewrite (bind_Some _ _ _ _ _ Hat).
  destruct Hcase; try lia.
  - rewrite H. auto.
  - rewrite H. auto.
Qed.

Lemma doWithRetry_single_attempt_witness :
  exists req1 raw e w1 w',
    do (Demo.env Demo.server) Demo.client
      (set_RawRequest
         (http.Request.WithContext (boundContext (Demo.request Demo.post None None))
            (RawRequest (Demo.request Demo.post None None)))
         (Demo.request Demo.post None None)) (Demo.world Demo.empty) =
      Some ((req1, (raw, e)), w1) /\
    doWithRetry (Demo.env Demo.server) Demo.client (Demo.request Demo.post None None)
      0%nat (Demo.world Demo.empty) = Some (req1, w') /\
    trace w' =
      trace w1 ++
        [EvCtxErr (ctx_Err (boundContext (Demo.request Demo.post None None)) (now w1))] /\
    heap w' !! 0%nat =
      Some {| RawResponse := raw;
              Err := match ctx_Err (boundContext (Demo.request Demo.post None None))
                             (now w1) with
                     | Some ce => Some ce
                     | None => e
                     end |}.
Proof.
  apply (doWithRetry_single_attempt (Demo.env Demo.server) Demo.client
           (Demo.request Demo.post None None) 0%nat (Demo.world Demo.empty) Demo.empty
           Demo_server_ok); reflexivity.
Defined.

Lemma Raw_zeroResponse (E : Env) (w : World) (r : loc) :
  heap w !! r = Some zeroResponse -> Raw E r w = None.
Proof. intros Hr. unfold Raw. step Hr. reflexivity. Qed.

(** X23.  With MaxAttempts at 0 or below in the merged policy, [doWithRetry]
    makes no exchange and touches nothing: it returns in the world it was
    called in.  [Do] on a client without hooks then returns a Response with
    no error and no raw response, on which Raw panics. *)
Theorem doWithRetry_without_attempts :
  forall (E : Env) (c : Client) (req : Request) (w : World),
    (forall resp,
       MaxAttempts (Merge E (Retry_ req) (defaultRetry E)) <= 0 ->
       doWithRetry E c req resp w =
         Some (set_RawRequest
                 (http.Request.WithContext (boundContext req) (RawRequest req)) req,
               w)) /\
    (MaxAttempts (Merge E (Retry_ (Sync E req)) (defaultRetry E)) <= 0 ->
     beforeRequestHooks c = [] ->
     afterResponseHooks c = [] ->
     exists req' w',
       Do E c req w = Some ((length (heap w), req'), w') /\
       heap w' = heap w ++ [zeroResponse] /\
       trace w' = trace w /\
       Raw E (length (heap w)) w' = None).
Proof.
  intros E c req w.
  assert (Hloop : forall rq resp w0,
            MaxAttempts (Merge E (Retry_ rq) (defaultRetry E)) <= 0 ->
            doWithRetry E c rq resp w0 =
              Some (set_RawRequest
                      (http.Request.WithContext (boundContext rq) (RawRequest rq)) rq,
                    w0)).
  { intros rq resp w0 Hle. unfold doWithRetry.
    assert (Hprep : prepare E (Merge E (Retry_ rq) (defaultRetry E)) rq w0 = Some (rq, w0))
      by (apply prepare_single_attempt; lia).
    rewrite (bind_Some _ _ _ _ _ Hprep).
    cbn [attempts]. rewrite (proj2 (Z.ltb_ge _ _)) by lia. reflexivity. }
  split; [intros resp Hle; apply Hloop; exact Hle |].
  intros Hle Hb Ha.
  eexists _, _. split.
  - unfold Do, alloc, onBeforeRequest, onAfterResponse. rewrite Hb, Ha.
    unfold bind at 1. cbn [beforeRequestFrom]. rewrite bind_ret.
    rewrite (bind_Some _ _ _ _ _ (Hloop _ _ _ Hle)). reflexivity.
  - unfold set_heap. cbn [heap trace]. split; [reflexivity |]. split; [reflexivity |].
    apply Raw_zeroResponse. cbn [heap].
    rewrite lookup_app_r by lia. rewrite Nat.sub_diag. reflexivity.
Qed.

Lemma doWithRetry_without_attempts_witness :
  exists req' w',
    Do (Demo.env Demo.server) Demo.client
      (Demo.request Demo.get (Some (Demo.policy 0 Demo.always)) None) Demo.start =
      Some ((length (heap Demo.start), req'), w') /\
    heap w' = heap Demo.start ++ [zeroResponse] /\
    trace w' = trace Demo.start /\
    Raw (Demo.env Demo.server) (length (heap Demo.start)) w' = None.
Proof.
  apply (proj2 (doWithRetry_without_attempts (Demo.env Demo.server) Demo.client
                  (Demo.request Demo.get (Some (Demo.policy 0 Demo.always)) None)
                  Demo.start)).
  - vm_compute. discriminate.
  - reflexivity.
  - reflexivity.
Defined.

(** ** The whole of Do *)

Lemma afterResponseFrom_runs (resp : loc) (hooks : list AfterResponseHook) :
  forall k w r0,
    heap w !! resp = Some r0 ->
    exists w' r1 n,
      afterResponseFrom k hooks resp w = Some (tt, w') /\
      heap w' !! resp = Some r1 /\
      trace w' = trace w ++ map EvAfterHook (seq k n) /\
      (n <= length hooks)%nat.
Proof.
  induction hooks as [| h hooks IH]; intros k w r0 Hr.
  - exists w, r0, 0%nat. simpl. rewrite app_nil_r. auto.
  - simpl. rewrite bind_emit.
    assert (Hr' : heap (log (EvAfterHook k) w) !! resp = Some r0) by exact Hr.
    step Hr'. step Hr'.
    pose proof (lookup_stored _ _ _ (h r0) Hr') as Hs.
    match goal with
    | |- context [bind (load resp) _ ?w0] =>
        rewrite (bind_Some _ _ _ _ _ (load_Some w0 resp _ Hs))
    end.
    destruct (Err (h r0)) as [e |].
    + eexists _, _, 1%nat. split; [reflexivity |]. split; [exact Hs |].
      split; [reflexivity | simpl; lia].
    + match goal with
      | |- context [afterResponseFrom _ _ _ ?w0] =>
          destruct (IH (S k) w0 (h r0) Hs) as (w' & r1 & n & Hrun & Hheap & Htr & Hn)
      end.
      exists w', r1, (S n). split; [exact Hrun |]. split; [exact Hheap |].
      split; [| simpl; lia].
      rewrite Htr. unfold set_heap, log. cbn [trace seq map].
      rewrite <- app_assoc. reflexivity.
Qed.

Lemma doWithRetry_first_request (E : Env) (c : Client) (req : Request) (resp : loc)
    (w : World) (r0 : Response) :
  transportOk E ->
  heap w !! resp = Some r0 ->
  needsBuffer (Merge E (Retry_ req) (defaultRetry E)) req = false ->
  http.Request.Body (RawRequest req) <> Some nilGzipReader ->
  1 <= MaxAttempts (Merge E (Retry_ req) (defaultRetry E)) ->
  exists req' w' rest r',
    doWithRetry E c req resp w = Some (req', w') /\
    sent (trace w') =
      sent (trace w) ++
        http.Request.WithContext (boundContext req) (RawRequest req) :: rest /\
    Forall wasReset rest /\
    heap w' !! resp = Some r'.
Proof.
  intros Hok Hr Hbuf Hbody Hpos. unfold doWithRetry.
  destruct (prepare_runs E (Merge E (Retry_ req) (defaultRetry E)) req w Hbody)
    as (prepared & w1 & Hprep & Hheap1 & Hsent1 & Hb).
  rewrite (bind_Some _ _ _ _ _ Hprep).
  rewrite Hbuf in Hb. destruct Hb as [-> _].
  assert (Hr1 : heap w1 !! resp = Some r0) by (rewrite Hheap1; exact Hr).
  match goal with
  | |- context [attempts E ?fuel c ?rt ?cx resp ?i ?rq w1] =>
      destruct (attempts_sent E Hok c rt cx resp fuel i rq w1 _ Hr1 ltac:(lia))
        as (req2 & w2 & Hrun & _ & Hsent2);
      destruct (attempts_bounded E Hok c rt cx resp fuel i rq w1 _ Hr1 ltac:(lia))
        as (req2' & w2' & new & Hrun' & Hnew & _ & Hge & _ & r' & Halloc)
  end.
  rewrite Hrun in Hrun'. injection Hrun' as <- <-.
  specialize (Hge ltac:(lia)).
  destruct Hsent2 as [Hsame | (rest & Hmore & Hall)].
  - exfalso. rewrite Hsame in Hnew.
    apply (f_equal length) in Hnew. rewrite length_app in Hnew. lia.
  - exists req2, w2, rest, r'. split; [exact Hrun |].
    split; [rewrite Hmore, Hsent1; reflexivity |]. split; [exact Hall | exact Halloc].
Qed.

(** X24.  When every before-request hook passes and the policy allows an
    attempt, [Do] returns a new Response, and the first request it hands to
    the transport is the raw request left by the hooks, applied in order, and
    then by Sync, bound to its context; the requests of the retried attempts
    have the body their GetBody returns.  The request needs no buffering
    here: it has no body, or a GetBody, or a single attempt. *)
Theorem Do_sends_the_request_left_by_the_hooks :
  forall (E : Env) (c : Client) (req req1 : Request) (w : World),
    transportOk E ->
    passAll (beforeRequestHooks c) req = Some req1 ->
    needsBuffer (Merge E (Retry_ (Sync E req1)) (defaultRetry E)) (Sync E req1) = false ->
    http.Request.Body (RawRequest (Sync E req1)) <> Some nilGzipReader ->
    1 <= MaxAttempts (Merge E (Retry_ (Sync E req1)) (defaultRetry E)) ->
    exists req' w' rest,
      Do E c req w = Some ((length (heap w), req'), w') /\
      sent (trace w') =
        sent (trace w) ++
          http.Request.WithContext (boundContext (Sync E req1)) (RawRequest (Sync E req1))
          :: rest /\
      Forall wasReset rest.
Proof.
  intros E c req req1 w Hok Hpass Hbuf Hbody Hpos.
  unfold Do, alloc, onBeforeRequest. unfold bind at 1.
  rewrite (bind_Some _ _ _ _ _
             (beforeRequestFrom_passes (beforeRequestHooks c) 0 req req1 _ Hpass)).
  match goal with
  | |- context [bind (doWithRetry E c ?rq ?rs) _ ?w0] =>
      assert (Hr0 : heap w0 !! rs = Some {| RawResponse := None; Err := None |})
        by (unfold set_heap; cbn [heap]; rewrite lookup_app_r by lia;
            rewrite Nat.sub_diag; reflexivity);
      destruct (doWithRetry_first_request E c rq rs w0 _ Hok Hr0 Hbuf Hbody Hpos)
        as (req2 & w2 & rest & r2 & Hrun & Hsent & Hall & Hr2);
      rewrite (bind_Some _ _ _ _ _ Hrun)
  end.
  unfold onAfterResponse.
  destruct (afterResponseFrom_runs (length (heap w)) (afterResponseHooks c) 0 w2 r2 Hr2)
    as (w3 & r3 & n & Hafter & _ & Htr3 & _).
  rewrite (bind_Some _ _ _ _ _ Hafter).
  exists req2, w3, rest. split; [reflexivity |]. split; [| exact Hall].
  rewrite Htr3, sent_app, sent_after_hooks, app_nil_r, Hsent.
  unfold set_heap. cbn [trace]. rewrite sent_app, sent_before_hooks, app_nil_r.
  reflexivity.
Qed.

Lemma Do_sends_the_request_left_by_the_hooks_witness :
  exists req' w' rest,
    Do (Demo.env Demo.server) Sample.stamping
      (Demo.request Demo.get (Some (Demo.policy 3 Demo.on500)) None) Demo.start =
      Some ((length (heap Demo.start), req'), w') /\
    sent (trace w') =
      sent (trace Demo.start) ++
        http.Request.WithContext Background
          (http.Request.mk "HEAD" Demo.url "HTTP/1.1" [] None None 0 Background)
        :: rest /\
    Forall wasReset rest.
Proof.
  apply (Do_sends_the_request_left_by_the_hooks (Demo.env Demo.server) Sample.stamping
           (Demo.request Demo.get (Some (Demo.policy 3 Demo.on500)) None)
           (Demo.request (http.Request.mk "HEAD" Demo.url "HTTP/1.1" [] None None 0 Background)
              (Some (Demo.policy 3 Demo.on500)) None)
           Demo.start Demo_server_ok).
  - reflexivity.
  - reflexivity.
  - discriminate.
  - vm_compute. discriminate.
Defined.

(** ** The time a retried request takes *)

Lemma resetBody_now (req req2 : Request) (w w' : World) :
  resetBody req w = Some (req2, w') -> now w' = now w.
Proof.
  unfold resetBody. destruct (http.Request.GetBody (RawRequest req)).
  - rewrite bind_emit. intros [= _ <-]. reflexivity.
  - intros [= _ <-]. reflexivity.
Qed.

Lemma prepare_now (E : Env) (retry : Retry) (req prepared : Request) (w w0 : World) :
  prepare E retry req w = Some (prepared, w0) -> now w0 = now w.
Proof.
  unfold prepare.
  destruct (http.Request.Body (RawRequest req)) as [body |];
    [| intros [= _ <-]; reflexivity].
  destruct (http.Request.GetBody (RawRequest req));
    [intros [= _ <-]; reflexivity |].
  destruct (1 <? MaxAttempts retry); [| intros [= _ <-]; reflexivity].
  unfold drainBody, Read, Close.
  destruct body as [id | under |]; [| | discriminate];
    unfold bind, ask, emit, ret;
    match goal with
    | |- context [io_ReadAll E ?w1 ?b] => destruct (io_ReadAll E w1 b) as [data [e |]]
    end;
    try (intros [= _ <-]; reflexivity);
    match goal with
    | |- context [io_Close E ?w1 ?b] => destruct (io_Close E w1 b)
    end;
    intros [= _ <-]; reflexivity.
Qed.

Section Clock.

Variable E : Env.
Hypothesis Hok : transportOk E.
Variables (c : Client) (retry : Retry) (ctx : Context) (resp : loc).

Lemma do_clock (req req1 : Request) (w w1 : World) res :
  do E c req w = Some ((req1, res), w1) -> now w <= now w1.
Proof.
  destruct (http_Client_Do E (RawClient c) w (RawRequest req)) as [[r e] dt] eqn:Hdo.
  destruct e as [e |].
  { rewrite (do_transport_error _ _ _ _ _ _ _ Hdo). intros [= _ _ <-]. simpl. lia. }
  destruct (err req) as [| v pending] eqn:Hq.
  2: { rewrite (do_deferred_error _ _ _ _ _ _ _ _ Hdo Hq). intros [= _ _ <-]. simpl. lia. }
  destruct r as [rr |]; [| exfalso; eapply Hok; eauto].
  rewrite (do_success _ _ _ _ _ _ Hdo Hq).
  destruct (wantsGzip E rr); [destruct (gzip_NewReader E _ _) |];
    intros [= _ _ <-]; simpl; lia.
Qed.

Hypothesis Htrigger : forall r, Trigger retry r = true.
Hypothesis Hnever : cancelAt ctx = None.
Variable d0 : Z.
Hypothesis Hd0 : forall i r, d0 <= Backoff retry (WaitTime retry) (MaxWaitTime retry) i r.

Lemma attempt_clock (i : Z) (req : Request) (w : World) (r0 : Response) :
  heap w !! resp = Some r0 ->
  exists fl req' w' r',
    attempt E c retry ctx resp i req w = Some ((fl, req'), w') /\
    heap w' !! resp = Some r' /\
    (i = MaxAttempts retry - 1 -> fl = returns /\ now w <= now w') /\
    (i <> MaxAttempts retry - 1 -> fl = continues /\ now w + d0 <= now w').
Proof.
  intros Hr.
  destruct (do_runs E Hok c req w) as (req1 & raw & e & w1 & dec & Hdo & _ & Hheap & _).
  pose proof (do_clock _ _ _ _ _ Hdo) as Hclock.
  unfold attempt. rewrite (bind_Some _ _ _ _ _ Hdo).
  assert (Hr1 : heap w1 !! resp = Some r0) by (rewrite Hheap; exact Hr).
  step Hr1. rewrite bind_ask, bind_emit. cbn [now set_heap log].
  set (stored := {| RawResponse := raw; Err := e |}).
  pose proof (lookup_stored _ _ _ stored Hr1) as Hs.
  rewrite (ctx_Err_never _ _ Hnever).
  destruct (Z.eqb_spec i (MaxAttempts retry - 1)) as [Hlast | Hnot].
  { eexists _, _, _, _. split; [reflexivity |]. split; [exact Hs |].
    split; [intros _; split; [reflexivity | exact Hclock] | intros H; contradiction]. }
  match goal with
  | |- context [bind (load resp) _ ?w0] =>
      rewrite (bind_Some _ _ _ _ _ (load_Some w0 resp _ Hs))
  end.
  rewrite bind_emit, Htrigger. cbn [negb].
  match goal with
  | |- context [bind (resetBody req1) _ ?w0] =>
      destruct (resetBody_runs req1 w0) as (req2 & w3 & gb & Hreset & _ & Hheap3 & _);
      pose proof (resetBody_now _ _ _ _ Hreset) as Hnow3;
      rewrite (bind_Some _ _ _ _ _ Hreset)
  end.
  rewrite (bind_Some _ _ _ _ _ (wait_never_canceled E ctx _ w3 Hnever)).
  eexists _, _, _, _. split; [reflexivity |]. split.
  - cbn [heap set_now log]. rewrite Hheap3. exact Hs.
  - split; [intros H; contradiction |]. intros _. split; [reflexivity |].
    cbn [now set_now]. rewrite Hnow3. cbn [now].
    pose proof (Hd0 i stored) as Hd. subst stored.
    unfold log, set_heap. cbn [now]. lia.
Qed.

Lemma attempts_clock (n : nat) :
  forall fuel i req w r0,
    heap w !! resp = Some r0 ->
    MaxAttempts retry - i = Z.of_nat (S n) ->
    (S n <= fuel)%nat ->
    exists req' w',
      attempts E fuel c retry ctx resp i req w = Some (req', w') /\
      now w + Z.of_nat n * d0 <= now w'.
Proof.
  induction n as [| n IH]; intros fuel i req w r0 Hr Hleft Hfuel.
  - destruct fuel as [| fuel]; [lia |]. cbn [attempts].
    rewrite (proj2 (Z.ltb_lt _ _)) by lia.
    destruct (attempt_clock i req w r0 Hr) as (fl & req' & w' & r' & Hat & _ & Hlast & _).
    rewrite (bind_Some _ _ _ _ _ Hat).
    destruct (Hlast ltac:(lia)) as [-> Hnow].
    exists req', w'. split; [reflexivity | lia].
  - destruct fuel as [| fuel]; [lia |]. cbn [attempts].
    rewrite (proj2 (Z.ltb_lt _ _)) by lia.
    destruct (attempt_clock i req w r0 Hr) as (fl & req1 & w1 & r1 & Hat & Hh & _ & Hmore).
    rewrite (bind_Some _ _ _ _ _ Hat).
    destruct (Hmore ltac:(lia)) as [-> Hnow].
    destruct (IH fuel (i + 1) req1 w1 r1 Hh ltac:(lia) ltac:(lia))
      as (req' & w' & Hrun & Hnow').
    exists req', w'. split; [exact Hrun | lia].
Qed.

End Clock.

(** X25.  When every attempt is made (N >= 1 attempts allowed, a Trigger
    that always says yes, a context never canceled) and the Backoff never
    returns less than [d0], [doWithRetry] takes at least (N - 1) * d0 on
    the clock: a full wait lies between any two attempts. *)
Theorem doWithRetry_waits_between_attempts :
  forall (E : Env) (c : Client) (req : Request) (resp : loc) (w : World)
         (r0 : Response) (N d0 : Z),
    transportOk E ->
    heap w !! resp = Some r0 ->
    http.Request.Body (RawRequest req) <> Some nilGzipReader ->
    (forall b, ctx (SetBody E b req) = ctx req) ->
    MaxAttempts (Merge E (Retry_ req) (defaultRetry E)) = N ->
    1 <= N ->
    (forall r, Trigger (Merge E (Retry_ req) (defaultRetry E)) r = true) ->
    cancelAt (boundContext req) = None ->
    (forall i r,
       d0 <= Backoff (Merge E (Retry_ req) (defaultRetry E))
               (WaitTime (Merge E (Retry_ req) (defaultRetry E)))
               (MaxWaitTime (Merge E (Retry_ req) (defaultRetry E))) i r) ->
    exists req' w',
      doWithRetry E c req resp w = Some (req', w') /\
      now w + (N - 1) * d0 <= now w'.
Proof.
  intros E c req resp w r0 N d0 Hok Hr Hbody Hframe HN Hpos Htrig Hnever Hd0.
  unfold doWithRetry.
  destruct (prepare_runs E (Merge E (Retry_ req) (defaultRetry E)) req w Hbody)
    as (prepared & w0 & Hprep & Hheap0 & _ & Hbuf).
  rewrite (bind_Some _ _ _ _ _ Hprep).
  pose proof (prepare_now _ _ _ _ _ _ Hprep) as Hnow0.
  assert (Hctx : boundContext prepared = boundContext req).
  { unfold boundContext.
    destruct (needsBuffer _ req).
    - destruct Hbuf as (body & b & e & w1 & _ & _ & -> & _). rewrite Hframe. reflexivity.
    - destruct Hbuf as [-> _]. reflexivity. }
  rewrite Hctx.
  assert (Hr0 : heap w0 !! resp = Some r0) by (rewrite Hheap0; exact Hr).
  destruct (attempts_clock E Hok c (Merge E (Retry_ req) (defaultRetry E))
              (boundContext req) resp Htrig Hnever d0 Hd0 (Z.to_nat N - 1)
              (S (Z.to_nat (MaxAttempts (Merge E (Retry_ req) (defaultRetry E))))) 0
              (set_RawRequest
                 (http.Request.WithContext (boundContext req) (RawRequest prepared))
                 prepared)
              w0 r0 Hr0 ltac:(lia) ltac:(lia))
    as (req' & w' & Hrun & Hnow).
  exists req', w'. split; [exact Hrun |].
  rewrite Hnow0 in Hnow.
  replace (Z.of_nat (Z.to_nat N - 1)) with (N - 1) in Hnow by lia. exact Hnow.
Qed.

Lemma doWithRetry_waits_between_attempts_witness :
  exists req' w',
    doWithRetry (Demo.env Demo.server) Demo.client
      (Demo.request Demo.get (Some (Demo.policy 3 Demo.always)) None) 0%nat
      (Demo.world Demo.empty) = Some (req', w') /\
    now (Demo.world Demo.empty) + (3 - 1) * 10 <= now w'.
Proof.
  apply (doWithRetry_waits_between_attempts (Demo.env Demo.server) Demo.client
           (Demo.request Demo.get (Some (Demo.policy 3 Demo.always)) None) 0%nat
           (Demo.world Demo.empty) Demo.empty 3 10 Demo_server_ok).
  - reflexivity.
  - discriminate.
  - intros [b |]; reflexivity.
  - reflexivity.
  - lia.
  - intros r. reflexivity.
  - reflexivity.
  - intros i r. simpl. lia.
Defined.
